(** * Quillium MCQ pipeline: a shallow embedding of [backend/app/mcq_generator.py]

    The development follows the Python module function by function.

    - Python [str] values are modelled as [string]; [lower], [strip] and
      [split] act on the ASCII range as Python does there, and leave every
      other character alone.
    - Values decoded by [json.loads] are modelled by the inductive type
      [json]; the attribute and subscript errors Python raises on an
      unexpected shape are modelled by the [Raises] outcome.
    - The [while] loop of [validate_mcq] is run with an explicit fuel, the
      only place where the module can fail to return.
    - The credential, the language-model provider and [json.loads] are
      external to the module; they enter through the class [Runtime], and
      every result holds for all of its instances.
    - The two endpoints of [backend/app/main.py] that call [make_mcqs],
      [process_pdf] and [test_mcq_generation], are modelled on top of it;
      the PDF text extraction and the response model are parameters. *)

From Stdlib Require Import String Ascii List ZArith Bool Arith Lia.
From Stdlib Require Import DecimalString.
From Equations Require Import Equations.
Import ListNotations.

Set Warnings "-register-all,-abstract-large-number".

Local Open Scope list_scope.
Local Open Scope string_scope.

(* ------------------------------------------------------------------ *)
(** ** Python string primitives *)

Module PyStr.

(** [str.isspace] on one character, ASCII range: tab, line feed, vertical
    tab, form feed, carriage return, the four separators 28-31 and space. *)
Definition is_space (c : ascii) : bool :=
  let n := nat_of_ascii c in
  (((9 <=? n) && (n <=? 13)) || ((28 <=? n) && (n <=? 32)))%nat.

Definition lower_char (c : ascii) : ascii :=
  let n := nat_of_ascii c in
  if ((65 <=? n) && (n <=? 90))%nat then ascii_of_nat (n + 32) else c.

(** [s.lower()] *)
Fixpoint lower (s : string) : string :=
  match s with
  | EmptyString => EmptyString
  | String c t => String (lower_char c) (lower t)
  end.

(** [s.lstrip()] *)
Fixpoint lstrip (s : string) : string :=
  match s with
  | EmptyString => EmptyString
  | String c t => if is_space c then lstrip t else s
  end.

(** [s.rstrip()] *)
Fixpoint rstrip (s : string) : string :=
  match s with
  | EmptyString => EmptyString
  | String c t =>
      match rstrip t with
      | EmptyString => if is_space c then EmptyString else String c EmptyString
      | r => String c r
      end
  end.

(** [s.strip()] *)
Definition strip (s : string) : string := rstrip (lstrip s).

(** [not s] for a string *)
Definition is_empty (s : string) : bool :=
  match s with EmptyString => true | _ => false end.

(** [s.startswith(p)] *)
Definition startswith (p s : string) : bool := String.prefix p s.

(** [sub in s] *)
Fixpoint contains (sub s : string) : bool :=
  String.prefix sub s
  || match s with
     | EmptyString => false
     | String _ t => contains sub t
     end.

(** [s[:n]] for [n >= 0] *)
Fixpoint take (n : nat) (s : string) : string :=
  match n, s with
  | S k, String c t => String c (take k t)
  | _, _ => EmptyString
  end.

(** [s[n:]] for [n >= 0] *)
Fixpoint drop (n : nat) (s : string) : string :=
  match n, s with
  | S k, String _ t => drop k t
  | _, _ => s
  end.

(** [s.endswith(p)] *)
Definition endswith (p s : string) : bool :=
  (String.length p <=? String.length s)%nat
  && String.eqb (drop (String.length s - String.length p) s) p.

(** [s[:-n]] for [n > 0] *)
Definition drop_last (n : nat) (s : string) : string :=
  take (String.length s - n) s.

(** The pieces of [s] between the characters satisfying [delim], empty
    pieces kept: [re.split] on a one-character class. *)
Fixpoint split_on (delim : ascii -> bool) (s : string) : list string :=
  match s with
  | EmptyString => [EmptyString]
  | String c t =>
      if delim c then EmptyString :: split_on delim t
      else match split_on delim t with
           | piece :: rest => String c piece :: rest
           | [] => [String c EmptyString]
           end
  end.

(** [s.split()]: the maximal runs of non-space characters. *)
Definition split (s : string) : list string :=
  filter (fun w => negb (is_empty w)) (split_on is_space s).

(** [sep.join(l)] *)
Fixpoint join (sep : string) (l : list string) : string :=
  match l with
  | [] => EmptyString
  | [x] => x
  | x :: rest => x ++ sep ++ join sep rest
  end.

(** [x in l] for a list (or set) of strings *)
Definition mem (x : string) (l : list string) : bool :=
  existsb (String.eqb x) l.

(** [any(term in s for term in terms)] *)
Definition contains_any (terms : list string) (s : string) : bool :=
  existsb (fun term => contains term s) terms.

End PyStr.

(** [l[:n]] for a Python integer [n]: a negative bound counts from the end. *)
Definition py_take {A : Type} (n : Z) (l : list A) : list A :=
  if (0 <=? n)%Z then firstn (Z.to_nat n) l
  else firstn (length l - Z.to_nat (- n)) l.

(* ------------------------------------------------------------------ *)
(** ** Decoded JSON values and outcomes *)

(** What [json.loads] can return.  A float is kept as its truth value and
    the text [str()] gives for it; an object is the list of its keys and
    values in insertion order (keys distinct). *)
Inductive json : Type :=
| JNull
| JBool (b : bool)
| JInt (z : Z)
| JFloat (nonzero : bool) (shown : string)
| JStr (s : string)
| JArr (items : list json)
| JObj (fields : list (string * json)).

Inductive exn : Type :=
| AttributeError | TypeError | KeyError | IndexError | ValueError
| ProviderError.

(** A Python call returns, raises, or is still running when the fuel given
    to the [while] loop of [validate_mcq] is spent. *)
Inductive outcome (A : Type) : Type :=
| Returns (a : A)
| Raises (e : exn)
| OutOfFuel.

Arguments Returns {A} a.
Arguments Raises {A} e.
Arguments OutOfFuel {A}.

Definition bind {A B : Type} (m : outcome A) (k : A -> outcome B) : outcome B :=
  match m with
  | Returns a => k a
  | Raises e => Raises e
  | OutOfFuel => OutOfFuel
  end.

Notation "x <- m ;; k" := (bind m (fun x => k))
  (at level 61, m at next level, right associativity).

(** [try: body / except Exception: handler] *)
Definition try_except {A : Type} (body : outcome A) (handler : exn -> outcome A)
  : outcome A :=
  match body with
  | Raises e => handler e
  | other => other
  end.

Module PyJson.
Import PyStr.

Definition quote2 : ascii := ascii_of_nat 34.

Definition hex_digit (n : nat) : ascii :=
  nth n (list_ascii_of_string "0123456789abcdef") "0"%char.

Definition repr_char (quote c : ascii) : string :=
  let n := nat_of_ascii c in
  if Ascii.eqb c quote || Ascii.eqb c "\"%char then String "\"%char (String c EmptyString)
  else if (n =? 9)%nat then "\t"
  else if (n =? 10)%nat then "\n"
  else if (n =? 13)%nat then "\r"
  else if ((n <? 32) || (n =? 127))%nat
       then "\x" ++ String (hex_digit (n / 16)) (String (hex_digit (n mod 16)) EmptyString)
  else String c EmptyString.

Fixpoint repr_chars (quote : ascii) (s : string) : string :=
  match s with
  | EmptyString => EmptyString
  | String c t => repr_char quote c ++ repr_chars quote t
  end.

(** [repr(s)] for a string: single quotes unless the text has a single
    quote and no double quote. *)
Definition repr_str (s : string) : string :=
  let q := if contains "'" s && negb (contains (String quote2 EmptyString) s)
           then quote2 else "'"%char in
  String q (repr_chars q s ++ String q EmptyString).

Definition string_of_Z (z : Z) : string := NilZero.string_of_int (Z.to_int z).

(** [repr(v)] *)
Fixpoint py_repr (v : json) : string :=
  match v with
  | JNull => "None"
  | JBool true => "True"
  | JBool false => "False"
  | JInt z => string_of_Z z
  | JFloat _ shown => shown
  | JStr s => repr_str s
  | JArr items => "[" ++ join ", " (map py_repr items) ++ "]"
  | JObj fields =>
      "{" ++ join ", " (map (fun '(k, x) => repr_str k ++ ": " ++ py_repr x) fields) ++ "}"
  end.

(** [str(v)] *)
Definition py_str (v : json) : string :=
  match v with
  | JStr s => s
  | other => py_repr other
  end.

(** [bool(v)] *)
Definition truthy (v : json) : bool :=
  match v with
  | JNull => false
  | JBool b => b
  | JInt z => negb (z =? 0)%Z
  | JFloat nonzero _ => nonzero
  | JStr s => negb (is_empty s)
  | JArr items => match items with [] => false | _ => true end
  | JObj fields => match fields with [] => false | _ => true end
  end.

(** [d.get(key)] on the fields of an object *)
Fixpoint lookup (key : string) (fields : list (string * json)) : option json :=
  match fields with
  | [] => None
  | (k, x) :: rest => if String.eqb k key then Some x else lookup key rest
  end.

(** [d.get(key, default).strip()]: the value must be a [str]. *)
Definition get_stripped (key default : string) (fields : list (string * json))
  : outcome string :=
  match lookup key fields with
  | None => Returns (strip default)
  | Some (JStr s) => Returns (strip s)
  | Some _ => Raises AttributeError
  end.

(** [len(v)] *)
Definition py_len (v : json) : outcome nat :=
  match v with
  | JStr s => Returns (String.length s)
  | JArr items => Returns (length items)
  | JObj fields => Returns (length fields)
  | _ => Raises TypeError
  end.

Fixpoint chars (s : string) : list json :=
  match s with
  | EmptyString => []
  | String c t => JStr (String c EmptyString) :: chars t
  end.

(** The values [for x in v] goes through: the items of a list, the
    characters of a string, the keys of an object. *)
Definition py_iter (v : json) : outcome (list json) :=
  match v with
  | JStr s => Returns (chars s)
  | JArr items => Returns items
  | JObj fields => Returns (map (fun kv => JStr (fst kv)) fields)
  | _ => Raises TypeError
  end.

Definition is_str (s : string) (v : json) : bool :=
  match v with
  | JStr t => String.eqb t s
  | _ => false
  end.

(** [s in v] for a string [s]: an equal item of a list, a substring of a
    string, a key of an object. *)
Definition str_in (s : string) (v : json) : outcome bool :=
  match v with
  | JStr t => Returns (contains s t)
  | JArr items => Returns (existsb (is_str s) items)
  | JObj fields => Returns (existsb (fun kv => String.eqb (fst kv) s) fields)
  | _ => Raises TypeError
  end.

(** [v[0]]: an object decoded from JSON has string keys only. *)
Definition first_item (v : json) : outcome json :=
  match v with
  | JStr (String c _) => Returns (JStr (String c EmptyString))
  | JStr EmptyString => Raises IndexError
  | JArr (x :: _) => Returns x
  | JArr [] => Raises IndexError
  | JObj _ => Raises KeyError
  | _ => Raises TypeError
  end.

End PyJson.

(* ------------------------------------------------------------------ *)
(** ** The MCQ validator *)

Import PyStr PyJson.

(** The dictionary [validate_mcq] and [generate_fallback_mcqs] build. *)
Record MCQ : Type := mkMCQ {
  question : string;
  answer : string;
  options : list string;
  difficulty : string
}.

Definition vague_terms : list string :=
  [ "wrong"; "incorrect"; "not correct"; "false"; "invalid";
    "different concept"; "alternative perspective"; "common misconception";
    "broader interpretation"; "related but different"; "someone else";
    "not this"; "other answer"; "another option" ].

Definition people : list string :=
  [ "Alan Turing"; "Isaac Newton"; "Marie Curie"; "Charles Darwin" ].

Definition capitals : list string := [ "London"; "Berlin"; "Tokyo"; "Beijing" ].

Definition years : list string := [ "1945"; "1969"; "1776"; "2001" ].

Definition generic : list string :=
  [ "A related concept from the same field";
    "An important but different aspect";
    "A frequently confused alternative";
    "A similar but distinct element" ].

(** [pool[index % len(pool)]] *)
Definition pick (pool : list string) (index : nat) : string :=
  nth (index mod length pool) pool EmptyString.

Definition generate_meaningful_filler (question answer : string) (index : nat)
  : string :=
  let question_lower := lower question in
  if startswith "who" question_lower then pick people index
  else if contains "capital" question_lower then pick capitals index
  else if contains_any [ "year"; "when"; "date" ] question_lower then pick years index
  else pick generic index.

(** The [for opt in options] loop that looks for a case-insensitive match:
    [Some opt] at the [break], [None] when the loop runs to its [else]. *)
Fixpoint match_case (answer_lower : string) (items : list json)
  : outcome (option string) :=
  match items with
  | [] => Returns None
  | JStr opt :: rest =>
      if String.eqb (lower opt) answer_lower then Returns (Some opt)
      else match_case answer_lower rest
  | _ :: _ => Raises AttributeError
  end.

(** "Ensure answer is in options".  In the [else] branch [options[0]] is a
    string: the loop before it raised on the first item that is not one. *)
Definition resolve_answer (answer : string) (options : json) : outcome string :=
  present <- str_in answer options ;;
  if present then Returns answer
  else
    items <- py_iter options ;;
    found <- match_case (lower answer) items ;;
    match found with
    | Some opt => Returns opt
    | None =>
        first <- first_item options ;;
        match first with
        | JStr s => Returns s
        | _ => Raises AttributeError
        end
    end.

(** "Clean options - remove vague ones": the loop over the raw options,
    with the set [seen] and the list [cleaned_options] it updates. *)
Fixpoint clean_options (items : list json) (seen cleaned_options : list string)
  : list string * list string :=
  match items with
  | [] => (seen, cleaned_options)
  | opt :: rest =>
      let opt_str := strip (py_str opt) in
      if is_empty opt_str then clean_options rest seen cleaned_options
      else
        let opt_lower := lower opt_str in
        if contains_any vague_terms opt_lower
        then clean_options rest seen cleaned_options
        else if mem opt_lower seen
        then clean_options rest seen cleaned_options
        else clean_options rest (opt_lower :: seen) (cleaned_options ++ [opt_str])%list
  end.

(** "Ensure we have 4 quality options": the [while] loop, one iteration per
    unit of fuel. *)
Fixpoint fill_options (fuel : nat) (question answer : string)
    (seen cleaned_options : list string) : outcome (list string) :=
  if (length cleaned_options <? 4)%nat then
    match fuel with
    | O => OutOfFuel
    | S fuel' =>
        let filler :=
          generate_meaningful_filler question answer (length cleaned_options) in
        let filler_lower := lower filler in
        if negb (mem filler_lower seen)
        then fill_options fuel' question answer
               (filler_lower :: seen) (cleaned_options ++ [filler])%list
        else fill_options fuel' question answer seen cleaned_options
    end
  else Returns cleaned_options.

Definition canonical_difficulty (d : string) : bool :=
  mem d [ "easy"; "medium"; "hard" ].

Definition derive_difficulty (question answer difficulty : string) : string :=
  if negb (canonical_difficulty difficulty) then
    let total_words := (length (split question) + length (split answer))%nat in
    if (total_words <? 20)%nat then "easy"
    else if (total_words <? 40)%nat then "medium"
    else "hard"
  else difficulty.

Definition validate_mcq (fuel : nat) (mcq : json) : outcome (option MCQ) :=
  match mcq with
  | JObj ((_ :: _) as fields) =>
      question <- get_stripped "question" EmptyString fields ;;
      answer <- get_stripped "answer" EmptyString fields ;;
      let options :=
        match lookup "options" fields with Some v => v | None => JArr [] end in
      difficulty <- get_stripped "difficulty" "medium" fields ;;
      let difficulty := lower difficulty in
      if is_empty question || is_empty answer || negb (truthy options)
      then Returns None
      else
        n <- py_len options ;;
        if (n <? 4)%nat then Returns None
        else
          answer <- resolve_answer answer options ;;
          items <- py_iter options ;;
          let '(seen, cleaned_options) := clean_options items [] [] in
          cleaned_options <- fill_options fuel question answer seen cleaned_options ;;
          let answer :=
            if negb (mem answer cleaned_options) then hd EmptyString cleaned_options
            else answer in
          Returns (Some {| question := question;
                           answer := answer;
                           options := firstn 4 cleaned_options;
                           difficulty := derive_difficulty question answer difficulty |})
  | _ => Returns None
  end.

(** A well-typed raw MCQ, as the prompt asks the model for it. *)
Definition raw_mcq (q a : string) (opts : list string) (d : string) : json :=
  JObj [ ("question", JStr q); ("answer", JStr a);
         ("options", JArr (map JStr opts)); ("difficulty", JStr d) ].

(** The dictionary [validate_mcq] returns, as a decoded value. *)
Definition mcq_json (m : MCQ) : json :=
  raw_mcq (question m) (answer m) (options m) (difficulty m).

(* ------------------------------------------------------------------ *)
(** ** The fallback generator *)

Definition sentence_end (c : ascii) : bool :=
  Ascii.eqb c "."%char || Ascii.eqb c "!"%char || Ascii.eqb c "?"%char.

(** [[s.strip() for s in re.split(r'[.!?]', text) if len(s.strip()) > 20]] *)
Definition sentences_of (text : string) : list string :=
  map strip
    (filter (fun s => (20 <? String.length (strip s))%nat)
            (split_on sentence_end text)).

Definition fallback_mcq (sentences : list string) (i : nat) : MCQ :=
  let sentence := nth i sentences EmptyString in
  let sentence :=
    if (100 <? String.length sentence)%nat then take 100 sentence ++ "..."
    else sentence in
  {| question := "What is the main idea of: '" ++ sentence ++ "'?";
     answer := nth i sentences EmptyString;
     options := [ nth i sentences EmptyString;
                  "A different concept from the text";
                  "An alternative interpretation";
                  "Related information" ];
     difficulty := "medium" |}.

(** [range(n)] for a Python integer [n] *)
Definition py_range (n : Z) : list nat := seq 0 (Z.to_nat n).

Definition generate_fallback_mcqs (text : string) (max_questions : Z) : list MCQ :=
  let sentences := sentences_of text in
  let mcqs :=
    map (fallback_mcq sentences)
        (py_range (Z.min max_questions (Z.of_nat (length sentences)))) in
  py_take max_questions mcqs.

(* ------------------------------------------------------------------ *)
(** ** Response sanitizers *)

(** [\s*\]] at the start of [s]: the text it consumes. *)
Fixpoint match_close (s : string) : option string :=
  match s with
  | EmptyString => None
  | String c t =>
      if Ascii.eqb c "]"%char then Some (String c EmptyString)
      else if is_space c then option_map (String c) (match_close t)
      else None
  end.

(** [.*?\}\s*\]] at the start of [s], the lazy [.*?] as short as possible. *)
Fixpoint match_body (s : string) : option string :=
  match s with
  | EmptyString => None
  | String c t =>
      match (if Ascii.eqb c "}"%char then match_close t else None) with
      | Some m => Some (String c m)
      | None => option_map (String c) (match_body t)
      end
  end.

(** [\s*\{.*?\}\s*\]] at the start of [s]. *)
Fixpoint match_open (s : string) : option string :=
  match s with
  | EmptyString => None
  | String c t =>
      if Ascii.eqb c "{"%char then option_map (String c) (match_body t)
      else if is_space c then option_map (String c) (match_open t)
      else None
  end.

(** [re.search(r'\[\s*\{.*?\}\s*\]', s, re.DOTALL)]: the leftmost match. *)
Fixpoint search_json_array (s : string) : option string :=
  match s with
  | EmptyString => None
  | String c t =>
      match (if Ascii.eqb c "["%char then match_open t else None) with
      | Some m => Some (String c m)
      | None => search_json_array t
      end
  end.

Definition clean_json_response (raw_output : string) : string :=
  let raw_output :=
    if startswith "```json" raw_output then drop 7 raw_output
    else if startswith "```" raw_output then drop 3 raw_output
    else raw_output in
  let raw_output :=
    if endswith "```" raw_output then drop_last 3 raw_output else raw_output in
  let raw_output := strip raw_output in
  match search_json_array raw_output with
  | Some json_match => json_match
  | None => raw_output
  end.

Definition is_letter (c : ascii) : bool :=
  let n := nat_of_ascii c in
  (((65 <=? n) && (n <=? 90)) || ((97 <=? n) && (n <=? 122)))%nat.

Fixpoint drop_letters (s : string) : string :=
  match s with
  | EmptyString => EmptyString
  | String c t => if is_letter c then drop_letters t else s
  end.

(** [re.sub(r"\s+", " ", s)]: [in_run] tells that the previous character
    was a space, already replaced. *)
Fixpoint collapse_from (in_run : bool) (s : string) : string :=
  match s with
  | EmptyString => EmptyString
  | String c t =>
      if is_space c then
        if in_run then collapse_from true t
        else String " "%char (collapse_from true t)
      else String c (collapse_from false t)
  end.

Definition collapse_spaces (s : string) : string := collapse_from false s.

Definition quoted (s : string) : bool :=
  let q := String quote2 EmptyString in
  startswith q s && endswith q s && (1 <? String.length s)%nat.

Definition _sanitize_plain_text_script (raw_text : option string) : string :=
  match raw_text with
  | None => EmptyString
  | Some raw_text =>
      if is_empty raw_text then EmptyString
      else
        let text := strip raw_text in
        let text :=
          if startswith "```" text then
            (* the fence and the letters after it are removed, then .strip() *)
            let text := strip (drop_letters (drop 3 text)) in
            if endswith "```" text then strip (drop_last 3 text) else text
          else text in
        let text :=
          if quoted text then strip (drop_last 1 (drop 1 text)) else text in
        collapse_spaces text
  end.

Definition _build_fallback_short_script (topic : string) : string :=
  let safe_topic := if is_empty topic then "this topic" else topic in
  "Error: Unable to generate a Quillium Shorts narration for '" ++ safe_topic
  ++ "' right now." ++ " Please try again in a moment.".

(* ------------------------------------------------------------------ *)
(** ** The runtime the module calls into *)

(** The three prompts the module builds; the text sent is a function of
    these parameters ([_construct_shorts_prompt] for the third). *)
Inductive Prompt : Type :=
| McqPrompt (text : string) (max_questions : Z)
| TranslationPrompt (mcq : json) (target_lang : string)
| ShortsPrompt (topic : string) (strict : bool).

(** One [model.generate_content] call; the temperature is in hundredths. *)
Record Request : Type := mkRequest {
  prompt : Prompt;
  temperature : nat;
  max_output_tokens : nat
}.

(** An external call returns a value or raises. *)
Inductive reply (A : Type) : Type :=
| Ok (a : A)
| Fail (e : exn).

Arguments Ok {A} a.
Arguments Fail {A} e.

Definition outcome_of {A : Type} (r : reply A) : outcome A :=
  match r with
  | Ok a => Returns a
  | Fail e => Raises e
  end.

(** What lies outside the module: the credential read at import time, the
    provider ([genai.configure] and the model object, then
    [generate_content(...).text], which can be [None]) and [json.loads]
    ([None] for a [JSONDecodeError]). *)
Class Runtime : Type := {
  World : Type;
  GEMINI_API_KEY : option string;
  configure : string -> World -> reply unit * World;
  generate_content : Request -> World -> reply (option string) * World;
  json_loads : string -> option json
}.

Section Pipeline.

Context {R : Runtime}.

(** The provider's state and the requests issued so far. *)
Record PState : Type := mkPState {
  world : World;
  issued : list Request
}.

Definition M (A : Type) : Type := PState -> outcome A * PState.

Definition ret {A : Type} (a : A) : M A := fun st => (Returns a, st).

Definition bindM {A B : Type} (m : M A) (k : A -> M B) : M B :=
  fun st =>
    match m st with
    | (Returns a, st') => k a st'
    | (Raises e, st') => (Raises e, st')
    | (OutOfFuel, st') => (OutOfFuel, st')
    end.

Definition lift {A : Type} (o : outcome A) : M A := fun st => (o, st).

Definition tryM {A : Type} (body : M A) (handler : exn -> M A) : M A :=
  fun st =>
    match body st with
    | (Raises e, st') => handler e st'
    | other => other
    end.

Definition call_configure (api_key : string) : M unit :=
  fun st =>
    let (r, w) := configure api_key (world st) in
    (outcome_of r, {| world := w; issued := issued st |}).

Definition call_generate (req : Request) : M (option string) :=
  fun st =>
    let (r, w) := generate_content req (world st) in
    (outcome_of r, {| world := w; issued := (issued st ++ [req])%list |}).

End Pipeline.

Notation "x <~ m ;; k" := (bindM m (fun x => k))
  (at level 61, m at next level, right associativity).

(** [response.text.strip()] *)
Definition text_strip (text : option string) : outcome string :=
  match text with
  | Some s => Returns (strip s)
  | None => Raises AttributeError
  end.

(** [v[key]] for a string key *)
Definition subscript (key : string) (v : json) : outcome json :=
  match v with
  | JObj fields =>
      match lookup key fields with
      | Some x => Returns x
      | None => Raises KeyError
      end
  | _ => Raises TypeError
  end.

Definition slice_str (n : Z) (s : string) : string :=
  string_of_list_ascii (py_take n (list_ascii_of_string s)).

(** [v[:n]] *)
Definition py_slice_to (n : Z) (v : json) : outcome json :=
  match v with
  | JStr s => Returns (JStr (slice_str n s))
  | JArr items => Returns (JArr (py_take n items))
  | _ => Raises TypeError
  end.

(** [v.lower()] *)
Definition py_lower (v : json) : outcome string :=
  match v with
  | JStr s => Returns (lower s)
  | _ => Raises AttributeError
  end.

(** [all(k in v for k in keys)] *)
Fixpoint all_in (keys : list string) (v : json) : outcome bool :=
  match keys with
  | [] => Returns true
  | k :: rest =>
      present <- str_in k v ;;
      if present then all_in rest v else Returns false
  end.

(** [l[0]] *)
Definition first_of (l : list json) : outcome json :=
  match l with
  | x :: _ => Returns x
  | [] => Raises IndexError
  end.

Definition is_nil {A : Type} (l : list A) : bool :=
  match l with [] => true | _ => false end.

(* ------------------------------------------------------------------ *)
(** ** The English generator *)

(** "Validate each MCQ": the loop over the sliced array. *)
Fixpoint validate_each (fuel : nat) (items : list json) (validated_mcqs : list MCQ)
  : outcome (list MCQ) :=
  match items with
  | [] => Returns validated_mcqs
  | mcq :: rest =>
      validated <- validate_mcq fuel mcq ;;
      match validated with
      | Some m => validate_each fuel rest (validated_mcqs ++ [m])%list
      | None => validate_each fuel rest validated_mcqs
      end
  end.

Section Generators.

Context {R : Runtime}.

Definition mcq_request (text : string) (max_questions : Z) : Request :=
  {| prompt := McqPrompt text max_questions;
     temperature := 30; max_output_tokens := 4000 |}.

Definition generate_english_mcqs (fuel : nat) (text : string) (max_questions : Z)
    (api_key : string) : M (list MCQ) :=
  tryM
    (_ <~ call_configure api_key ;;
     response <~ call_generate (mcq_request text max_questions) ;;
     raw_output <~ lift (text_strip response) ;;
     let raw_output := clean_json_response raw_output in
     match json_loads raw_output with
     | None => ret []
     | Some mcqs =>
         lift (head <- py_slice_to max_questions mcqs ;;
               items <- py_iter head ;;
               validate_each fuel items [])
     end)
    (fun _ => ret []).

(* ------------------------------------------------------------------ *)
(** ** The translator *)

Definition translation_request (mcq : json) (target_lang : string) : Request :=
  {| prompt := TranslationPrompt mcq target_lang;
     temperature := 20; max_output_tokens := 1000 |}.

(** The body of the translation loop: the value appended for one MCQ. *)
Definition translate_one (mcq : json) (target_lang : string) : M json :=
  tryM
    (_ <~ lift (q <- subscript "question" mcq ;; py_slice_to 60 q) ;;
     response <~ call_generate (translation_request mcq target_lang) ;;
     raw_output <~ lift (text_strip response) ;;
     let raw_output := clean_json_response raw_output in
     match json_loads raw_output with
     | None => ret mcq
     | Some translated_mcq =>
         complete <~ lift (all_in [ "question"; "answer"; "options" ] translated_mcq) ;;
         if complete then
           orig_q <~ lift (q <- subscript "question" mcq ;; py_lower q) ;;
           trans_q <~ lift (q <- subscript "question" translated_mcq ;; py_lower q) ;;
           if negb (String.eqb orig_q trans_q) then ret translated_mcq
           else ret mcq
         else ret mcq
     end)
    (fun _ => ret mcq).

Fixpoint translate_each (mcqs : list json) (target_lang : string)
    (translated_mcqs : list json) : M (list json) :=
  match mcqs with
  | [] => ret translated_mcqs
  | mcq :: rest =>
      t <~ translate_one mcq target_lang ;;
      translate_each rest target_lang (translated_mcqs ++ [t])%list
  end.

Definition translate_mcqs_to_language (english_mcqs : list json)
    (target_lang api_key : string) : M (list json) :=
  if String.eqb (lower target_lang) "english" || is_nil english_mcqs
  then ret english_mcqs
  else
    tryM
      (_ <~ call_configure api_key ;;
       translated_mcqs <~ translate_each english_mcqs target_lang [] ;;
       (* "Verify at least some translations happened" *)
       orig_first <~ lift (m <- first_of english_mcqs ;; subscript "question" m) ;;
       trans_first <~ lift (m <- first_of translated_mcqs ;; subscript "question" m) ;;
       orig_lower <~ lift (py_lower orig_first) ;;
       trans_lower <~ lift (py_lower trans_first) ;;
       ret translated_mcqs)
      (fun _ => ret english_mcqs).

(* ------------------------------------------------------------------ *)
(** ** The orchestrator *)

Definition prepare_text (text : string) : string :=
  if (6000 <? String.length text)%nat
  then take 6000 text ++ "... [text truncated]"
  else text.

Definition fallback_result (text : string) (max_questions : Z) : list json :=
  map mcq_json (generate_fallback_mcqs text max_questions).

(** The credential when it is set to a non-empty value. *)
Definition configured_key : option string :=
  match GEMINI_API_KEY with
  | Some k => if is_empty k then None else Some k
  | None => None
  end.

Definition make_mcqs (fuel : nat) (text language : string) (max_questions : Z)
  : M (list json) :=
  let text := strip text in
  if (String.length text <? 50)%nat then ret []
  else
    let text := prepare_text text in
    match configured_key with
    | None => ret (fallback_result text max_questions)
    | Some api_key =>
        tryM
          (english_mcqs <~ generate_english_mcqs fuel text max_questions api_key ;;
           match english_mcqs with
           | [] => ret (fallback_result text max_questions)
           | first :: _ =>
               if String.eqb (lower language) "english"
               then ret (py_take max_questions (map mcq_json english_mcqs))
               else
                 translated_mcqs <~
                   translate_mcqs_to_language (map mcq_json english_mcqs)
                     language api_key ;;
                 if negb (is_nil translated_mcqs) then
                   (* "Verify translation actually happened" *)
                   _ <~ lift (m <- first_of translated_mcqs ;;
                              q <- subscript "question" m ;;
                              if negb (is_str (question first) q)
                              then py_slice_to 60 q else Returns q) ;;
                   ret (py_take max_questions translated_mcqs)
                 else ret (py_take max_questions (map mcq_json english_mcqs))
           end)
          (fun _ => ret (fallback_result text max_questions))
    end.

(* ------------------------------------------------------------------ *)
(** ** The short-script generator *)

Definition banned_phrases : list string :=
  [ "calm reminder"; "picture"; "picture this"; "why it matters";
    "take a breath"; "walking beside you"; "imagine"; "remember";
    "calm"; "reminder" ].

Definition shorts_request (topic : string) (strict : bool) : Request :=
  {| prompt := ShortsPrompt topic strict;
     temperature := if strict then 25 else 35;
     max_output_tokens := 640 |}.

(** The acceptance test on a sanitized script. *)
Definition script_accepted (normalized_topic script : string) : bool :=
  let lowered := lower script in
  let words := split script in
  let contains_topic := contains (lower normalized_topic) lowered in
  let within_length := ((120 <=? length words) && (length words <=? 180))%nat in
  let has_banned := contains_any banned_phrases lowered in
  contains_topic && within_length && negb has_banned.

(** One pass through the body of the [while] loop: [Some script] when the
    body returns the script, [None] when it is rejected. *)
Definition shorts_attempt (normalized_topic : string) (strict_mode : bool)
  : M (option string) :=
  response <~ call_generate (shorts_request normalized_topic strict_mode) ;;
  let script := _sanitize_plain_text_script response in
  if is_empty script then ret None
  else if script_accepted normalized_topic script then ret (Some script)
  else ret None.

Equations? shorts_loop (normalized_topic error_message : string)
    (strict_mode : bool) (attempts : nat) (st : PState)
  : outcome string * PState by wf (2 - attempts) lt :=
  shorts_loop normalized_topic error_message strict_mode attempts st
    with lt_dec attempts 2 => {
    | right _ => ret error_message st
    | left Hlt =>
        (result <~ shorts_attempt normalized_topic strict_mode ;;
         match result with
         | Some script => ret script
         | None =>
             if strict_mode then ret error_message
             else fun st' =>
                    shorts_loop normalized_topic error_message true (S attempts) st'
         end) st }.
Proof. destruct attempts as [|[|k]]; lia. Qed.

Definition generate_short_form_script (topic : string) : M string :=
  let normalized_topic := if is_empty topic then EmptyString else strip topic in
  if is_empty normalized_topic then lift (Raises ValueError)
  else
    let error_message := _build_fallback_short_script normalized_topic in
    match configured_key with
    | None => ret error_message
    | Some api_key =>
        tryM
          (_ <~ call_configure api_key ;;
           shorts_loop normalized_topic error_message false 0)
          (fun _ => ret error_message)
    end.

End Generators.

(* ------------------------------------------------------------------ *)
(** ** Inputs used in the examples *)

(** Five distinct options, the answer being the last one. *)
Definition late_answer_mcq : json :=
  raw_mcq "Which letter comes last?" "E" [ "A"; "B"; "C"; "D"; "E" ] "easy".

(** A "who" question with two usable options and two vague ones. *)
Definition stuck_mcq : json :=
  raw_mcq "Who proposed the imitation game?" "Alan Turing"
    [ "Alan Turing"; "Marie Curie"; "Someone else"; "Not this person" ] "easy".

(** Two usable options, a duplicate up to case and a vague one. *)
Definition padded_mcq : json :=
  raw_mcq "What did Turing propose in 1950?" "the imitation game"
    [ "The imitation game"; " the halting problem "; "THE IMITATION GAME";
      "A wrong answer" ] "Simple".

(** The same MCQ with a space before one option, and with an empty option. *)
Definition untrimmed_mcq : MCQ :=
  {| question := "What is two plus two?"; answer := "4";
     options := [ "4"; " 5"; "6"; "7" ]; difficulty := "easy" |}.

Definition blank_option_mcq : MCQ :=
  {| question := "What is two plus two?"; answer := "4";
     options := [ "4"; EmptyString; "6"; "7" ]; difficulty := "easy" |}.

Definition tidy_mcq : MCQ :=
  {| question := "What is two plus two?"; answer := "4";
     options := [ "3"; "4"; "Five"; "6" ]; difficulty := "hard" |}.

(* ------------------------------------------------------------------ *)
(** ** The data model, in the words of the specification *)

Definition trimmed (s : string) : Prop := strip s = s.

(** The invariants the idempotence property lists for an already-valid
    MCQ: trimmed non-empty question and answer, exactly four options
    distinct up to case and free of denylisted phrases, the answer equal to
    one option, a canonical difficulty. *)
Record data_model_valid (m : MCQ) : Prop := {
  dm_question : trimmed (question m) /\ question m <> EmptyString;
  dm_answer : trimmed (answer m) /\ answer m <> EmptyString;
  dm_four : length (options m) = 4;
  dm_distinct : NoDup (map lower (options m));
  dm_denylist :
    Forall (fun o => contains_any vague_terms (lower o) = false) (options m);
  dm_member : In (answer m) (options m);
  dm_difficulty : In (difficulty m) [ "easy"; "medium"; "hard" ]
}.

(** What the validator's own output satisfies in addition: every option is
    trimmed and non-empty. *)
Definition options_trimmed (m : MCQ) : Prop :=
  Forall (fun o => trimmed o /\ o <> EmptyString) (options m).

(* ------------------------------------------------------------------ *)
(** ** The fallback generator, in the words of the specification *)

(** The pieces between [.], [!] and [?] that are longer than 20 characters,
    as the text is split. *)
Definition spec_fragments (text : string) : list string :=
  filter (fun s => (20 <? String.length s)%nat) (split_on sentence_end text).

Definition fixed_distractors : list string :=
  [ "A different concept from the text"; "An alternative interpretation";
    "Related information" ].

(** The result has [min(max_questions, N)] MCQs (none for a negative
    bound), the i-th one answering with the i-th fragment, which is also
    its first option, followed by the three fixed phrases. *)
Definition fallback_matches (fragments : list string) (max_questions : Z)
    (mcqs : list MCQ) : Prop :=
  Z.of_nat (length mcqs)
  = Z.max 0 (Z.min max_questions (Z.of_nat (length fragments)))
  /\ forall i m,
       nth_error mcqs i = Some m ->
       exists fragment,
         nth_error fragments i = Some fragment
         /\ answer m = fragment
         /\ options m = fragment :: fixed_distractors.

(** Two sentences, the second one 19 characters long after two spaces. *)
Definition two_sentences : string :=
  "Alan Turing proposed the imitation game.  He was born in 1912.".

(* ------------------------------------------------------------------ *)
(** ** The pipeline, in the words of the specification *)

Section Replies.

Context {R : Runtime}.

(** The provider's replies to requests issued one after the other. *)
Fixpoint replies_to (reqs : list Request) (w : World)
  : list (reply (option string)) :=
  match reqs with
  | [] => []
  | req :: rest =>
      let (r, w') := generate_content req w in r :: replies_to rest w'
  end.

(** The provider's state after these requests. *)
Fixpoint world_after (reqs : list Request) (w : World) : World :=
  match reqs with
  | [] => w
  | req :: rest => world_after rest (snd (generate_content req w))
  end.

(** The value a reply parses to, when it is a text that parses. *)
Definition decoded (r : reply (option string)) : option json :=
  match r with
  | Ok (Some text) => json_loads (clean_json_response (strip text))
  | _ => None
  end.

End Replies.

(** The requests the translator issues for a list of English MCQs. *)
Definition translation_requests (english : list MCQ) (target_lang : string)
  : list Request :=
  map (fun m => translation_request (mcq_json m) target_lang) english.

(** A parsed translation the translator takes: it has the three keys and
    its question is a text that differs from the original when both are
    compared in lowercase. *)
Definition translation_taken (original : MCQ) (t : json) : Prop :=
  all_in [ "question"; "answer"; "options" ] t = Returns true
  /\ exists q, subscript "question" t = Returns (JStr q)
              /\ lower q <> lower (question original).

(** What one slot of the translator's output is, given the reply to that
    MCQ's request: the original MCQ or the parsed translation, the latter
    exactly when it is taken. *)
Definition slot_of {R : Runtime} (pair : MCQ * reply (option string)) (o : json)
  : Prop :=
  let (m, r) := pair in
  (o = mcq_json m
   \/ exists t, decoded r = Some t /\ translation_taken m t /\ o = t)
  /\ (forall t, decoded r = Some t -> translation_taken m t -> o = t).

(** A script the short-script generator may return: it contains the topic
    when both are lowercased, has 120 to 180 words, and its lowercase form
    contains no banned phrase. *)
Definition script_ok (topic script : string) : Prop :=
  contains (lower topic) (lower script) = true
  /\ 120 <= length (split script) <= 180
  /\ contains_any banned_phrases (lower script) = false.

(** The records the validator accepts among [items], in order. *)
Definition accepted_outputs (fuel : nat) (items : list json) : list MCQ :=
  flat_map (fun x => match validate_mcq fuel x with
                     | Returns (Some m) => [m]
                     | _ => []
                     end) items.

(* ------------------------------------------------------------------ *)
(** ** Runtimes used in the examples *)

(** A raw MCQ with two options only: the validator rejects it. *)
Definition short_option_mcq : json :=
  raw_mcq "Which planet is red?" "Mars" [ "Mars"; "Venus" ] "easy".

(** One rejected element followed by six acceptable ones. *)
Definition demo_array : list json :=
  short_option_mcq :: repeat (mcq_json tidy_mcq) 6.

Definition demo_translation : json :=
  raw_mcq "Cuanto es dos mas dos?" "4" [ "3"; "4"; "Cinco"; "6" ] "hard".

(** 120 words, each of them the topic. *)
Definition demo_script : string := join " " (repeat "loops" 120).

Definition json_escape_char (c : ascii) : string :=
  if Ascii.eqb c quote2 || Ascii.eqb c "\"%char
  then String "\"%char (String c EmptyString)
  else String c EmptyString.

Fixpoint json_escape (s : string) : string :=
  match s with
  | EmptyString => EmptyString
  | String c t => json_escape_char c ++ json_escape t
  end.

Definition json_quote (s : string) : string :=
  String quote2 (json_escape s ++ String quote2 EmptyString).

(** A JSON text for a value whose strings have no control characters. *)
Fixpoint json_text (v : json) : string :=
  match v with
  | JNull => "null"
  | JBool true => "true"
  | JBool false => "false"
  | JInt z => string_of_Z z
  | JFloat _ shown => shown
  | JStr s => json_quote s
  | JArr items => "[" ++ join ", " (map json_text items) ++ "]"
  | JObj fields =>
      "{" ++ join ", " (map (fun '(k, x) => json_quote k ++ ": " ++ json_text x) fields)
      ++ "}"
  end.

(** [json.loads] on the texts of the values in [known]; any other text is
    taken as undecodable. *)
Definition loads_known (known : list json) (s : string) : option json :=
  find (fun v => String.eqb (json_text v) s) known.

(** A provider that answers an MCQ request with the text of [demo_array],
    every other translation request with the text of [demo_translation]
    (the others fail), and a script request with a script that is good in
    strict mode only; the state counts the calls. *)
Definition demo_runtime : Runtime :=
  {| World := nat;
     GEMINI_API_KEY := Some "key";
     configure := fun _ w => (Ok tt, w);
     generate_content := fun req w =>
       (match prompt req with
        | McqPrompt _ _ => Ok (Some (json_text (JArr demo_array)))
        | TranslationPrompt _ _ =>
            if Nat.even w then Ok (Some (json_text demo_translation))
            else Fail ProviderError
        | ShortsPrompt _ strict =>
            Ok (Some (if strict then demo_script else "loops repeat"))
        end, S w);
     json_loads := loads_known [ JArr demo_array; demo_translation ] |}.

(** An array whose second element has a number where the answer should
    be, and a provider whose reply parses to it. *)
Definition mistyped_mcq : json :=
  JObj [ ("question", JStr "What is two plus two?"); ("answer", JInt 4);
         ("options", JArr [ JInt 3; JInt 4; JInt 5; JInt 6 ]);
         ("difficulty", JStr "easy") ].

Definition mistyped_array : json := JArr [ mcq_json tidy_mcq; mistyped_mcq ].

Definition mistyped_runtime : Runtime :=
  {| World := unit;
     GEMINI_API_KEY := Some "key";
     configure := fun _ w => (Ok tt, w);
     generate_content := fun _ w => (Ok (Some (json_text mistyped_array)), w);
     json_loads := loads_known [ mistyped_array ] |}.

(** A provider whose reply parses to the given value. *)
Definition array_runtime (array : json) : Runtime :=
  {| World := unit;
     GEMINI_API_KEY := Some "key";
     configure := fun _ w => (Ok tt, w);
     generate_content := fun _ w => (Ok (Some (json_text array)), w);
     json_loads := loads_known [ array ] |}.

(** No credential: the provider is never reached. *)
Definition offline_runtime : Runtime :=
  {| World := unit;
     GEMINI_API_KEY := None;
     configure := fun _ w => (Fail ProviderError, w);
     generate_content := fun _ w => (Fail ProviderError, w);
     json_loads := fun _ => None |}.

(** Sixty-five characters, no sentence longer than four. *)
Definition choppy_text : string :=
  "Red. Green. Blue. Cyan. Pink. Gold. Gray. Teal. Navy. Lime. Plum.".

(* ------------------------------------------------------------------ *)
(** ** Invariants and proof tools *)

(** What the denylist property asks of one option. *)
Definition option_ok (o : string) : Prop :=
  o <> EmptyString /\ contains_any vague_terms (lower o) = false.

Definition option_okb (o : string) : bool :=
  negb (is_empty o) && negb (contains_any vague_terms (lower o)).

(** The invariant of both loops: the options kept so far are acceptable,
    distinct up to case, and recorded in [seen]. *)
Definition clean_inv (seen cleaned_options : list string) : Prop :=
  Forall option_ok cleaned_options
  /\ NoDup (map lower cleaned_options)
  /\ (forall o, In o cleaned_options -> In (lower o) seen).

(** A computation whose outcome is never [OutOfFuel]: it returns or
    raises. *)
Definition fuel_free {R : Runtime} {A : Type} (m : M A) : Prop :=
  forall st, fst (m st) <> OutOfFuel.

(** Case analysis on a run of binds that ends in a given outcome. *)
Ltac split_outcome H :=
  repeat
    (unfold bind in H;
     match type of H with
     | (match ?x with _ => _ end) = _ =>
         let E := fresh "E" in destruct x eqn:E; try discriminate H
     | (if ?b then _ else _) = _ =>
         let E := fresh "E" in destruct b eqn:E; try discriminate H
     end).

(* ------------------------------------------------------------------ *)
(** ** Further notions used in the statements *)

(** The field [key] is absent or holds a string. *)
Definition text_field (key : string) (fields : list (string * json)) : Prop :=
  match lookup key fields with
  | Some (JStr _) => True
  | Some _ => False
  | None => True
  end.

(** The text of the field [key], [default] when it is absent. *)
Definition field_text (key default : string) (fields : list (string * json))
  : string :=
  match lookup key fields with
  | Some (JStr s) => s
  | _ => default
  end.

(** [mcq.get("options", [])] *)
Definition raw_options (fields : list (string * json)) : json :=
  match lookup "options" fields with
  | Some v => v
  | None => JArr []
  end.

(** [l1] is [l2] with some elements left out, the order kept. *)
Inductive subseq {A : Type} : list A -> list A -> Prop :=
| subseq_nil : subseq [] []
| subseq_skip (x : A) (l1 l2 : list A) : subseq l1 l2 -> subseq l1 (x :: l2)
| subseq_keep (x : A) (l1 l2 : list A) : subseq l1 l2 -> subseq (x :: l1) (x :: l2).

(** The pool [generate_meaningful_filler] draws from for a question. *)
Definition pool_of (question : string) : list string :=
  let question_lower := lower question in
  if startswith "who" question_lower then people
  else if contains "capital" question_lower then capitals
  else if contains_any [ "year"; "when"; "date" ] question_lower then years
  else generic.

Definition filler_pools : list (list string) := [ people; capitals; years; generic ].

(** [part] occurs in [whole]. *)
Definition within (part whole : string) : Prop :=
  exists pre post, whole = pre ++ part ++ post.

(** Whitespace only. *)
Definition blank (s : string) : Prop := lstrip s = EmptyString.

(** The shape the pattern of [clean_json_response] looks for: a bracket,
    a brace, any text, a closing brace and a closing bracket, with optional
    whitespace after the first and before the last. *)
Definition array_shaped (m : string) : Prop :=
  exists ws body ws',
    blank ws /\ blank ws'
    /\ m = "[" ++ ws ++ "{" ++ body ++ "}" ++ ws' ++ "]".

(** The text of a reply once its code fence is removed: the first two steps
    of [clean_json_response]. *)
Definition unfence (raw_output : string) : string :=
  let raw_output :=
    if startswith "```json" raw_output then drop 7 raw_output
    else if startswith "```" raw_output then drop 3 raw_output
    else raw_output in
  if endswith "```" raw_output then drop_last 3 raw_output else raw_output.

(** Replies used in the examples below. *)
Definition fenced_reply : string :=
  "```json" ++ " [ {x} , {y} ] " ++ "```".

Definition prose_reply : string := "  I cannot answer that.  ".

(** A text in which runs of whitespace are single spaces, with none at
    either end: [after_space] tells that the previous character was a
    space, or that the text starts here. *)
Fixpoint spaced_from (after_space : bool) (s : string) : bool :=
  match s with
  | EmptyString => negb after_space
  | String c t =>
      if is_space c
      then Ascii.eqb c " "%char && negb after_space && spaced_from true t
      else spaced_from false t
  end.

Definition single_spaced (s : string) : bool :=
  is_empty s || spaced_from true s.

(** A text with one long sentence, for the fallback generator. *)
Definition turing_text : string :=
  "Alan Turing proposed the imitation game in 1950. It is a test!".

(** Raw MCQs used in the examples below. *)
Definition three_option_mcq : json :=
  raw_mcq "Which planet is red?" "Mars" [ "Mars"; "Venus"; "Earth" ] "easy".

Definition blank_question_mcq : json :=
  JObj [ ("question", JStr "   "); ("answer", JStr "Mars");
         ("options", JArr [ JStr "Mars"; JStr "Venus"; JStr "Earth"; JStr "Pluto" ]) ].

Definition null_difficulty_mcq : json :=
  JObj [ ("question", JStr "Which planet is red?"); ("answer", JStr "Mars");
         ("options", JArr [ JStr "Mars"; JStr "Venus"; JStr "Earth"; JStr "Pluto" ]);
         ("difficulty", JNull) ].

(** What the validator makes of [repaired_mcq] below. *)
Definition repaired_result : MCQ :=
  {| question := "Which planet is red?"; answer := "MARS";
     options := [ "Venus"; "MARS"; "Earth"; "A similar but distinct element" ];
     difficulty := "easy" |}.

(** Four raw options, one of them vague, the answer in another casing. *)
Definition repaired_mcq : json :=
  raw_mcq " Which planet is red? " "mars"
    [ "Venus"; "MARS"; "Not this planet"; "Earth" ] "tricky".

(* ------------------------------------------------------------------ *)
(** ** Flashcards *)

(** The loop of [make_flashcards]: one card per MCQ, from [mcq["question"]]
    and [mcq["answer"]]. *)
Fixpoint flashcards_from (mcqs flashcards : list json) : outcome (list json) :=
  match mcqs with
  | [] => Returns flashcards
  | mcq :: rest =>
      q <- subscript "question" mcq ;;
      a <- subscript "answer" mcq ;;
      flashcards_from rest
        (flashcards ++ [ JObj [ ("question", q); ("answer", a) ] ])%list
  end.

Section Flashcards.

Context {R : Runtime}.

Definition make_flashcards (fuel : nat) (text lang : string) (max_cards : Z)
  : M (list json) :=
  mcqs <~ make_mcqs fuel text lang max_cards ;;
  flashcards <~ lift (flashcards_from mcqs []) ;;
  ret (py_take max_cards flashcards).

End Flashcards.

(** A dictionary with the three keys of an MCQ, its question being a
    text. *)
Definition mcq_shaped (v : json) : Prop :=
  exists fields q a opts,
    v = JObj fields
    /\ lookup "question" fields = Some (JStr q)
    /\ lookup "answer" fields = Some a
    /\ lookup "options" fields = Some opts.

(** The flashcard of an MCQ: its question and its answer, nothing else. *)
Definition card_of (mcq card : json) : Prop :=
  exists q a,
    subscript "question" mcq = Returns q
    /\ subscript "answer" mcq = Returns a
    /\ card = JObj [ ("question", q); ("answer", a) ].

(** A record the validator returns for some raw MCQ. *)
Definition validated (fuel : nat) (m : MCQ) : Prop :=
  exists x, validate_mcq fuel x = Returns (Some m).

(** A request for the translation of some MCQ into [target_lang]. *)
Definition translation_of (target_lang : string) (req : Request) : Prop :=
  exists mcq, req = translation_request mcq target_lang.

(** What a run of [make_mcqs] returns and sends. *)
Definition make_mcqs_facts {R : Runtime} (text language : string) (n : Z)
    (st st' : PState) (l : list json) : Prop :=
  Forall mcq_shaped l
  /\ ((0 <= n)%Z -> length l <= Z.to_nat n)
  /\ exists sent,
       issued st' = (issued st ++ sent)%list
       /\ (sent = []
           \/ exists translations,
                sent = mcq_request (prepare_text (strip text)) n :: translations
                /\ Forall (translation_of language) translations
                /\ ((0 <= n)%Z -> length translations <= Z.to_nat n)
                /\ (lower language = "english" -> translations = [])).

(* ------------------------------------------------------------------ *)
(** ** The endpoints of [backend/app/main.py] that call the pipeline *)

(** [d.get(key, default)]: the receiver must be a dictionary. *)
Definition py_get (key : string) (default : json) (v : json) : outcome json :=
  match v with
  | JObj fields =>
      Returns (match lookup key fields with Some x => x | None => default end)
  | _ => Raises AttributeError
  end.

(** The dictionary appended in the flashcard loop of [process_pdf]. *)
Definition flashcard_of (m : json) : outcome json :=
  q <- py_get "question" (JStr EmptyString) m ;;
  a <- py_get "answer" (JStr EmptyString) m ;;
  Returns (JObj [ ("question", q); ("answer", a) ]).

(** The flashcard loop of [process_pdf]; its handler appends the same
    dictionary. *)
Fixpoint build_flashcards (mcqs flashcards : list json) : outcome (list json) :=
  match mcqs with
  | [] => Returns flashcards
  | m :: rest =>
      card <- try_except (flashcard_of m) (fun _ => flashcard_of m) ;;
      build_flashcards rest (flashcards ++ [ card ])%list
  end.

(** [text[:limit] + "..." if len(text) > limit else text] *)
Definition text_preview (limit : nat) (text : string) : string :=
  if (limit <? String.length text)%nat then take limit text ++ "..." else text.

(** The detail of an [HTTPException]: a fixed text,
    [f"Internal server error: {str(e)}"] or [str(e)]. *)
Inductive detail : Type :=
| Message (text : string)
| InternalServerError (e : exn)
| ExceptionText (e : exn).

(** What is raised inside the [try] block of an endpoint. *)
Inductive raised : Type :=
| Http (status_code : nat) (d : detail)
| Exc (e : exn).

Inductive tried (A : Type) : Type :=
| Finished (a : A)
| Threw (r : raised)
| Starved.

Arguments Finished {A} a.
Arguments Threw {A} r.
Arguments Starved {A}.

(** What an endpoint answers: a response, an [HTTPException], or nothing
    when the validator's loop does not end. *)
Inductive http (A : Type) : Type :=
| Responds (a : A)
| HTTPException (status_code : nat) (d : detail)
| Unfinished.

Arguments Responds {A} a.
Arguments HTTPException {A} status_code d.
Arguments Unfinished {A}.

(** The upload: its file name, which can be missing, and the bytes
    [await file.read()] gives. *)
Record UploadFile : Type := mkUploadFile {
  filename : option string;
  read : list Byte.byte
}.

Section Endpoints.

Context {R : Runtime}.

(** [pdf_processor.extract_text_from_pdf] and the response model
    [models.ProcessResponse], whose construction can raise, are not part of
    these two files. *)
Variable extract_text_from_pdf : list Byte.byte -> reply (string * Z).
Variable Response : Type.
Variable ProcessResponse : string -> Z -> list json -> list json -> reply Response.

(** The [try] block of [process_pdf]. *)
Definition process_pdf_body (fuel : nat) (file : UploadFile) (language : string)
    (question_count : Z) (st : PState) : tried Response * PState :=
  if ((question_count <? 5) || (20 <? question_count))%Z then
    (Threw (Http 400 (Message "Question count must be between 5 and 20")), st)
  else
    match filename file with
    | None => (Threw (Exc AttributeError), st)
    | Some name =>
        if negb (endswith ".pdf" name) then
          (Threw (Http 400 (Message "File must be a PDF (.pdf)")), st)
        else
          let contents := read file in
          if (length contents =? 0)%nat then
            (Threw (Http 400 (Message "Uploaded file is empty")), st)
          else if (10 * 1024 * 1024 <? Z.of_nat (length contents))%Z then
            (Threw (Http 400 (Message "File size must be less than 10MB")), st)
          else
            match extract_text_from_pdf contents with
            | Fail e => (Threw (Exc e), st)
            | Ok (text, page_count) =>
                if (String.length text <? 100)%nat then
                  (Threw (Http 400
                            (Message ("PDF doesn't contain enough text. Only found "
                                      ++ string_of_Z (Z.of_nat (String.length text))
                                      ++ " characters."))), st)
                else
                  match make_mcqs fuel text language question_count st with
                  | (Returns mcqs, st') =>
                      (match
                         (_ <- (if negb (is_nil mcqs)
                                then (* the preview printed: mcqs[0]['question'][:80] *)
                                  m <- first_of mcqs ;;
                                  q <- subscript "question" m ;;
                                  py_slice_to 80 q
                                else Returns JNull) ;;
                          build_flashcards mcqs [])
                       with
                       | Returns flashcards =>
                           if is_nil mcqs then
                             Threw (Http 500
                                      (Message "Failed to generate questions from the document. Please check if GEMINI_API_KEY is set."))
                           else
                             match ProcessResponse (text_preview 500 text) page_count
                                     mcqs flashcards with
                             | Ok response => Finished response
                             | Fail e => Threw (Exc e)
                             end
                       | Raises e => Threw (Exc e)
                       | OutOfFuel => Starved
                       end, st')
                  | (Raises e, st') => (Threw (Exc e), st')
                  | (OutOfFuel, st') => (Starved, st')
                  end
            end
    end.

(** [except HTTPException: raise] and
    [except Exception as e: raise HTTPException(500, ...)]. *)
Definition process_pdf (fuel : nat) (file : UploadFile) (language : string)
    (question_count : Z) (st : PState) : http Response * PState :=
  match process_pdf_body fuel file language question_count st with
  | (Finished response, st') => (Responds response, st')
  | (Threw (Http status_code d), st') => (HTTPException status_code d, st')
  | (Threw (Exc e), st') => (HTTPException 500 (InternalServerError e), st')
  | (Starved, st') => (Unfinished, st')
  end.

(** An upload that passes every check of [process_pdf], with the text and
    the page count extracted from it. *)
Definition accepted_upload (file : UploadFile) (question_count : Z)
    (text : string) (page_count : Z) : Prop :=
  (5 <= question_count <= 20)%Z
  /\ (exists name, filename file = Some name /\ endswith ".pdf" name = true)
  /\ 0 < length (read file)
  /\ (Z.of_nat (length (read file)) <= 10 * 1024 * 1024)%Z
  /\ extract_text_from_pdf (read file) = Ok (text, page_count)
  /\ 100 <= String.length text.

End Endpoints.

Section TestEndpoint.

Context {R : Runtime}.

Definition test_mcq_generation (fuel : nat) (text language : string)
    (question_count : Z) (st : PState) : http json * PState :=
  match make_mcqs fuel text language question_count st with
  | (Returns mcqs, st') =>
      (Responds
         (JObj [ ("text_preview", JStr (text_preview 200 text));
                 ("language", JStr language);
                 ("question_count", JInt (Z.of_nat (length mcqs)));
                 ("mcqs", JArr mcqs) ]), st')
  | (Raises e, st') => (HTTPException 500 (ExceptionText e), st')
  | (OutOfFuel, st') => (Unfinished, st')
  end.

End TestEndpoint.

(** An upload and the externals used in the examples: a text of 130
    characters, and a response model that accepts everything. *)
Definition lecture_text : string := choppy_text ++ choppy_text.

Definition notes_pdf : UploadFile :=
  {| filename := Some "notes.pdf"; read := [ Byte.x25; Byte.x50; Byte.x44; Byte.x46 ] |}.

Definition extract_lecture (contents : list Byte.byte) : reply (string * Z) :=
  Ok (lecture_text, 1%Z).

Definition plain_response (text : string) (page_count : Z)
    (mcqs flashcards : list json)
  : reply (string * Z * list json * list json) :=
  Ok (text, page_count, mcqs, flashcards).

(* ================================================================== *)
(** * Properties *)

(** ** Lists and strings *)

Lemma mem_In (x : string) (l : list string) : mem x l = true <-> In x l.
Proof.
  unfold mem. rewrite existsb_exists. split.
  - intros [y [Hy Heq]]. apply String.eqb_eq in Heq. now subst.
  - intros H. exists x. split; [assumption | apply String.eqb_refl].
Qed.

Lemma mem_false (x : string) (l : list string) : mem x l = false <-> ~ In x l.
Proof.
  rewrite <- mem_In. destruct (mem x l); split; intro H; congruence.
Qed.

Lemma NoDup_snoc {A : Type} (l : list A) (x : A) :
  NoDup l -> ~ In x l -> NoDup (l ++ [x]).
Proof.
  induction 1 as [| y l Hy Hl IH]; simpl; intros Hx.
  - constructor; [intros [] | constructor].
  - constructor.
    + rewrite in_app_iff. simpl. intros [Hin | [Heq | []]]; [now apply Hy |].
      apply Hx. now left.
    + apply IH. intro Hin. apply Hx. now right.
Qed.

Lemma NoDup_firstn {A : Type} (n : nat) (l : list A) :
  NoDup l -> NoDup (firstn n l).
Proof.
  intros H. rewrite <- (firstn_skipn n l) in H.
  now apply NoDup_app_remove_r in H.
Qed.

Lemma Forall_firstn {A : Type} (P : A -> Prop) (n : nat) (l : list A) :
  Forall P l -> Forall P (firstn n l).
Proof.
  intros H. rewrite <- (firstn_skipn n l) in H.
  now apply Forall_app in H.
Qed.

Lemma is_empty_false (s : string) : is_empty s = false <-> s <> EmptyString.
Proof. destruct s; simpl; split; congruence. Qed.

(** ** The validator's loops *)

Lemma option_okb_ok (o : string) : option_okb o = true -> option_ok o.
Proof.
  unfold option_okb, option_ok. rewrite andb_true_iff, !negb_true_iff.
  rewrite is_empty_false. tauto.
Qed.

Lemma clean_inv_nil : clean_inv [] [].
Proof. repeat split; [constructor | constructor | intros o []]. Qed.

Lemma clean_inv_add (seen cleaned_options : list string) (o : string) :
  clean_inv seen cleaned_options ->
  option_ok o ->
  mem (lower o) seen = false ->
  clean_inv (lower o :: seen) (cleaned_options ++ [o]).
Proof.
  intros (Hok & Hnd & Hseen) Ho Hfresh. apply mem_false in Hfresh.
  repeat split.
  - apply Forall_app. split; [assumption | now constructor].
  - rewrite map_app. simpl. apply NoDup_snoc; [assumption |].
    rewrite in_map_iff. intros (x & Hx & Hin).
    apply Hfresh. rewrite <- Hx. now apply Hseen.
  - intros x Hin. apply in_app_iff in Hin. simpl in Hin.
    destruct Hin as [Hin | [<- | []]]; [right; now apply Hseen | now left].
Qed.

Lemma clean_options_inv (items : list json) :
  forall seen cleaned_options seen' cleaned',
    clean_inv seen cleaned_options ->
    clean_options items seen cleaned_options = (seen', cleaned') ->
    clean_inv seen' cleaned'.
Proof.
  induction items as [| opt rest IH]; cbn [clean_options];
    intros seen cl seen' cl' Hinv Hrun.
  - now inversion Hrun; subst.
  - destruct (is_empty (strip (py_str opt))) eqn:Hempty; [now apply (IH _ _ _ _ Hinv) |].
    destruct (contains_any vague_terms (lower (strip (py_str opt)))) eqn:Hvague;
      [now apply (IH _ _ _ _ Hinv) |].
    destruct (mem (lower (strip (py_str opt))) seen) eqn:Hseen;
      [now apply (IH _ _ _ _ Hinv) |].
    apply (IH _ _ _ _ (clean_inv_add _ _ _ Hinv
                         (conj (proj1 (is_empty_false _) Hempty) Hvague) Hseen) Hrun).
Qed.

Lemma pick_In (pool : list string) (index : nat) :
  pool <> [] -> In (pick pool index) pool.
Proof.
  intros Hne. unfold pick. apply nth_In.
  apply Nat.mod_upper_bound. destruct pool; [congruence | discriminate].
Qed.

Lemma filler_from_pools (question answer : string) (index : nat) :
  In (generate_meaningful_filler question answer index)
     (people ++ capitals ++ years ++ generic).
Proof.
  unfold generate_meaningful_filler.
  repeat match goal with |- context [if ?b then _ else _] => destruct b end;
    rewrite !in_app_iff;
    [ left | right; left | right; right; left | right; right; right ];
    apply pick_In; discriminate.
Qed.

Lemma filler_ok (question answer : string) (index : nat) :
  option_ok (generate_meaningful_filler question answer index).
Proof.
  apply option_okb_ok.
  assert (H : forallb option_okb (people ++ capitals ++ years ++ generic) = true)
    by (vm_compute; reflexivity).
  rewrite forallb_forall in H. apply H, filler_from_pools.
Qed.

Lemma fill_options_inv (fuel : nat) (question answer : string) :
  forall seen cleaned_options filled,
    clean_inv seen cleaned_options ->
    fill_options fuel question answer seen cleaned_options = Returns filled ->
    (exists seen', clean_inv seen' filled) /\ 4 <= length filled.
Proof.
  induction fuel as [| fuel IH]; intros seen cl filled Hinv Hrun;
    cbn [fill_options] in Hrun; destruct (length cl <? 4)%nat eqn:Hlen.
  - discriminate.
  - inversion Hrun; subst. apply Nat.ltb_ge in Hlen. split; [now exists seen | assumption].
  - destruct (mem (lower (generate_meaningful_filler question answer (length cl))) seen)
      eqn:Hseen; cbn [negb] in Hrun.
    + now apply (IH _ _ _ Hinv).
    + apply (IH _ _ _ (clean_inv_add _ _ _ Hinv (filler_ok _ _ _) Hseen) Hrun).
  - inversion Hrun; subst. apply Nat.ltb_ge in Hlen. split; [now exists seen | assumption].
Qed.

(** ** The validator *)

(** When the search for a case-insensitive match runs to its [else], every
    raw option is a string; so is [options[0]]. *)
Lemma match_case_else (answer_lower : string) (items : list json) :
  match_case answer_lower items = Returns None ->
  Forall (fun x => exists s, x = JStr s) items.
Proof.
  induction items as [| x rest IH]; cbn [match_case]; intros H; [constructor |].
  destruct x as [| | | | s | |]; try discriminate H.
  destruct (String.eqb (lower s) answer_lower); [discriminate H |].
  constructor; [now exists s | now apply IH].
Qed.

(** An accepted MCQ comes out of the two loops in this way. *)
Lemma validate_mcq_accepted (fuel : nat) (mcq : json) (m : MCQ) :
  validate_mcq fuel mcq = Returns (Some m) ->
  exists q a d items seen cleaned filled,
    clean_options items [] [] = (seen, cleaned)
    /\ fill_options fuel q a seen cleaned = Returns filled
    /\ m = {| question := q;
              answer := if negb (mem a filled) then hd EmptyString filled else a;
              options := firstn 4 filled;
              difficulty := d |}.
Proof.
  intros H. unfold validate_mcq in H.
  destruct mcq as [| | | | | |fields]; try discriminate H.
  destruct fields as [|f fields]; try discriminate H.
  split_outcome H.
  inversion H; subst. repeat eexists; eassumption.
Qed.

Lemma fill_options_stuck (question answer : string) (seen cleaned_options : list string) :
  length cleaned_options < 4 ->
  mem (lower (generate_meaningful_filler question answer (length cleaned_options)))
      seen = true ->
  forall fuel, fill_options fuel question answer seen cleaned_options = OutOfFuel.
Proof.
  intros Hlen Hseen fuel. apply Nat.ltb_lt in Hlen.
  induction fuel as [| fuel IH]; cbn [fill_options]; rewrite Hlen;
    [reflexivity | now rewrite Hseen].
Qed.

(** Four iterations decide the loop: more fuel changes nothing. *)
Lemma fill_options_stable (question answer : string) (k : nat) :
  forall fuel seen cleaned_options,
    4 - length cleaned_options <= fuel ->
    fill_options (fuel + k) question answer seen cleaned_options
    = fill_options fuel question answer seen cleaned_options.
Proof.
  induction fuel as [| fuel IH]; intros seen cl Hfuel.
  - assert (Hlen : (length cl <? 4)%nat = false) by (apply Nat.ltb_ge; lia).
    destruct k; cbn [fill_options Nat.add]; now rewrite Hlen.
  - cbn [fill_options Nat.add].
    destruct (length cl <? 4)%nat eqn:Hlen; [| reflexivity].
    apply Nat.ltb_lt in Hlen.
    destruct (mem (lower (generate_meaningful_filler question answer (length cl))) seen)
      eqn:Hseen; cbn [negb].
    + now rewrite !fill_options_stuck.
    + apply IH. rewrite length_app. cbn [length]. lia.
Qed.

Lemma validate_mcq_fuel (fuel : nat) (mcq : json) :
  4 <= fuel -> validate_mcq fuel mcq = validate_mcq 4 mcq.
Proof.
  intros Hfuel. replace fuel with (4 + (fuel - 4)) by lia.
  unfold validate_mcq.
  destruct mcq as [| | | | | |fields]; try reflexivity.
  destruct fields as [| f fields]; try reflexivity.
  unfold bind.
  repeat match goal with
         | |- match ?x with _ => _ end = match ?x with _ => _ end =>
             destruct x; try reflexivity
         | |- (if ?b then _ else _) = (if ?b then _ else _) =>
             destruct b; try reflexivity
         end.
  rewrite fill_options_stable; [reflexivity | lia].
Qed.

Lemma validate_mcq_four_options (fuel : nat) (mcq : json) (m : MCQ) :
  validate_mcq fuel mcq = Returns (Some m) -> length (options m) = 4.
Proof.
  intros H. apply validate_mcq_accepted in H.
  destruct H as (q & a & d & items & seen & cleaned & filled & Hclean & Hfill & ->).
  apply fill_options_inv in Hfill; [| exact (clean_options_inv _ _ _ _ _ clean_inv_nil Hclean)].
  destruct Hfill as [_ Hlen]. cbn [options]. rewrite length_firstn. lia.
Qed.

(** C1, at the input where it fails: five distinct options with the
    answer last.  The validator accepts, returns four options, and the
    answer it returns is the fifth raw option, cut off by the truncation to
    four that follows the membership check. *)
Theorem validate_mcq_answer_outside_options :
  forall fuel,
    validate_mcq fuel late_answer_mcq
    = Returns (Some {| question := "Which letter comes last?";
                       answer := "E";
                       options := [ "A"; "B"; "C"; "D" ];
                       difficulty := "easy" |})
    /\ ~ In "E" [ "A"; "B"; "C"; "D" ].
Proof.
  intros fuel. split.
  - destruct fuel; vm_compute; reflexivity.
  - simpl. intros [H | [H | [H | [H | []]]]]; discriminate H.
Qed.

(** C2, at an input where it fails: a "who" question whose two usable
    options are the first and the third name of the filler pool.  The
    filler for index 2 is the third name, already present, so the loop
    leaves its state unchanged and never ends, whatever the fuel. *)
Theorem validate_mcq_never_returns :
  forall fuel, validate_mcq fuel stuck_mcq = OutOfFuel.
Proof.
  intros fuel. unfold validate_mcq, stuck_mcq, raw_mcq.
  cbv -[fill_options].
  rewrite fill_options_stuck; [reflexivity | simpl; lia | vm_compute; reflexivity].
Qed.

(** C7: every option of an accepted MCQ is non-empty, its lowercase form
    contains no denylisted phrase, and the options are pairwise distinct
    when compared in lowercase. *)
Theorem validate_mcq_options_denylist (fuel : nat) (mcq : json) (m : MCQ) :
  validate_mcq fuel mcq = Returns (Some m) ->
  Forall (fun o => o <> EmptyString
                   /\ contains_any vague_terms (lower o) = false) (options m)
  /\ NoDup (map lower (options m)).
Proof.
  intros H. apply validate_mcq_accepted in H.
  destruct H as (q & a & d & items & seen & cleaned & filled & Hclean & Hfill & ->).
  apply fill_options_inv in Hfill; [| exact (clean_options_inv _ _ _ _ _ clean_inv_nil Hclean)].
  destruct Hfill as [(seen' & Hok & Hnd & _) _]. cbn [options]. split.
  - now apply Forall_firstn.
  - rewrite <- firstn_map. now apply NoDup_firstn.
Qed.

Lemma validate_mcq_options_denylist_witness :
  validate_mcq 4 padded_mcq
  = Returns (Some {| question := "What did Turing propose in 1950?";
                     answer := "The imitation game";
                     options := [ "The imitation game"; "the halting problem";
                                  "A frequently confused alternative";
                                  "A similar but distinct element" ];
                     difficulty := "easy" |})
  /\ (Forall (fun o => o <> EmptyString
                       /\ contains_any vague_terms (lower o) = false)
             [ "The imitation game"; "the halting problem";
               "A frequently confused alternative";
               "A similar but distinct element" ]
      /\ NoDup (map lower [ "The imitation game"; "the halting problem";
                            "A frequently confused alternative";
                            "A similar but distinct element" ])).
Proof.
  split; [vm_compute; reflexivity |].
  apply (validate_mcq_options_denylist 4 padded_mcq
           {| question := "What did Turing propose in 1950?";
              answer := "The imitation game";
              options := [ "The imitation game"; "the halting problem";
                           "A frequently confused alternative";
                           "A similar but distinct element" ];
              difficulty := "easy" |}).
  vm_compute; reflexivity.
Defined.

(** ** Idempotence *)

Lemma existsb_is_str (a : string) (l : list string) :
  In a l -> existsb (is_str a) (map JStr l) = true.
Proof.
  intros H. apply existsb_exists. exists (JStr a). split.
  - now apply in_map.
  - apply String.eqb_refl.
Qed.

(** Options that are already clean go through the cleaning loop unchanged. *)
Lemma clean_options_keep (opts : list string) :
  forall seen cleaned_options,
    Forall (fun o => (trimmed o /\ o <> EmptyString)
                     /\ contains_any vague_terms (lower o) = false) opts ->
    NoDup (map lower opts) ->
    (forall o, In o opts -> ~ In (lower o) seen) ->
    exists seen',
      clean_options (map JStr opts) seen cleaned_options
      = (seen', (cleaned_options ++ opts)%list).
Proof.
  induction opts as [| o rest IH]; intros seen cl Hok Hnd Hfresh; cbn [map clean_options].
  - exists seen. now rewrite app_nil_r.
  - inversion Hok as [| ? ? [[Htrim Hne] Hvague] Hrest]; subst.
    inversion Hnd as [| ? ? Hnotin Hnd']; subst.
    cbn [py_str]. rewrite Htrim.
    apply is_empty_false in Hne. rewrite Hne, Hvague.
    assert (Hseen : mem (lower o) seen = false)
      by (apply mem_false, Hfresh; now left).
    rewrite Hseen.
    destruct (IH (lower o :: seen) (cl ++ [o])%list Hrest Hnd') as [seen' Hrun].
    + intros x Hx [Heq | Hin].
      * apply Hnotin. rewrite Heq. now apply in_map.
      * apply (Hfresh x); [now right | assumption].
    + exists seen'. rewrite Hrun. now rewrite <- app_assoc.
Qed.

Lemma canonical_fixed (d : string) :
  In d [ "easy"; "medium"; "hard" ] ->
  lower (strip d) = d /\ canonical_difficulty d = true.
Proof.
  intros [<- | [<- | [<- | []]]]; split; vm_compute; reflexivity.
Qed.

(** C8, amended: an MCQ that satisfies the data-model invariants and whose
    options are all trimmed and non-empty is returned unchanged. *)
Theorem validate_mcq_idempotent (fuel : nat) (m : MCQ) :
  data_model_valid m ->
  options_trimmed m ->
  validate_mcq fuel (mcq_json m) = Returns (Some m).
Proof.
  intros [[Hq Hqne] [Ha Hane] Hfour Hnd Hdeny Hmem Hdiff] Htrim.
  destruct m as [q a opts d]. unfold options_trimmed in Htrim.
  cbn [question answer options difficulty] in *.
  destruct (canonical_fixed d Hdiff) as [Hd Hcanon].
  apply is_empty_false in Hqne, Hane.
  destruct (clean_options_keep opts [] []) as [seen Hclean];
    [ | assumption | intros o _ [] | ].
  { rewrite Forall_forall in *. intros o Ho. split; [now apply Htrim | now apply Hdeny]. }
  unfold validate_mcq, mcq_json, raw_mcq.
  cbn [question answer options difficulty].
  unfold get_stripped, bind.
  cbn [lookup String.eqb Ascii.eqb Bool.eqb].
  rewrite Hq, Ha. unfold strip in Hd. unfold strip at 1. rewrite Hd.
  rewrite Hqne, Hane.
  cbn [truthy py_len orb]. rewrite length_map, Hfour.
  destruct opts as [| o1 opts]; [discriminate Hfour |].
  cbn [map negb Nat.ltb Nat.leb].
  unfold resolve_answer, bind. cbn [str_in].
  change (JStr o1 :: map JStr opts) with (map JStr (o1 :: opts)).
  rewrite (existsb_is_str a (o1 :: opts) Hmem).
  cbn [py_iter]. rewrite Hclean. cbn [app].
  assert (Hfill : fill_options fuel q a seen (o1 :: opts) = Returns (o1 :: opts)).
  { destruct fuel; cbn [fill_options]; rewrite Hfour; reflexivity. }
  rewrite Hfill.
  apply mem_In in Hmem. rewrite Hmem. cbn [negb].
  rewrite firstn_all2 by (rewrite Hfour; constructor).
  unfold derive_difficulty. rewrite Hcanon. reflexivity.
Qed.

Lemma validate_mcq_idempotent_witness :
  (data_model_valid tidy_mcq /\ options_trimmed tidy_mcq)
  /\ validate_mcq 4 (mcq_json tidy_mcq) = Returns (Some tidy_mcq).
Proof.
  assert (Hvalid : data_model_valid tidy_mcq).
  { constructor; cbn.
    - split; [vm_compute; reflexivity | discriminate].
    - split; [vm_compute; reflexivity | discriminate].
    - reflexivity.
    - repeat constructor; simpl; intuition discriminate.
    - repeat constructor.
    - right; left; reflexivity.
    - right; right; left; reflexivity. }
  assert (Htrim : options_trimmed tidy_mcq).
  { repeat constructor; discriminate. }
  split; [split; assumption |].
  exact (validate_mcq_idempotent 4 tidy_mcq Hvalid Htrim).
Defined.

(** C8 as stated fails: the invariants it lists do not ask the options to
    be trimmed, and the validator trims them. *)
Lemma validate_mcq_not_idempotent :
  ~ (forall fuel m,
        data_model_valid m -> validate_mcq fuel (mcq_json m) = Returns (Some m)).
Proof.
  intros H. specialize (H 4 untrimmed_mcq).
  assert (Hvalid : data_model_valid untrimmed_mcq).
  { constructor; cbn.
    - split; [vm_compute; reflexivity | discriminate].
    - split; [vm_compute; reflexivity | discriminate].
    - reflexivity.
    - repeat constructor; simpl; intuition discriminate.
    - repeat constructor.
    - left; reflexivity.
    - left; reflexivity. }
  specialize (H Hvalid). vm_compute in H. discriminate H.
Qed.

(** An empty option is dropped and replaced by a filler. *)
Example validate_mcq_blank_option :
  validate_mcq 4 (mcq_json blank_option_mcq)
  = Returns (Some {| question := "What is two plus two?"; answer := "4";
                     options := [ "4"; "6"; "7"; "A similar but distinct element" ];
                     difficulty := "easy" |}).
Proof. vm_compute; reflexivity. Qed.

(** ** The fallback generator *)

Lemma generate_fallback_mcqs_map (text : string) (max_questions : Z) :
  generate_fallback_mcqs text max_questions
  = map (fallback_mcq (sentences_of text))
        (seq 0 (Z.to_nat (Z.min max_questions
                                (Z.of_nat (length (sentences_of text)))))).
Proof.
  unfold generate_fallback_mcqs, py_range, py_take.
  destruct (0 <=? max_questions)%Z eqn:Hsign.
  - apply firstn_all2. rewrite length_map, length_seq. lia.
  - replace (Z.to_nat (Z.min max_questions (Z.of_nat (length (sentences_of text)))))
      with 0 by lia.
    cbn [seq map]. now rewrite firstn_nil.
Qed.

(** C9, amended: the fragments are the whitespace-trimmed pieces whose
    trimmed length exceeds 20; with them the result has
    [min(max_questions, N)] MCQs, the i-th answering with the i-th fragment,
    which is its first option before the three fixed phrases. *)
Theorem generate_fallback_mcqs_shape (text : string) (max_questions : Z) :
  fallback_matches (sentences_of text) max_questions
                   (generate_fallback_mcqs text max_questions).
Proof.
  rewrite generate_fallback_mcqs_map.
  set (sentences := sentences_of text).
  set (k := Z.to_nat (Z.min max_questions (Z.of_nat (length sentences)))).
  assert (Hk : k <= length sentences) by (unfold k; lia).
  split.
  - rewrite length_map, length_seq. unfold k. lia.
  - intros i m Hnth.
    assert (Hi : i < k).
    { assert (Hsome : nth_error (map (fallback_mcq sentences) (seq 0 k)) i <> None)
        by (rewrite Hnth; discriminate).
      apply nth_error_Some in Hsome. now rewrite length_map, length_seq in Hsome. }
    rewrite nth_error_map, nth_error_seq in Hnth.
    destruct (i <? k)%nat eqn:Hik; [| apply Nat.ltb_ge in Hik; lia].
    cbn in Hnth. inversion Hnth; subst m.
    exists (nth i sentences EmptyString). split; [| split; reflexivity].
    apply nth_error_nth'. lia.
Qed.

(** C9 as stated fails: the pieces are trimmed before they are measured
    and used.  Here the second piece has 21 characters as split and 19 once
    trimmed, so one MCQ comes back where the statement counts two. *)
Lemma generate_fallback_mcqs_untrimmed_count :
  ~ fallback_matches (spec_fragments two_sentences) 5
                     (generate_fallback_mcqs two_sentences 5).
Proof.
  intros [Hlen _]. vm_compute in Hlen. discriminate Hlen.
Qed.

Example generate_fallback_mcqs_two_sentences :
  map answer (generate_fallback_mcqs two_sentences 5)
  = [ "Alan Turing proposed the imitation game" ]
  /\ spec_fragments two_sentences
     = [ "Alan Turing proposed the imitation game"; "  He was born in 1912" ].
Proof. split; vm_compute; reflexivity. Qed.

(* ------------------------------------------------------------------ *)
(** ** Computations that do not depend on the fuel *)

Lemma bind_fuel {A B : Type} (o : outcome A) (k : A -> outcome B) :
  o <> OutOfFuel -> (forall a, k a <> OutOfFuel) -> bind o k <> OutOfFuel.
Proof. destruct o; cbn [bind]; intros Ho Hk; [apply Hk | discriminate | congruence]. Qed.

Lemma str_in_fuel (k : string) (v : json) : str_in k v <> OutOfFuel.
Proof. destruct v; discriminate. Qed.

Lemma all_in_fuel (keys : list string) (v : json) : all_in keys v <> OutOfFuel.
Proof.
  induction keys as [| k rest IH]; cbn [all_in]; [discriminate |].
  apply bind_fuel; [apply str_in_fuel | intros [|]; [assumption | discriminate]].
Qed.

Lemma subscript_fuel (k : string) (v : json) : subscript k v <> OutOfFuel.
Proof.
  destruct v; try discriminate. cbn [subscript].
  destruct (lookup k fields); discriminate.
Qed.

Lemma py_slice_to_fuel (n : Z) (v : json) : py_slice_to n v <> OutOfFuel.
Proof. destruct v; discriminate. Qed.

Lemma py_lower_fuel (v : json) : py_lower v <> OutOfFuel.
Proof. destruct v; discriminate. Qed.

Lemma first_of_fuel (l : list json) : first_of l <> OutOfFuel.
Proof. destruct l; discriminate. Qed.

Lemma text_strip_fuel (text : option string) : text_strip text <> OutOfFuel.
Proof. destruct text; discriminate. Qed.

Section MonadProperties.

Context {R : Runtime}.

Lemma fuel_free_ret {A : Type} (a : A) : fuel_free (ret a).
Proof. intros st. discriminate. Qed.

Lemma fuel_free_lift {A : Type} (o : outcome A) :
  o <> OutOfFuel -> fuel_free (lift o).
Proof. intros Ho st. exact Ho. Qed.

Lemma fuel_free_bind {A B : Type} (m : M A) (k : A -> M B) :
  fuel_free m -> (forall a, fuel_free (k a)) -> fuel_free (bindM m k).
Proof.
  intros Hm Hk st. unfold bindM. specialize (Hm st).
  destruct (m st) as [[a | e |] st']; cbn [fst] in *;
    [apply Hk | discriminate | congruence].
Qed.

Lemma fuel_free_try {A : Type} (body : M A) (handler : exn -> M A) :
  fuel_free body -> (forall e, fuel_free (handler e)) -> fuel_free (tryM body handler).
Proof.
  intros Hb Hh st. unfold tryM. specialize (Hb st).
  destruct (body st) as [[a | e |] st']; cbn [fst] in *;
    [discriminate | apply Hh | congruence].
Qed.

Lemma fuel_free_configure (api_key : string) : fuel_free (call_configure api_key).
Proof.
  intros st. unfold call_configure.
  destruct (configure api_key (world st)) as [[u | e] w]; discriminate.
Qed.

Lemma fuel_free_generate (req : Request) : fuel_free (call_generate req).
Proof.
  intros st. unfold call_generate.
  destruct (generate_content req (world st)) as [[text | e] w]; discriminate.
Qed.

(** A [try] whose handler returns a value returns, once its body does not
    depend on the fuel. *)
Lemma tryM_returns {A : Type} (body : M A) (a : A) (st : PState) :
  fuel_free body ->
  exists x st', tryM body (fun _ => ret a) st = (Returns x, st').
Proof.
  intros Hb. unfold tryM. specialize (Hb st).
  destruct (body st) as [[x | e |] st']; cbn [fst] in Hb;
    [now exists x, st' | now exists a, st' | congruence].
Qed.

End MonadProperties.

(** Goals of the form [fuel_free m] and [o <> OutOfFuel], by the structure
    of the computation. *)
Ltac fuel_free_step :=
  match goal with
  | |- forall _, _ => intro
  | |- fuel_free (ret _) => apply fuel_free_ret
  | |- fuel_free (lift _) => apply fuel_free_lift
  | |- fuel_free (bindM _ _) => apply fuel_free_bind
  | |- fuel_free (tryM _ _) => apply fuel_free_try
  | |- fuel_free (call_configure _) => apply fuel_free_configure
  | |- fuel_free (call_generate _) => apply fuel_free_generate
  | |- fuel_free (match ?x with _ => _ end) => destruct x
  | |- bind _ _ <> OutOfFuel => apply bind_fuel
  | |- subscript _ _ <> OutOfFuel => apply subscript_fuel
  | |- py_slice_to _ _ <> OutOfFuel => apply py_slice_to_fuel
  | |- py_lower _ <> OutOfFuel => apply py_lower_fuel
  | |- first_of _ <> OutOfFuel => apply first_of_fuel
  | |- text_strip _ <> OutOfFuel => apply text_strip_fuel
  | |- all_in _ _ <> OutOfFuel => apply all_in_fuel
  | |- (match ?x with _ => _ end) <> OutOfFuel => destruct x
  | |- Returns _ <> OutOfFuel => discriminate
  | |- Raises _ <> OutOfFuel => discriminate
  end.

(* ------------------------------------------------------------------ *)
(** ** The translator *)

Section TranslatorProperties.

Context {R : Runtime}.

(** C6: with target language "English", in any casing, the translator
    returns its input and leaves the provider state and the list of issued
    requests as they were. *)
Theorem translate_english_identity (english_mcqs : list json)
    (target_lang api_key : string) (st : PState) :
  lower target_lang = "english" ->
  translate_mcqs_to_language english_mcqs target_lang api_key st
  = (Returns english_mcqs, st).
Proof.
  intros Hlang. unfold translate_mcqs_to_language. rewrite Hlang.
  reflexivity.
Qed.

Lemma slot_keeps {r : reply (option string)} {m : MCQ} :
  (forall t, decoded r = Some t -> ~ translation_taken m t) ->
  slot_of (m, r) (mcq_json m).
Proof.
  intros Hnone. split; [now left |].
  intros t Hdec Htaken. now destruct (Hnone t Hdec).
Qed.

Lemma translate_one_slot (m : MCQ) (target_lang : string) (st : PState) :
  let req := translation_request (mcq_json m) target_lang in
  exists o,
    translate_one (mcq_json m) target_lang st
    = (Returns o,
       {| world := snd (generate_content req (world st));
          issued := (issued st ++ [req])%list |})
    /\ slot_of (m, fst (generate_content req (world st))) o.
Proof.
  intros req. unfold translate_one, tryM, bindM, lift, call_generate.
  cbn [mcq_json raw_mcq subscript lookup String.eqb Ascii.eqb Bool.eqb bind py_slice_to].
  fold req. destruct (generate_content req (world st)) as [r w'].
  cbn [fst snd outcome_of].
  destruct r as [[text |] | e]; cbn [outcome_of text_strip];
    try (exists (mcq_json m); split; [reflexivity | apply slot_keeps; discriminate]).
  destruct (json_loads (clean_json_response (strip text))) as [t |] eqn:Hparse;
    [| exists (mcq_json m); split;
       [reflexivity | apply slot_keeps; cbn [decoded]; rewrite Hparse; discriminate]].
  assert (Hdec : forall t', decoded (Ok (Some text)) = Some t' -> t' = t)
    by (cbn [decoded]; rewrite Hparse; intros t' Ht'; now inversion Ht').
  destruct (all_in [ "question"; "answer"; "options" ] t) as [[|] | e |] eqn:Hall;
    [ | | | now apply all_in_fuel in Hall ];
    try (exists (mcq_json m); split;
         [ reflexivity
         | apply slot_keeps; intros t' Ht' [Hkeys _];
           rewrite (Hdec t' Ht') in Hkeys; congruence ]).
  cbn [py_lower]. unfold bind.
  destruct (subscript "question" t) as [x | e |] eqn:Hsub;
    [ | | now apply subscript_fuel in Hsub ];
    try (exists (mcq_json m); split;
         [ reflexivity
         | apply slot_keeps; intros t' Ht' (_ & q & Hq & _);
           rewrite (Hdec t' Ht') in Hq; congruence ]).
  destruct x as [| | | | q | |];
    try (exists (mcq_json m); split;
         [ reflexivity
         | apply slot_keeps; intros t' Ht' (_ & q & Hq & _);
           rewrite (Hdec t' Ht') in Hq; congruence ]).
  cbn [py_lower].
  destruct (String.eqb (lower (question m)) (lower q)) eqn:Heq; cbn [negb].
  - exists (mcq_json m). split; [reflexivity |].
    apply slot_keeps. intros t' Ht' (_ & q' & Hq' & Hdiff).
    rewrite (Hdec t' Ht') in Hq'. rewrite Hsub in Hq'. inversion Hq'; subst q'.
    apply String.eqb_eq in Heq. congruence.
  - exists t. split; [reflexivity |].
    apply String.eqb_neq in Heq.
    assert (Htaken : translation_taken m t).
    { split; [assumption |]. exists q. split; [assumption | congruence]. }
    split.
    + right. exists t. split; [exact Hparse | split; [exact Htaken | reflexivity]].
    + intros t' Ht' _. symmetry. now apply Hdec.
Qed.

Lemma translate_each_slots (target_lang : string) (english : list MCQ) :
  forall translated_mcqs st,
    exists outs,
      translate_each (map mcq_json english) target_lang translated_mcqs st
      = (Returns (translated_mcqs ++ outs)%list,
         {| world := world_after (translation_requests english target_lang) (world st);
            issued := (issued st ++ translation_requests english target_lang)%list |})
      /\ Forall2 slot_of
           (combine english
              (replies_to (translation_requests english target_lang) (world st)))
           outs.
Proof.
  induction english as [| m rest IH]; intros acc st.
  - exists []. cbn. rewrite !app_nil_r. destruct st. split; [reflexivity | constructor].
  - cbn [map translate_each translation_requests replies_to world_after].
    destruct (translate_one_slot m target_lang st) as (o & Hone & Hslot).
    unfold bindM. rewrite Hone.
    destruct (IH (acc ++ [o])%list
                {| world := snd (generate_content
                                   (translation_request (mcq_json m) target_lang)
                                   (world st));
                   issued := (issued st
                              ++ [translation_request (mcq_json m) target_lang])%list |})
      as (outs & Hrest & Hslots).
    exists (o :: outs). cbn [world issued] in Hrest.
    fold (translation_requests rest target_lang).
    rewrite Hrest, <- !app_assoc. cbn [app]. split; [reflexivity |].
    destruct (generate_content (translation_request (mcq_json m) target_lang) (world st))
      as [r w'].
    cbn [combine fst snd] in *. now constructor.
Qed.

Lemma slot_question (m : MCQ) (r : reply (option string)) (o : json) :
  slot_of (m, r) o -> exists q, subscript "question" o = Returns (JStr q).
Proof.
  intros [[-> | (t & _ & (_ & q & Hq & _) & ->)] _].
  - exists (question m). reflexivity.
  - now exists q.
Qed.

(** C5: for a non-empty list of English MCQs and a target language other
    than English, the translator returns a list of the same length.  When
    the provider set-up raises, it is the English list.  Otherwise one
    request per MCQ is issued, and each slot is the parsed reply to its own
    request when that reply parses, has the three keys and a question
    differing in lowercase from the original, and the English MCQ of that
    slot otherwise: no slot looks at another slot's reply. *)
Theorem translate_mcqs_per_item (english : list MCQ)
    (target_lang api_key : string) (st : PState) :
  english <> [] ->
  lower target_lang <> "english" ->
  exists out st',
    translate_mcqs_to_language (map mcq_json english) target_lang api_key st
    = (Returns out, st')
    /\ length out = length english
    /\ match configure api_key (world st) with
       | (Fail _, _) =>
           out = map mcq_json english /\ issued st' = issued st
       | (Ok _, w) =>
           Forall2 slot_of
             (combine english
                (replies_to (translation_requests english target_lang) w))
             out
           /\ issued st'
              = (issued st ++ translation_requests english target_lang)%list
       end.
Proof.
  intros Hne Hlang. unfold translate_mcqs_to_language.
  apply String.eqb_neq in Hlang. rewrite Hlang.
  destruct english as [| m0 rest]; [congruence |].
  cbn [orb is_nil map]. unfold tryM, bindM at 1, call_configure.
  destruct (configure api_key (world st)) as [[[] | e] w]; cbn [outcome_of].
  - destruct (translate_each_slots target_lang (m0 :: rest) []
                {| world := w; issued := issued st |}) as (outs & Hrun & Hslots).
    cbn [map app world issued] in Hrun. unfold bindM at 1. rewrite Hrun.
    assert (Hlen : length outs = length (m0 :: rest)).
    { apply Forall2_length in Hslots. rewrite <- Hslots, length_combine.
      assert (Hrep : forall reqs w0, length (replies_to reqs w0) = length reqs).
      { induction reqs as [| req reqs IHr]; intros w0; cbn [replies_to];
          [reflexivity |].
        destruct (generate_content req w0). cbn [length]. now rewrite IHr. }
      rewrite Hrep. unfold translation_requests. rewrite length_map. lia. }
    destruct outs as [| o0 outs]; [discriminate Hlen |].
    cbn [world] in Hslots. cbn [replies_to translation_requests map] in Hslots.
    assert (Hfirst : exists q, subscript "question" o0 = Returns (JStr q)).
    { destruct (generate_content (translation_request (mcq_json m0) target_lang) w)
        as [r0 w0].
      cbn [combine] in Hslots. inversion Hslots; subst.
      eapply slot_question; eassumption. }
    destruct Hfirst as [q0 Hq0].
    unfold bindM, lift.
    cbn [first_of bind mcq_json raw_mcq subscript lookup String.eqb Ascii.eqb Bool.eqb].
    rewrite Hq0. cbn [py_lower].
    eexists. eexists. split; [reflexivity |].
    split; [exact Hlen |]. split; [exact Hslots | reflexivity].
  - eexists. eexists. split; [reflexivity |].
    split; [cbn [length]; now rewrite length_map |]. split; reflexivity.
Qed.

Lemma translate_one_fuel_free (mcq : json) (target_lang : string) :
  fuel_free (translate_one mcq target_lang).
Proof. unfold translate_one. repeat fuel_free_step. Qed.

Lemma translate_each_fuel_free (target_lang : string) (mcqs : list json) :
  forall translated_mcqs,
    fuel_free (translate_each mcqs target_lang translated_mcqs).
Proof.
  induction mcqs as [| mcq rest IH]; intros acc; cbn [translate_each].
  - apply fuel_free_ret.
  - apply fuel_free_bind; [apply translate_one_fuel_free | intros t; apply IH].
Qed.

(** The translator returns a list on every input, typed or not. *)
Lemma translate_mcqs_returns (mcqs : list json) (target_lang api_key : string)
    (st : PState) :
  exists out st',
    translate_mcqs_to_language mcqs target_lang api_key st = (Returns out, st').
Proof.
  unfold translate_mcqs_to_language.
  destruct (String.eqb (lower target_lang) "english" || is_nil mcqs).
  - now exists mcqs, st.
  - apply tryM_returns.
    apply fuel_free_bind; [apply fuel_free_configure | intros _].
    apply fuel_free_bind; [apply translate_each_fuel_free | intros translated].
    repeat fuel_free_step.
Qed.

End TranslatorProperties.

(* ------------------------------------------------------------------ *)
(** ** The English generator *)

Lemma validate_each_returns (fuel : nat) (items : list json) :
  forall validated_mcqs,
    Forall (fun x => exists v, validate_mcq fuel x = Returns v) items ->
    validate_each fuel items validated_mcqs
    = Returns (validated_mcqs ++ accepted_outputs fuel items)%list.
Proof.
  induction items as [| x rest IH]; intros acc Hall; cbn [validate_each accepted_outputs flat_map].
  - now rewrite app_nil_r.
  - inversion Hall as [| ? ? [v Hv] Hrest]; subst.
    rewrite Hv. cbn [bind]. destruct v as [m |].
    + rewrite (IH _ Hrest). unfold accepted_outputs. now rewrite <- app_assoc.
    + now rewrite (IH _ Hrest).
Qed.

Lemma validate_each_raises (fuel : nat) (items : list json) :
  forall validated_mcqs,
    Forall (fun x => validate_mcq fuel x <> OutOfFuel) items ->
    Exists (fun x => exists e, validate_mcq fuel x = Raises e) items ->
    exists e, validate_each fuel items validated_mcqs = Raises e.
Proof.
  induction items as [| x rest IH]; intros acc Hfuel Hex; [inversion Hex |].
  inversion Hfuel as [| ? ? Hx Hrest]; subst. cbn [validate_each].
  destruct (validate_mcq fuel x) as [[m |] | e |] eqn:Hv; cbn [bind].
  - apply IH; [assumption |]. inversion Hex as [? ? [e He] | ]; subst; [congruence | assumption].
  - apply IH; [assumption |]. inversion Hex as [? ? [e He] | ]; subst; [congruence | assumption].
  - now exists e.
  - congruence.
Qed.

Lemma validate_each_out_of_fuel (fuel : nat) (items : list json) :
  forall validated_mcqs,
    validate_each fuel items validated_mcqs = OutOfFuel ->
    Exists (fun x => validate_mcq fuel x = OutOfFuel) items.
Proof.
  induction items as [| x rest IH]; intros acc; cbn [validate_each]; [discriminate |].
  destruct (validate_mcq fuel x) as [[m |] | e |] eqn:Hv; cbn [bind]; intros H.
  - right. now apply (IH _ H).
  - right. now apply (IH _ H).
  - discriminate H.
  - now left.
Qed.

(** The loop stops at the first element on which the validator does not
    return a value, with what the validator does there. *)
Lemma validate_each_first_failure (fuel : nat) (before : list json) (x : json)
    (after : list json) :
  forall validated_mcqs,
    Forall (fun y => exists v, validate_mcq fuel y = Returns v) before ->
    (forall v, validate_mcq fuel x <> Returns v) ->
    validate_each fuel (before ++ x :: after)%list validated_mcqs
    = match validate_mcq fuel x with
      | Raises e => Raises e
      | _ => OutOfFuel
      end.
Proof.
  induction before as [| y rest IH]; intros acc Hbefore Hx; cbn [app validate_each].
  - destruct (validate_mcq fuel x) as [v | e |]; [now destruct (Hx v) | |]; reflexivity.
  - inversion Hbefore as [| ? ? [v Hv] Hrest]; subst.
    rewrite Hv. cbn [bind]. destruct v; now apply IH.
Qed.

Section GeneratorProperties.

Context {R : Runtime}.

(** The generator fails to return only when the validator's loop does not
    end on some element of the parsed array. *)
Lemma generate_english_mcqs_out_of_fuel (fuel : nat) (text : string) (n : Z)
    (api_key : string) (st : PState) :
  fst (generate_english_mcqs fuel text n api_key st) = OutOfFuel ->
  exists x, validate_mcq fuel x = OutOfFuel.
Proof.
  unfold generate_english_mcqs, tryM, bindM, call_configure, call_generate, lift, ret.
  destruct (configure api_key (world st)) as [[u | e] w1];
    cbn [outcome_of world issued].
  2:{ intros H; simpl in H; discriminate H. }
  destruct (generate_content (mcq_request text n) w1) as [[[raw |] | e] w2];
    cbn [outcome_of text_strip world issued]; try (intros H; simpl in H; discriminate H).
  destruct (json_loads (clean_json_response (strip raw))) as [parsed |];
    [| intros H; simpl in H; discriminate H].
  unfold bind.
  destruct (py_slice_to n parsed) as [head | e |] eqn:Hslice;
    [| intros H; simpl in H; discriminate H | now apply py_slice_to_fuel in Hslice].
  destruct (py_iter head) as [items | e |] eqn:Hiter;
    [| intros H; simpl in H; discriminate H | destruct head; discriminate Hiter].
  destruct (validate_each fuel items []) as [l | e |] eqn:Hrun;
    try (intros H; simpl in H; discriminate H).
  intros _. apply validate_each_out_of_fuel in Hrun.
  apply Exists_exists in Hrun. destruct Hrun as (x & _ & Hx). now exists x.
Qed.

Lemma tryM_ret_no_raise {A : Type} (body : M A) (a : A) (st : PState) (e : exn) :
  fst (tryM body (fun _ => ret a) st) <> Raises e.
Proof.
  unfold tryM. destruct (body st) as [[x | e' |] st']; cbn; discriminate.
Qed.

Lemma generate_english_mcqs_no_raise (fuel : nat) (text : string) (n : Z)
    (api_key : string) (st : PState) (e : exn) :
  fst (generate_english_mcqs fuel text n api_key st) <> Raises e.
Proof. apply tryM_ret_no_raise. Qed.

(** C4, amended: when the reply parses to an array, the generator looks at
    the first [count] elements only ([mcqs[:max_questions]], cut before
    validation).  It never raises.  When the validator returns on each of
    these elements, the result is the list of the accepted records in their
    order, each rejected element being dropped on its own.  Otherwise the
    first of these elements on which the validator does not return a value
    decides: when the validator raises on it, the result is the empty
    list; when the validator's loop does not end on it, the generator does
    not return either. *)
Theorem generate_english_mcqs_validated (fuel : nat) (text : string) (n : Z)
    (api_key : string) (st : PState) (w1 w2 : World) (raw : string)
    (items : list json) :
  configure api_key (world st) = (Ok tt, w1) ->
  generate_content (mcq_request text n) w1 = (Ok (Some raw), w2) ->
  json_loads (clean_json_response (strip raw)) = Some (JArr items) ->
  let considered := py_take n items in
  let result := fst (generate_english_mcqs fuel text n api_key st) in
  (forall e, result <> Raises e)
  /\ (Forall (fun x => exists v, validate_mcq fuel x = Returns v) considered ->
      result = Returns (accepted_outputs fuel considered))
  /\ (forall before x after,
        considered = (before ++ x :: after)%list ->
        Forall (fun y => exists v, validate_mcq fuel y = Returns v) before ->
        ((exists e, validate_mcq fuel x = Raises e) -> result = Returns [])
        /\ (validate_mcq fuel x = OutOfFuel -> result = OutOfFuel)).
Proof.
  intros Hconf Hgen Hparse considered result.
  split; [intros e; apply generate_english_mcqs_no_raise |].
  subst result. unfold generate_english_mcqs, tryM, bindM, call_configure, call_generate, lift.
  rewrite Hconf. cbn [outcome_of world issued]. rewrite Hgen.
  cbn [outcome_of text_strip]. rewrite Hparse.
  cbn [py_slice_to bind py_iter]. fold considered. split.
  - intros Hall. rewrite (validate_each_returns fuel considered [] Hall). reflexivity.
  - intros before x after Hsplit Hbefore. rewrite Hsplit. split.
    + intros [e He].
      rewrite (validate_each_first_failure fuel before x after [] Hbefore)
        by (rewrite He; discriminate).
      rewrite He. reflexivity.
    + intros Hout.
      rewrite (validate_each_first_failure fuel before x after [] Hbefore)
        by (rewrite Hout; discriminate).
      rewrite Hout. reflexivity.
Qed.

End GeneratorProperties.

(** C4 as stated fails when the cap is read as applied to the validated
    list: the array is cut to the count first, so a rejected element among
    the first five leaves four MCQs although six acceptable ones were sent. *)
Lemma generate_english_mcqs_caps_before_validation :
  ~ (forall (R : Runtime) fuel text n api_key st w1 w2 raw items,
        configure api_key (world st) = (Ok tt, w1) ->
        generate_content (mcq_request text n) w1 = (Ok (Some raw), w2) ->
        json_loads (clean_json_response (strip raw)) = Some (JArr items) ->
        fst (generate_english_mcqs fuel text n api_key st)
        = Returns (py_take n (accepted_outputs fuel items))).
Proof.
  intros H.
  specialize (H demo_runtime 4 "source text" 5%Z "key" (@mkPState demo_runtime 0 [])
                0 1 (json_text (JArr demo_array)) demo_array eq_refl eq_refl
                ltac:(vm_compute; reflexivity)).
  vm_compute in H. discriminate H.
Qed.

(** An element on which the validator raises empties the whole batch. *)
Example generate_english_mcqs_sibling_lost :
  validate_mcq 4 (mcq_json tidy_mcq) = Returns (Some tidy_mcq)
  /\ validate_mcq 4 mistyped_mcq = Raises AttributeError
  /\ fst (@generate_english_mcqs mistyped_runtime 4 "source text" 5 "key"
            (@mkPState mistyped_runtime tt []))
     = Returns [].
Proof. repeat split; vm_compute; reflexivity. Qed.

(** The first element on which the validator does not return decides: a
    raise before an endless loop empties the batch, an endless loop before
    a raise keeps the generator from returning. *)
Example generate_english_mcqs_first_failure :
  validate_mcq 4 stuck_mcq = OutOfFuel
  /\ validate_mcq 4 mistyped_mcq = Raises AttributeError
  /\ fst (@generate_english_mcqs (array_runtime (JArr [ mistyped_mcq; stuck_mcq ]))
            4 "source text" 5 "key"
            (@mkPState (array_runtime (JArr [ mistyped_mcq; stuck_mcq ])) tt []))
     = Returns []
  /\ fst (@generate_english_mcqs (array_runtime (JArr [ stuck_mcq; mistyped_mcq ]))
            4 "source text" 5 "key"
            (@mkPState (array_runtime (JArr [ stuck_mcq; mistyped_mcq ])) tt []))
     = OutOfFuel.
Proof. repeat split; vm_compute; reflexivity. Qed.

Example generate_english_mcqs_demo :
  fst (@generate_english_mcqs demo_runtime 4 "source text" 5 "key"
         (@mkPState demo_runtime 0 []))
  = Returns (repeat tidy_mcq 4)
  /\ py_take 5 (accepted_outputs 4 demo_array) = repeat tidy_mcq 5.
Proof. split; vm_compute; reflexivity. Qed.

Lemma generate_english_mcqs_validated_witness :
  (@configure demo_runtime "key" 0 = (Ok tt, 0)
   /\ @generate_content demo_runtime (mcq_request "source text" 5) 0
      = (Ok (Some (json_text (JArr demo_array))), 1)
   /\ @json_loads demo_runtime
        (clean_json_response (strip (json_text (JArr demo_array))))
      = Some (JArr demo_array))
  /\ ((forall e,
         fst (@generate_english_mcqs demo_runtime 4 "source text" 5 "key"
                (@mkPState demo_runtime 0 [])) <> Raises e)
      /\ (Forall (fun x => exists v, validate_mcq 4 x = Returns v)
                 (py_take 5 demo_array) ->
          fst (@generate_english_mcqs demo_runtime 4 "source text" 5 "key"
                 (@mkPState demo_runtime 0 []))
          = Returns (accepted_outputs 4 (py_take 5 demo_array)))
      /\ (forall before x after,
            py_take 5 demo_array = (before ++ x :: after)%list ->
            Forall (fun y => exists v, validate_mcq 4 y = Returns v) before ->
            ((exists e, validate_mcq 4 x = Raises e) ->
             fst (@generate_english_mcqs demo_runtime 4 "source text" 5 "key"
                    (@mkPState demo_runtime 0 []))
             = Returns [])
            /\ (validate_mcq 4 x = OutOfFuel ->
                fst (@generate_english_mcqs demo_runtime 4 "source text" 5 "key"
                       (@mkPState demo_runtime 0 []))
                = OutOfFuel))).
Proof.
  assert (Hparse : @json_loads demo_runtime
                     (clean_json_response (strip (json_text (JArr demo_array))))
                   = Some (JArr demo_array)) by (vm_compute; reflexivity).
  split; [repeat split; exact Hparse |].
  exact (@generate_english_mcqs_validated demo_runtime 4 "source text" 5 "key"
           (@mkPState demo_runtime 0 []) 0 1 (json_text (JArr demo_array))
           demo_array eq_refl eq_refl Hparse).
Defined.

Lemma translate_english_identity_witness :
  lower "ENGLISH" = "english"
  /\ @translate_mcqs_to_language demo_runtime [ mcq_json tidy_mcq ] "ENGLISH" "key"
       (@mkPState demo_runtime 0 [])
     = (Returns [ mcq_json tidy_mcq ], @mkPState demo_runtime 0 []).
Proof.
  split; [reflexivity |].
  apply (@translate_english_identity demo_runtime). reflexivity.
Defined.

Example translate_mcqs_demo :
  @translate_mcqs_to_language demo_runtime
    [ mcq_json tidy_mcq; mcq_json tidy_mcq ] "Spanish" "key"
    (@mkPState demo_runtime 0 [])
  = (Returns [ demo_translation; mcq_json tidy_mcq ],
     @mkPState demo_runtime 2
       (translation_requests [ tidy_mcq; tidy_mcq ] "Spanish")).
Proof. vm_compute; reflexivity. Qed.

Lemma translate_mcqs_per_item_witness :
  ([ tidy_mcq; tidy_mcq ] <> [] /\ lower "Spanish" <> "english")
  /\ exists out st',
       @translate_mcqs_to_language demo_runtime
         (map mcq_json [ tidy_mcq; tidy_mcq ]) "Spanish" "key"
         (@mkPState demo_runtime 0 [])
       = (Returns out, st')
       /\ length out = 2
       /\ Forall2 (@slot_of demo_runtime)
            (combine [ tidy_mcq; tidy_mcq ]
               (@replies_to demo_runtime
                  (translation_requests [ tidy_mcq; tidy_mcq ] "Spanish") 0))
            out
       /\ issued st' = translation_requests [ tidy_mcq; tidy_mcq ] "Spanish".
Proof.
  assert (Hne : [ tidy_mcq; tidy_mcq ] <> []) by discriminate.
  assert (Hlang : lower "Spanish" <> "english") by (vm_compute; discriminate).
  split; [split; assumption |].
  destruct (@translate_mcqs_per_item demo_runtime [ tidy_mcq; tidy_mcq ]
              "Spanish" "key" (@mkPState demo_runtime 0 []) Hne Hlang)
    as (out & st' & Hrun & Hlen & Hslots).
  exists out, st'. cbn in Hslots. destruct Hslots as [Hslots Hissued].
  repeat split; assumption.
Defined.

(* ------------------------------------------------------------------ *)
(** ** The short-script generator *)

Section ShortsProperties.

Context {R : Runtime}.

(** The loop, unfolded at its first and at its second pass. *)
Lemma shorts_loop_first (t err : string) (strict : bool) (st : PState) :
  shorts_loop t err strict 0 st
  = (result <~ shorts_attempt t strict ;;
     match result with
     | Some script => ret script
     | None => if strict then ret err
               else fun st' => shorts_loop t err true 1 st'
     end) st.
Proof. reflexivity. Qed.

Lemma shorts_loop_second (t err : string) (strict : bool) (st : PState) :
  shorts_loop t err strict 1 st
  = (result <~ shorts_attempt t strict ;;
     match result with
     | Some script => ret script
     | None => if strict then ret err
               else fun st' => shorts_loop t err true 2 st'
     end) st.
Proof. reflexivity. Qed.

(** After two passes the loop condition fails. *)
Lemma shorts_loop_done (t err : string) (strict : bool) (attempts : nat)
    (st : PState) :
  2 <= attempts -> shorts_loop t err strict attempts st = (Returns err, st).
Proof.
  intros Hle. destruct attempts as [| [| k]]; [lia | lia | reflexivity].
Qed.

Lemma script_accepted_ok (t script : string) :
  script_accepted t script = true -> script_ok t script.
Proof.
  unfold script_accepted, script_ok.
  rewrite !andb_true_iff, negb_true_iff, !Nat.leb_le. tauto.
Qed.

Lemma shorts_attempt_cases (t : string) (strict : bool) (st : PState) :
  let req := shorts_request t strict in
  let st1 := {| world := snd (generate_content req (world st));
                issued := (issued st ++ [req])%list |} in
  match fst (generate_content req (world st)) with
  | Fail e => shorts_attempt t strict st = (Raises e, st1)
  | Ok text =>
      let script := _sanitize_plain_text_script text in
      (script_accepted t script = true
       /\ shorts_attempt t strict st = (Returns (Some script), st1))
      \/ (script_accepted t script = false
          /\ shorts_attempt t strict st = (Returns None, st1))
  end.
Proof.
  intros req st1. unfold shorts_attempt, bindM, call_generate. fold req.
  subst st1. destruct (generate_content req (world st)) as [[text | e] w'];
    cbn [fst snd outcome_of]; [| reflexivity].
  destruct (is_empty (_sanitize_plain_text_script text)) eqn:Hempty.
  - right. split; [| reflexivity].
    destruct (_sanitize_plain_text_script text); [| discriminate Hempty].
    unfold script_accepted. cbn [split split_on filter length Nat.leb].
    now rewrite andb_false_r.
  - destruct (script_accepted t (_sanitize_plain_text_script text)) eqn:Hacc;
      [left | right]; split; reflexivity.
Qed.

(** C10: for a topic that is not empty once trimmed, the generator
    returns a value and never raises; it issues no request, the lenient
    request alone, or the lenient request followed by the strict one, the
    latter only when the script of the first reply was rejected; and the
    value is the fallback message or a sanitized reply that contains the
    topic in lowercase, has 120 to 180 words and no banned phrase. *)
Theorem generate_short_form_script_bounded (topic : string) (st : PState) :
  strip topic <> EmptyString ->
  let t := strip topic in
  let lenient := shorts_request t false in
  let strict := shorts_request t true in
  exists s st' sent,
    generate_short_form_script topic st = (Returns s, st')
    /\ issued st' = (issued st ++ sent)%list
    /\ (sent = [] \/ sent = [ lenient ] \/ sent = [ lenient; strict ])
    /\ (s = _build_fallback_short_script t
        \/ (script_ok t s /\ exists text, s = _sanitize_plain_text_script text))
    /\ (sent = [ lenient; strict ] ->
        exists api_key w1 text w2,
          configured_key = Some api_key
          /\ fst (configure api_key (world st)) = Ok tt
          /\ w1 = snd (configure api_key (world st))
          /\ generate_content lenient w1 = (Ok text, w2)
          /\ script_accepted t (_sanitize_plain_text_script text) = false).
Proof.
  intros Hne t lenient strict. unfold generate_short_form_script.
  assert (Htopic : is_empty topic = false).
  { destruct topic; [now destruct Hne | reflexivity]. }
  rewrite Htopic. fold t. apply is_empty_false in Hne. fold t in Hne. rewrite Hne.
  set (err := _build_fallback_short_script t).
  destruct configured_key as [api_key |] eqn:Hkey.
  2:{ exists err, st, []. rewrite app_nil_r.
      repeat split; auto. discriminate. }
  unfold tryM, bindM at 1, call_configure.
  destruct (configure api_key (world st)) as [[[] | e] w1] eqn:Hconf; cbn [outcome_of].
  2:{ exists err, {| world := w1; issued := issued st |}, []. cbn [issued].
      rewrite app_nil_r. repeat split; auto. discriminate. }
  rewrite shorts_loop_first. unfold bindM at 1.
  pose proof (shorts_attempt_cases t false {| world := w1; issued := issued st |}) as H1.
  cbn [world issued] in H1. fold lenient in H1.
  destruct (generate_content lenient w1) as [[text1 | e1] w2] eqn:Hgen1; cbn [fst snd] in H1.
  2:{ rewrite H1. eexists err, _, [ lenient ]. cbn [issued].
      repeat split; auto. discriminate. }
  destruct H1 as [[Hacc1 Hrun1] | [Hrej1 Hrun1]]; rewrite Hrun1.
  { eexists _, _, [ lenient ]. cbn [issued].
    split; [reflexivity |]. split; [reflexivity |]. split; [auto |].
    split; [right; split; [now apply script_accepted_ok | now exists text1] |].
    discriminate. }
  rewrite shorts_loop_second. unfold bindM at 1.
  pose proof (shorts_attempt_cases t true
                {| world := w2; issued := (issued st ++ [ lenient ])%list |}) as H2.
  cbn [world issued] in H2. fold strict in H2.
  assert (Hfirst :
            exists api_key0 w0 text w3,
              Some api_key = Some api_key0
              /\ fst (configure api_key0 (world st)) = Ok tt
              /\ w0 = snd (configure api_key0 (world st))
              /\ generate_content lenient w0 = (Ok text, w3)
              /\ script_accepted t (_sanitize_plain_text_script text) = false).
  { exists api_key, w1, text1, w2. rewrite Hconf. cbn [fst snd].
    repeat split; assumption. }
  destruct (generate_content strict w2) as [[text2 | e2] w3] eqn:Hgen2; cbn [fst snd] in H2.
  2:{ rewrite H2. eexists err, _, [ lenient; strict ]. cbn [issued].
      rewrite <- app_assoc. repeat split; auto. }
  destruct H2 as [[Hacc2 Hrun2] | [Hrej2 Hrun2]]; rewrite Hrun2.
  - eexists _, _, [ lenient; strict ]. cbn [issued]. rewrite <- app_assoc.
    split; [reflexivity |]. split; [reflexivity |]. split; [auto |].
    split; [right; split; [now apply script_accepted_ok | now exists text2] |].
    intros _. exact Hfirst.
  - eexists err, _, [ lenient; strict ]. cbn [issued]. rewrite <- app_assoc.
    repeat split; auto.
Qed.

End ShortsProperties.

Example generate_short_form_script_demo :
  @generate_short_form_script demo_runtime "  loops " (@mkPState demo_runtime 0 [])
  = (Returns demo_script,
     @mkPState demo_runtime 2
       [ shorts_request "loops" false; shorts_request "loops" true ]).
Proof. vm_compute; reflexivity. Qed.

Lemma generate_short_form_script_bounded_witness :
  strip "  loops " <> EmptyString
  /\ exists s st' sent,
       @generate_short_form_script demo_runtime "  loops "
         (@mkPState demo_runtime 0 []) = (Returns s, st')
       /\ issued st' = sent
       /\ (sent = [] \/ sent = [ shorts_request "loops" false ]
           \/ sent = [ shorts_request "loops" false; shorts_request "loops" true ])
       /\ (s = _build_fallback_short_script "loops"
           \/ (script_ok "loops" s
               /\ exists text, s = _sanitize_plain_text_script text)).
Proof.
  assert (Hne : strip "  loops " <> EmptyString) by (vm_compute; discriminate).
  split; [assumption |].
  destruct (@generate_short_form_script_bounded demo_runtime "  loops "
              (@mkPState demo_runtime 0 []) Hne)
    as (s & st' & sent & Hrun & Hissued & Hsent & Hvalue & _).
  exists s, st', sent. repeat split; assumption.
Defined.

(* ------------------------------------------------------------------ *)
(** ** The orchestrator *)

Lemma py_take_nonempty {A : Type} (n : Z) (x : A) (l : list A) :
  (1 <= n)%Z -> py_take n (x :: l) <> [].
Proof.
  intros Hn. unfold py_take.
  destruct (0 <=? n)%Z eqn:Hsign; [| apply Z.leb_gt in Hsign; lia].
  destruct (Z.to_nat n) eqn:Hk; [lia | discriminate].
Qed.

Lemma fallback_empty (text : string) (n : Z) :
  (1 <= n)%Z ->
  generate_fallback_mcqs text n = [] -> sentences_of text = [].
Proof.
  intros Hn H. rewrite generate_fallback_mcqs_map in H.
  apply (f_equal (@length MCQ)) in H. rewrite length_map, length_seq in H.
  cbn [length] in H. destruct (sentences_of text); [reflexivity |].
  cbn [length] in H. lia.
Qed.

Section OrchestratorProperties.

Context {R : Runtime}.

(** What the body of the [try] block of [make_mcqs] can return. *)
Lemma make_mcqs_body_result (fuel : nat) (text language : string) (n : Z)
    (api_key : string) (st st' : PState) (l : list json) :
  (1 <= n)%Z ->
  (english_mcqs <~ generate_english_mcqs fuel text n api_key ;;
   match english_mcqs with
   | [] => ret (fallback_result text n)
   | first :: _ =>
       if String.eqb (lower language) "english"
       then ret (py_take n (map mcq_json english_mcqs))
       else
         translated_mcqs <~
           translate_mcqs_to_language (map mcq_json english_mcqs) language api_key ;;
         if negb (is_nil translated_mcqs) then
           _ <~ lift (m <- first_of translated_mcqs ;;
                      q <- subscript "question" m ;;
                      if negb (is_str (question first) q)
                      then py_slice_to 60 q else Returns q) ;;
           ret (py_take n translated_mcqs)
         else ret (py_take n (map mcq_json english_mcqs))
   end) st = (Returns l, st') ->
  l = fallback_result text n \/ l <> [].
Proof.
  intros Hn. unfold bindM at 1.
  destruct (generate_english_mcqs fuel text n api_key st) as [[english | e |] st1];
    try discriminate.
  destruct english as [| first rest].
  - unfold ret. intros H. inversion H. now left.
  - destruct (String.eqb (lower language) "english").
    + unfold ret. intros H. inversion H. right. cbn [map]. now apply py_take_nonempty.
    + unfold bindM at 1.
      destruct (translate_mcqs_to_language (map mcq_json (first :: rest)) language
                  api_key st1) as [[translated | e |] st2]; try discriminate.
      destruct translated as [| t0 translated]; cbn [is_nil negb].
      * unfold ret. intros H. inversion H. right. cbn [map]. now apply py_take_nonempty.
      * unfold bindM, lift.
        destruct (m <- first_of (t0 :: translated) ;;
                  q <- subscript "question" m ;;
                  (if negb (is_str (question first) q)
                   then py_slice_to 60 q else Returns q)); try discriminate.
        unfold ret. intros H. inversion H. right. now apply py_take_nonempty.
Qed.

(** The body of the [try] block returns or raises once the English
    generator has returned. *)
Lemma make_mcqs_body_fuel (fuel : nat) (text language : string) (n : Z)
    (api_key : string) (st : PState) :
  fst (generate_english_mcqs fuel text n api_key st) <> OutOfFuel ->
  fst ((english_mcqs <~ generate_english_mcqs fuel text n api_key ;;
        match english_mcqs with
        | [] => ret (fallback_result text n)
        | first :: _ =>
            if String.eqb (lower language) "english"
            then ret (py_take n (map mcq_json english_mcqs))
            else
              translated_mcqs <~
                translate_mcqs_to_language (map mcq_json english_mcqs)
                  language api_key ;;
              if negb (is_nil translated_mcqs) then
                _ <~ lift (m <- first_of translated_mcqs ;;
                           q <- subscript "question" m ;;
                           if negb (is_str (question first) q)
                           then py_slice_to 60 q else Returns q) ;;
                ret (py_take n translated_mcqs)
              else ret (py_take n (map mcq_json english_mcqs))
        end) st) <> OutOfFuel.
Proof.
  intros Hgen. unfold bindM at 1.
  destruct (generate_english_mcqs fuel text n api_key st) as [[english | e |] st1];
    cbn [fst] in Hgen; [| discriminate | congruence].
  destruct english as [| first rest]; [discriminate |].
  destruct (String.eqb (lower language) "english"); [discriminate |].
  unfold bindM at 1.
  destruct (translate_mcqs_returns (map mcq_json (first :: rest)) language api_key st1)
    as (out & st2 & Hrun).
  rewrite Hrun.
  destruct out as [| t0 out]; cbn [is_nil negb]; [discriminate |].
  apply fuel_free_bind; repeat fuel_free_step.
Qed.

(** C3, amended: for a count from 5 to 20, [make_mcqs] never raises; it
    returns the empty list when the trimmed text has fewer than 50
    characters, and any other empty result means that the prepared text has
    no trimmed sentence longer than 20 characters; it returns a list
    whenever the English generator returns, and always when no credential
    is configured. *)
Theorem make_mcqs_never_raises (fuel : nat) (text language : string) (n : Z)
    (st : PState) :
  (5 <= n <= 20)%Z ->
  let result := fst (make_mcqs fuel text language n st) in
  (forall e, result <> Raises e)
  /\ (String.length (strip text) < 50 -> result = Returns [])
  /\ (result = Returns [] ->
      String.length (strip text) < 50
      \/ sentences_of (prepare_text (strip text)) = [])
  /\ ((forall api_key,
         configured_key = Some api_key ->
         fst (generate_english_mcqs fuel (prepare_text (strip text)) n api_key st)
         <> OutOfFuel) ->
      exists l, result = Returns l).
Proof.
  intros Hn result. subst result. unfold make_mcqs.
  destruct (String.length (strip text) <? 50)%nat eqn:Hshort.
  - apply Nat.ltb_lt in Hshort. cbn [ret fst].
    repeat split; try discriminate; auto. intros _. now exists [].
  - apply Nat.ltb_ge in Hshort.
    assert (Hfb : fallback_result (prepare_text (strip text)) n = [] ->
                  sentences_of (prepare_text (strip text)) = []).
    { unfold fallback_result. intros H. apply map_eq_nil in H.
      apply (fallback_empty _ n); [lia | assumption]. }
    destruct configured_key as [api_key |] eqn:Hkey.
    + split; [intros e; apply tryM_ret_no_raise |].
      split; [intros Hlt; lia |].
      split.
      * unfold tryM.
        match goal with
        | |- fst (match ?body with _ => _ end) = _ -> _ =>
            destruct body as [[l | e |] st'] eqn:Hbody
        end; cbn [fst ret].
        -- intros Hl. inversion Hl; subst l.
           apply make_mcqs_body_result in Hbody; [| lia].
           destruct Hbody as [Hl' | Hl']; [right; apply Hfb; now symmetry | congruence].
        -- intros Hl. inversion Hl as [Hl']. right. now apply Hfb.
        -- discriminate.
      * intros Hgen. specialize (Hgen api_key eq_refl).
        pose proof (make_mcqs_body_fuel fuel (prepare_text (strip text)) language n
                      api_key st Hgen) as Hbody.
        unfold tryM.
        match goal with
        | |- exists l, fst (match ?body with _ => _ end) = _ =>
            destruct body as [[l | e |] st']
        end; cbn [fst ret] in *; [now exists l | eexists; reflexivity | congruence].
    + cbn [ret fst]. repeat split; try discriminate.
      * intros Hlt; lia.
      * intros Hl. inversion Hl as [Hl']. right. now apply Hfb.
      * intros _. eexists; reflexivity.
Qed.

End OrchestratorProperties.

(** C3 as stated fails: a text of 65 characters made of short sentences
    gives the empty list, here through the fallback generator. *)
Lemma make_mcqs_empty_on_long_text :
  ~ (forall (R : Runtime) fuel text language n st,
        (5 <= n <= 20)%Z ->
        fst (make_mcqs fuel text language n st) = Returns [] ->
        String.length (strip text) < 50).
Proof.
  intros H.
  specialize (H offline_runtime 4 choppy_text "English" 5%Z
                (@mkPState offline_runtime tt []) ltac:(lia) eq_refl).
  assert (Hlen : String.length (strip choppy_text) = 65) by reflexivity.
  rewrite Hlen in H. lia.
Qed.

Lemma make_mcqs_never_raises_witness :
  (5 <= 5 <= 20)%Z
  /\ (forall e,
        fst (@make_mcqs demo_runtime 4 choppy_text "Spanish" 5
               (@mkPState demo_runtime 0 [])) <> Raises e)
  /\ exists l,
       fst (@make_mcqs demo_runtime 4 choppy_text "Spanish" 5
              (@mkPState demo_runtime 0 [])) = Returns l.
Proof.
  assert (Hn : (5 <= 5 <= 20)%Z) by lia.
  split; [assumption |].
  destruct (@make_mcqs_never_raises demo_runtime 4 choppy_text "Spanish" 5
              (@mkPState demo_runtime 0 []) Hn) as (Hraise & _ & _ & Hreturns).
  split; [exact Hraise |].
  apply Hreturns. intros api_key _. vm_compute. discriminate.
Defined.

Example make_mcqs_demo :
  fst (@make_mcqs demo_runtime 4 choppy_text "Spanish" 5
         (@mkPState demo_runtime 0 []))
  = Returns [ mcq_json tidy_mcq; demo_translation; mcq_json tidy_mcq;
              demo_translation ].
Proof. vm_compute; reflexivity. Qed.

(* ================================================================== *)
(** * Further properties of the module *)

(** ** Strings *)

Lemma rstrip_keeps (c : ascii) (t : string) :
  is_space c = false -> rstrip (String c t) = String c (rstrip t).
Proof.
  intros Hc. cbn [rstrip]. destruct (rstrip t); [now rewrite Hc | reflexivity].
Qed.

Lemma rstrip_idem (s : string) : rstrip (rstrip s) = rstrip s.
Proof.
  induction s as [| c t IH]; [reflexivity |].
  cbn [rstrip]. destruct (rstrip t) as [| c' r] eqn:Hr.
  - destruct (is_space c) eqn:Hc; [reflexivity |].
    cbn [rstrip]. now rewrite Hc.
  - cbn [rstrip]. cbn [rstrip] in IH. now rewrite IH.
Qed.

Lemma lstrip_head (s : string) :
  match lstrip s with
  | EmptyString => True
  | String c _ => is_space c = false
  end.
Proof.
  induction s as [| c t IH]; cbn [lstrip]; [exact I |].
  destruct (is_space c) eqn:Hc; [exact IH | exact Hc].
Qed.

Lemma lstrip_fixed (c : ascii) (t : string) :
  is_space c = false -> lstrip (String c t) = String c t.
Proof. intros Hc. cbn [lstrip]. now rewrite Hc. Qed.

(** [strip] is idempotent: what it returns is trimmed. *)
Lemma strip_idem (s : string) : strip (strip s) = strip s.
Proof.
  unfold strip. pose proof (lstrip_head s) as Hhead.
  destruct (lstrip s) as [| c t]; [reflexivity |].
  rewrite (rstrip_keeps c t Hhead), (lstrip_fixed c (rstrip t) Hhead).
  now rewrite (rstrip_keeps c (rstrip t) Hhead), rstrip_idem.
Qed.

Lemma strip_trimmed (s : string) : trimmed (strip s).
Proof. apply strip_idem. Qed.

Lemma lower_empty (s : string) : lower s = EmptyString -> s = EmptyString.
Proof. destruct s; [reflexivity | discriminate]. Qed.

Lemma length_append (s t : string) :
  String.length (s ++ t) = String.length s + String.length t.
Proof. induction s as [| c s IH]; cbn; [reflexivity | now rewrite IH]. Qed.

Lemma length_take (n : nat) (s : string) : String.length (take n s) <= n.
Proof.
  revert s. induction n as [| n IH]; intros [| c s]; cbn; try lia.
  specialize (IH s). lia.
Qed.

(** ** The validator: what an accepted MCQ is made of *)

Lemma get_stripped_trimmed (key default : string) (fields : list (string * json))
    (s : string) :
  get_stripped key default fields = Returns s -> trimmed s.
Proof.
  unfold get_stripped.
  destruct (lookup key fields) as [[| | | | t | |] |]; intros H;
    inversion H; apply strip_trimmed.
Qed.

Lemma get_stripped_outcome (key default : string) (fields : list (string * json)) :
  (exists s, get_stripped key default fields = Returns s)
  \/ get_stripped key default fields = Raises AttributeError.
Proof.
  unfold get_stripped.
  destruct (lookup key fields) as [[| | | | t | |] |]; eauto.
Qed.

(** Every step of an accepting run. *)
Lemma validate_mcq_inversion (fuel : nat) (mcq : json) (m : MCQ) :
  validate_mcq fuel mcq = Returns (Some m) ->
  exists fields q a0 d0 a1 items seen cleaned filled,
    mcq = JObj fields
    /\ get_stripped "question" EmptyString fields = Returns q
    /\ get_stripped "answer" EmptyString fields = Returns a0
    /\ get_stripped "difficulty" "medium" fields = Returns d0
    /\ is_empty q = false
    /\ (exists n, py_len (raw_options fields) = Returns n /\ 4 <= n)
    /\ resolve_answer a0 (raw_options fields) = Returns a1
    /\ py_iter (raw_options fields) = Returns items
    /\ clean_options items [] [] = (seen, cleaned)
    /\ fill_options fuel q a1 seen cleaned = Returns filled
    /\ m = {| question := q;
              answer := if negb (mem a1 filled) then hd EmptyString filled else a1;
              options := firstn 4 filled;
              difficulty :=
                derive_difficulty q
                  (if negb (mem a1 filled) then hd EmptyString filled else a1)
                  (lower d0) |}.
Proof.
  intros H. unfold validate_mcq in H.
  destruct mcq as [| | | | | |fields]; try discriminate H.
  destruct fields as [|f fields]; try discriminate H.
  fold (raw_options (f :: fields)) in H.
  split_outcome H.
  inversion H; subst.
  apply orb_false_iff in E2. destruct E2 as [E2 _].
  apply orb_false_iff in E2. destruct E2 as [Hq _].
  apply Nat.ltb_ge in E4.
  do 9 eexists. repeat split; try eassumption; try reflexivity.
  eexists. split; eassumption.
Qed.

Lemma clean_options_trimmed (items : list json) :
  forall seen cleaned_options seen' cleaned',
    Forall trimmed cleaned_options ->
    clean_options items seen cleaned_options = (seen', cleaned') ->
    Forall trimmed cleaned'.
Proof.
  induction items as [| opt rest IH]; cbn [clean_options];
    intros seen cl seen' cl' Htrim Hrun.
  - now inversion Hrun; subst.
  - repeat match type of Hrun with
           | (if ?b then _ else _) = _ => destruct b
           end; try (now apply (IH _ _ _ _ Htrim Hrun)).
    apply (IH _ _ _ _ (proj2 (Forall_app _ _ _)
                         (conj Htrim (Forall_cons _ (strip_trimmed _) (Forall_nil _))))
              Hrun).
Qed.

Lemma filler_trimmed (question answer : string) (index : nat) :
  trimmed (generate_meaningful_filler question answer index).
Proof.
  assert (H : forallb (fun p => String.eqb (strip p) p)
                      (people ++ capitals ++ years ++ generic) = true)
    by (vm_compute; reflexivity).
  rewrite forallb_forall in H. apply String.eqb_eq, H, filler_from_pools.
Qed.

Lemma fill_options_trimmed (fuel : nat) (question answer : string) :
  forall seen cleaned_options filled,
    Forall trimmed cleaned_options ->
    fill_options fuel question answer seen cleaned_options = Returns filled ->
    Forall trimmed filled.
Proof.
  induction fuel as [| fuel IH]; intros seen cl filled Htrim Hrun;
    cbn [fill_options] in Hrun; destruct (length cl <? 4)%nat;
    try discriminate Hrun; try (now inversion Hrun; subst).
  destruct (negb _).
  - apply (IH _ _ _ (proj2 (Forall_app _ _ _)
                       (conj Htrim (Forall_cons _ (filler_trimmed _ _ _) (Forall_nil _))))
              Hrun).
  - apply (IH _ _ _ Htrim Hrun).
Qed.

Lemma clean_options_length (items : list json) :
  forall seen cleaned_options seen' cleaned',
    clean_options items seen cleaned_options = (seen', cleaned') ->
    length cleaned' <= length cleaned_options + length items.
Proof.
  induction items as [| opt rest IH]; cbn [clean_options length];
    intros seen cl seen' cl' Hrun.
  - inversion Hrun; subst. lia.
  - repeat match type of Hrun with
           | (if ?b then _ else _) = _ => destruct b
           end; apply IH in Hrun; try lia.
    rewrite length_app in Hrun. cbn [length] in Hrun. lia.
Qed.

Lemma fill_options_length (fuel : nat) (question answer : string) :
  forall seen cleaned_options filled,
    fill_options fuel question answer seen cleaned_options = Returns filled ->
    length filled = Nat.max 4 (length cleaned_options).
Proof.
  induction fuel as [| fuel IH]; intros seen cl filled Hrun;
    cbn [fill_options] in Hrun; destruct (length cl <? 4)%nat eqn:Hlen;
    try discriminate Hrun;
    try (inversion Hrun; subst; apply Nat.ltb_ge in Hlen; lia).
  apply Nat.ltb_lt in Hlen. destruct (negb _).
  - apply IH in Hrun. rewrite length_app in Hrun. cbn [length] in Hrun. lia.
  - apply IH in Hrun. lia.
Qed.

Lemma py_iter_length (v : json) (n : nat) (items : list json) :
  py_len v = Returns n -> py_iter v = Returns items -> length items = n.
Proof.
  destruct v; cbn [py_len py_iter]; intros Hn Hi; try discriminate Hn;
    inversion Hn; inversion Hi; subst.
  - induction s as [| c s IH]; cbn; [reflexivity | now rewrite IH].
  - reflexivity.
  - apply length_map.
Qed.

Lemma derive_difficulty_canonical (q a d : string) :
  In (derive_difficulty q a d) [ "easy"; "medium"; "hard" ].
Proof.
  unfold derive_difficulty. destruct (canonical_difficulty d) eqn:Hd; cbn [negb].
  - apply mem_In. exact Hd.
  - repeat match goal with |- context [if ?b then _ else _] => destruct b end;
      cbn; tauto.
Qed.

(** The facts that hold of every accepted MCQ, gathered once. *)
Lemma validate_mcq_output (fuel : nat) (mcq : json) (m : MCQ) :
  validate_mcq fuel mcq = Returns (Some m) ->
  exists filled,
    options m = firstn 4 filled
    /\ 4 <= length filled
    /\ In (answer m) filled
    /\ Forall option_ok filled
    /\ Forall trimmed filled
    /\ NoDup (map lower filled)
    /\ (trimmed (question m) /\ question m <> EmptyString)
    /\ In (difficulty m) [ "easy"; "medium"; "hard" ].
Proof.
  intros H. apply validate_mcq_inversion in H.
  destruct H as (fields & q & a0 & d0 & a1 & items & seen & cleaned & filled
                 & -> & Hq & Ha0 & Hd0 & Hqne & _ & Hres & Hiter & Hclean & Hfill & ->).
  exists filled. cbn [question answer options difficulty].
  pose proof (clean_options_inv _ _ _ _ _ clean_inv_nil Hclean) as Hinv.
  pose proof (clean_options_trimmed _ _ _ _ _ (Forall_nil _) Hclean) as Htrim.
  pose proof (fill_options_trimmed _ _ _ _ _ _ Htrim Hfill) as Htrim'.
  destruct (fill_options_inv _ _ _ _ _ _ Hinv Hfill) as [(seen' & Hok & Hnd & _) Hlen].
  repeat split; try assumption.
  - destruct (mem a1 filled) eqn:Hmem; cbn [negb].
    + now apply mem_In.
    + destruct filled; [cbn in Hlen; lia | now left].
  - eapply get_stripped_trimmed; eassumption.
  - now apply is_empty_false.
  - apply derive_difficulty_canonical.
Qed.

Lemma get_stripped_text (key default : string) (fields : list (string * json)) :
  text_field key fields ->
  get_stripped key default fields = Returns (strip (field_text key default fields)).
Proof.
  unfold text_field, get_stripped, field_text.
  destruct (lookup key fields) as [[| | | | t | |] |]; intros H;
    solve [reflexivity | destruct H].
Qed.

(** X1: a raw MCQ whose text fields are strings (or absent) and whose
    options have fewer than four entries is rejected, never padded. *)
Theorem validate_mcq_rejects_fewer_than_four (fuel : nat)
    (fields : list (string * json)) (n : nat) :
  text_field "question" fields ->
  text_field "answer" fields ->
  text_field "difficulty" fields ->
  py_len (raw_options fields) = Returns n ->
  n < 4 ->
  validate_mcq fuel (JObj fields) = Returns None.
Proof.
  intros Hq Ha Hd Hlen Hn. unfold validate_mcq.
  destruct fields as [| f fields]; [reflexivity |].
  fold (raw_options (f :: fields)).
  rewrite (get_stripped_text _ _ _ Hq), (get_stripped_text _ _ _ Ha),
    (get_stripped_text _ _ _ Hd).
  cbn [bind]. rewrite Hlen. cbn [bind].
  apply Nat.ltb_lt in Hn. rewrite Hn.
  now destruct (_ || _ || _).
Qed.

Lemma validate_mcq_rejects_fewer_than_four_witness :
  validate_mcq 4 three_option_mcq = Returns None.
Proof.
  apply (validate_mcq_rejects_fewer_than_four 4 _ 3);
    try exact I; [reflexivity | lia].
Defined.

(** X2: a raw MCQ whose question or answer is missing or blank, or whose
    options are missing or empty, is rejected, whatever else it holds. *)
Theorem validate_mcq_rejects_blank (fuel : nat) (fields : list (string * json)) :
  text_field "question" fields ->
  text_field "answer" fields ->
  text_field "difficulty" fields ->
  strip (field_text "question" EmptyString fields) = EmptyString
  \/ strip (field_text "answer" EmptyString fields) = EmptyString
  \/ truthy (raw_options fields) = false ->
  validate_mcq fuel (JObj fields) = Returns None.
Proof.
  intros Hq Ha Hd Hblank. unfold validate_mcq.
  destruct fields as [| f fields]; [reflexivity |].
  fold (raw_options (f :: fields)).
  rewrite (get_stripped_text _ _ _ Hq), (get_stripped_text _ _ _ Ha),
    (get_stripped_text _ _ _ Hd).
  cbn [bind].
  destruct Hblank as [-> | [-> | ->]]; cbn [is_empty negb orb];
    rewrite ?orb_true_r; reflexivity.
Qed.

Lemma validate_mcq_rejects_blank_witness :
  validate_mcq 4 blank_question_mcq = Returns None.
Proof.
  apply validate_mcq_rejects_blank; try exact I. left. reflexivity.
Defined.

(** X3: when the question, the answer or the difficulty is present and is
    not a string, the validator raises [AttributeError], also when the rest
    of the MCQ is well formed: the default difficulty stands in for a
    missing key only. *)
Theorem validate_mcq_raises_on_non_text (fuel : nat)
    (fields : list (string * json)) (key : string) (v : json) :
  In key [ "question"; "answer"; "difficulty" ] ->
  lookup key fields = Some v ->
  (forall s, v <> JStr s) ->
  validate_mcq fuel (JObj fields) = Raises AttributeError.
Proof.
  intros Hkey Hlook Hv.
  assert (Hraise : forall default, get_stripped key default fields = Raises AttributeError).
  { intros default. unfold get_stripped. rewrite Hlook.
    destruct v; try reflexivity. now destruct (Hv s). }
  unfold validate_mcq.
  destruct fields as [| f fields]; [discriminate Hlook |].
  destruct Hkey as [<- | [<- | [<- | []]]].
  - now rewrite Hraise.
  - destruct (get_stripped_outcome "question" EmptyString (f :: fields)) as [[q ->] | ->];
      cbn [bind]; [now rewrite Hraise | reflexivity].
  - destruct (get_stripped_outcome "question" EmptyString (f :: fields)) as [[q ->] | ->];
      cbn [bind]; [| reflexivity].
    destruct (get_stripped_outcome "answer" EmptyString (f :: fields)) as [[a ->] | ->];
      cbn [bind]; [now rewrite Hraise | reflexivity].
Qed.

Lemma validate_mcq_raises_on_non_text_witness :
  validate_mcq 4 null_difficulty_mcq = Raises AttributeError.
Proof.
  apply (validate_mcq_raises_on_non_text 4 _ "difficulty" JNull);
    [right; right; left; reflexivity | reflexivity | discriminate].
Defined.

(** X4: the difficulty of an accepted MCQ is always one of the three
    canonical labels, whatever the raw one was. *)
Theorem validate_mcq_difficulty_canonical (fuel : nat) (mcq : json) (m : MCQ) :
  validate_mcq fuel mcq = Returns (Some m) ->
  In (difficulty m) [ "easy"; "medium"; "hard" ].
Proof.
  intros H. apply validate_mcq_output in H.
  destruct H as (filled & _ & _ & _ & _ & _ & _ & _ & Hd). exact Hd.
Qed.

Lemma validate_mcq_difficulty_canonical_witness :
  validate_mcq 4 repaired_mcq
  = Returns (Some {| question := "Which planet is red?"; answer := "MARS";
                     options := [ "Venus"; "MARS"; "Earth";
                                  "A similar but distinct element" ];
                     difficulty := "easy" |})
  /\ In "easy" [ "easy"; "medium"; "hard" ].
Proof.
  split; [vm_compute; reflexivity |].
  apply (validate_mcq_difficulty_canonical 4 repaired_mcq
           {| question := "Which planet is red?"; answer := "MARS";
              options := [ "Venus"; "MARS"; "Earth";
                           "A similar but distinct element" ];
              difficulty := "easy" |}).
  vm_compute; reflexivity.
Defined.

(** X5: the question and the answer of an accepted MCQ are trimmed and not
    empty, and the answer holds no denylisted phrase. *)
Theorem validate_mcq_texts_clean (fuel : nat) (mcq : json) (m : MCQ) :
  validate_mcq fuel mcq = Returns (Some m) ->
  (trimmed (question m) /\ question m <> EmptyString)
  /\ (trimmed (answer m) /\ answer m <> EmptyString
      /\ contains_any vague_terms (lower (answer m)) = false).
Proof.
  intros H. apply validate_mcq_output in H.
  destruct H as (filled & _ & _ & Hin & Hok & Htrim & _ & Hq & _).
  split; [exact Hq |].
  rewrite Forall_forall in Hok, Htrim.
  destruct (Hok _ Hin) as [Hne Hvague]. repeat split; auto.
Qed.

Lemma validate_mcq_texts_clean_witness :
  validate_mcq 4 repaired_mcq = Returns (Some repaired_result)
  /\ (trimmed (question repaired_result) /\ question repaired_result <> EmptyString)
  /\ (trimmed (answer repaired_result) /\ answer repaired_result <> EmptyString
      /\ contains_any vague_terms (lower (answer repaired_result)) = false).
Proof.
  assert (Hrun : validate_mcq 4 repaired_mcq = Returns (Some repaired_result))
    by (vm_compute; reflexivity).
  split; [exact Hrun |].
  exact (validate_mcq_texts_clean 4 repaired_mcq repaired_result Hrun).
Defined.

(** X6: when the raw options have exactly four entries, the answer of an
    accepted MCQ is one of its options. *)
Theorem validate_mcq_answer_member_of_four (fuel : nat)
    (fields : list (string * json)) (m : MCQ) :
  py_len (raw_options fields) = Returns 4 ->
  validate_mcq fuel (JObj fields) = Returns (Some m) ->
  In (answer m) (options m).
Proof.
  intros Hfour H. apply validate_mcq_inversion in H.
  destruct H as (fields' & q & a0 & d0 & a1 & items & seen & cleaned & filled
                 & Heq & _ & _ & _ & _ & _ & _ & Hiter & Hclean & Hfill & ->).
  inversion Heq; subst fields'.
  pose proof (py_iter_length _ _ _ Hfour Hiter) as Hitems.
  pose proof (clean_options_length _ _ _ _ _ Hclean) as Hcl. cbn [length] in Hcl.
  pose proof (fill_options_length _ _ _ _ _ _ Hfill) as Hlen.
  assert (Hfilled : length filled = 4) by lia.
  cbn [answer options]. rewrite firstn_all2 by lia.
  destruct (mem a1 filled) eqn:Hmem; cbn [negb].
  - now apply mem_In.
  - destruct filled; [discriminate Hfilled | now left].
Qed.

Lemma validate_mcq_answer_member_of_four_witness :
  validate_mcq 4 repaired_mcq = Returns (Some repaired_result)
  /\ In (answer repaired_result) (options repaired_result).
Proof.
  assert (Hrun : validate_mcq 4 repaired_mcq = Returns (Some repaired_result))
    by (vm_compute; reflexivity).
  split; [exact Hrun |].
  refine (validate_mcq_answer_member_of_four 4 _ repaired_result _ Hrun).
  reflexivity.
Defined.

(** A record that satisfies the data model, with trimmed non-empty options,
    is returned as it is. *)
Lemma revalidate_fixed (fuel : nat) (m : MCQ) :
  data_model_valid m ->
  options_trimmed m ->
  validate_mcq fuel (mcq_json m) = Returns (Some m).
Proof.
  intros [[Hq Hqne] [Ha Hane] Hfour Hnd Hdeny Hmem Hdiff] Htrim.
  destruct m as [q a opts d]. unfold options_trimmed in Htrim.
  cbn [question answer options difficulty] in *.
  destruct (canonical_fixed d Hdiff) as [Hd Hcanon].
  apply is_empty_false in Hqne, Hane.
  destruct (clean_options_keep opts [] []) as [seen Hclean];
    [ | assumption | intros o _ [] | ].
  { rewrite Forall_forall in *. intros o Ho. split; [now apply Htrim | now apply Hdeny]. }
  unfold validate_mcq, mcq_json, raw_mcq.
  cbn [question answer options difficulty].
  unfold get_stripped, bind.
  cbn [lookup String.eqb Ascii.eqb Bool.eqb].
  rewrite Hq, Ha. unfold strip in Hd. unfold strip at 1. rewrite Hd.
  rewrite Hqne, Hane.
  cbn [truthy py_len orb]. rewrite length_map, Hfour.
  destruct opts as [| o1 opts]; [discriminate Hfour |].
  cbn [map negb Nat.ltb Nat.leb].
  unfold resolve_answer, bind. cbn [str_in].
  change (JStr o1 :: map JStr opts) with (map JStr (o1 :: opts)).
  rewrite (existsb_is_str a (o1 :: opts) Hmem).
  cbn [py_iter]. rewrite Hclean. cbn [app].
  assert (Hfill : fill_options fuel q a seen (o1 :: opts) = Returns (o1 :: opts)).
  { destruct fuel; cbn [fill_options]; rewrite Hfour; reflexivity. }
  rewrite Hfill.
  apply mem_In in Hmem. rewrite Hmem. cbn [negb].
  rewrite firstn_all2 by (rewrite Hfour; constructor).
  unfold derive_difficulty. rewrite Hcanon. reflexivity.
Qed.

(** X7: validating again changes nothing.  An accepted MCQ whose answer is
    among its options is returned unchanged when it is given back to the
    validator, with any fuel. *)
Theorem validate_mcq_twice (fuel fuel' : nat) (mcq : json) (m : MCQ) :
  validate_mcq fuel mcq = Returns (Some m) ->
  In (answer m) (options m) ->
  validate_mcq fuel' (mcq_json m) = Returns (Some m).
Proof.
  intros H Hmem. apply validate_mcq_output in H.
  destruct H as (filled & Hopts & Hlen & Hin & Hok & Htrim & Hnd & Hq & Hd).
  assert (Hsub : forall P : string -> Prop, Forall P filled -> Forall P (options m))
    by (intros P HP; rewrite Hopts; now apply Forall_firstn).
  pose proof (Hsub _ Hok) as Hok'. pose proof (Hsub _ Htrim) as Htrim'.
  rewrite Forall_forall in Hok', Htrim'.
  apply revalidate_fixed.
  - constructor; try assumption.
    + destruct (Hok' _ Hmem) as [Hne _]. split; [now apply Htrim' | exact Hne].
    + rewrite Hopts, length_firstn. lia.
    + rewrite Hopts, <- firstn_map. now apply NoDup_firstn.
    + apply Forall_forall. intros o Ho. now destruct (Hok' _ Ho).
  - apply Forall_forall. intros o Ho.
    destruct (Hok' _ Ho) as [Hne _]. split; [now apply Htrim' | exact Hne].
Qed.

Lemma validate_mcq_twice_witness :
  (validate_mcq 4 repaired_mcq = Returns (Some repaired_result)
   /\ In (answer repaired_result) (options repaired_result))
  /\ validate_mcq 0 (mcq_json repaired_result) = Returns (Some repaired_result).
Proof.
  assert (Hrun : validate_mcq 4 repaired_mcq = Returns (Some repaired_result))
    by (vm_compute; reflexivity).
  assert (Hmem : In (answer repaired_result) (options repaired_result))
    by (right; left; reflexivity).
  split; [split; assumption |].
  exact (validate_mcq_twice 4 0 repaired_mcq repaired_result Hrun Hmem).
Defined.

(** ** The validator: where the options come from *)

Lemma filler_from_pool (question answer : string) (index : nat) :
  generate_meaningful_filler question answer index = pick (pool_of question) index.
Proof.
  unfold generate_meaningful_filler, pool_of.
  repeat match goal with |- context [if ?b then _ else _] => destruct b end;
    reflexivity.
Qed.

Lemma pool_of_cases (question : string) : In (pool_of question) filler_pools.
Proof.
  unfold pool_of, filler_pools.
  repeat match goal with |- context [if ?b then _ else _] => destruct b end;
    cbn; tauto.
Qed.

Lemma pool_facts (pool : list string) :
  In pool filler_pools -> length pool = 4 /\ NoDup (map lower pool).
Proof.
  intros [<- | [<- | [<- | [<- | []]]]]; (split; [reflexivity |]);
    cbv; repeat constructor; cbn; intuition discriminate.
Qed.

Lemma subseq_refl_nil {A : Type} (l : list A) : subseq [] l.
Proof. induction l; constructor; assumption. Qed.

Lemma clean_options_subseq (items : list json) :
  forall seen cleaned_options seen' cleaned',
    clean_options items seen cleaned_options = (seen', cleaned') ->
    exists kept,
      cleaned' = (cleaned_options ++ kept)%list
      /\ subseq kept (map (fun x => strip (py_str x)) items).
Proof.
  induction items as [| opt rest IH]; cbn [clean_options map];
    intros seen cl seen' cl' Hrun.
  - inversion Hrun; subst. exists []. rewrite app_nil_r. split; constructor.
  - repeat match type of Hrun with
           | (if ?b then _ else _) = _ => destruct b
           end;
      apply IH in Hrun; destruct Hrun as (kept & -> & Hsub).
    1-3: exists kept; split; [reflexivity | now constructor].
    exists (strip (py_str opt) :: kept). rewrite <- app_assoc.
    split; [reflexivity | now constructor].
Qed.

Lemma fill_options_fillers (fuel : nat) (question answer : string) :
  forall seen cleaned_options filled,
    fill_options fuel question answer seen cleaned_options = Returns filled ->
    exists fillers,
      filled = (cleaned_options ++ fillers)%list
      /\ Forall (fun f => In f (pool_of question)) fillers.
Proof.
  induction fuel as [| fuel IH]; intros seen cl filled Hrun;
    cbn [fill_options] in Hrun; destruct (length cl <? 4)%nat;
    try discriminate Hrun;
    try (inversion Hrun; subst; exists []; rewrite app_nil_r; split; constructor).
  destruct (negb _).
  - apply IH in Hrun. destruct Hrun as (fillers & -> & Hall).
    exists (generate_meaningful_filler question answer (length cl) :: fillers).
    rewrite <- app_assoc. split; [reflexivity |].
    constructor; [| assumption].
    rewrite filler_from_pool. apply pick_In.
    destruct (pool_facts _ (pool_of_cases question)) as [Hlen _].
    destruct (pool_of question); [discriminate Hlen | discriminate].
  - now apply IH in Hrun.
Qed.

(** X8: the options of an accepted MCQ are the raw options that survive
    cleaning, stripped, in their raw order, followed by fillers drawn from
    the pool of the question; the list is then cut to four. *)
Theorem validate_mcq_options_origin (fuel : nat) (fields : list (string * json))
    (items : list json) (m : MCQ) :
  py_iter (raw_options fields) = Returns items ->
  validate_mcq fuel (JObj fields) = Returns (Some m) ->
  exists kept fillers,
    options m = firstn 4 (kept ++ fillers)
    /\ subseq kept (map (fun x => strip (py_str x)) items)
    /\ Forall (fun f => In f (pool_of (question m))) fillers.
Proof.
  intros Hitems H. apply validate_mcq_inversion in H.
  destruct H as (fields' & q & a0 & d0 & a1 & items' & seen & cleaned & filled
                 & Heq & _ & _ & _ & _ & _ & _ & Hiter & Hclean & Hfill & ->).
  inversion Heq; subst fields'. rewrite Hitems in Hiter. inversion Hiter; subst items'.
  apply clean_options_subseq in Hclean. destruct Hclean as (kept & -> & Hsub).
  apply fill_options_fillers in Hfill. destruct Hfill as (fillers & -> & Hall).
  exists kept, fillers. cbn [options question app]. auto.
Qed.

Lemma validate_mcq_options_origin_witness :
  (py_iter (JArr (map JStr [ "Venus"; "MARS"; "Not this planet"; "Earth" ]))
   = Returns (map JStr [ "Venus"; "MARS"; "Not this planet"; "Earth" ])
   /\ validate_mcq 4 repaired_mcq = Returns (Some repaired_result))
  /\ exists kept fillers,
       options repaired_result = firstn 4 (kept ++ fillers)
       /\ subseq kept
            (map (fun x => strip (py_str x))
                 (map JStr [ "Venus"; "MARS"; "Not this planet"; "Earth" ]))
       /\ Forall (fun f => In f (pool_of (question repaired_result))) fillers.
Proof.
  assert (Hrun : validate_mcq 4 repaired_mcq = Returns (Some repaired_result))
    by (vm_compute; reflexivity).
  split; [split; [reflexivity | exact Hrun] |].
  refine (validate_mcq_options_origin 4 _ _ repaired_result _ Hrun).
  reflexivity.
Defined.

(** ** The validator: fuel and termination *)

Lemma fill_options_more_fuel (question answer : string) (fuel : nat) :
  forall seen cleaned_options filled,
    fill_options fuel question answer seen cleaned_options = Returns filled ->
    fill_options (S fuel) question answer seen cleaned_options = Returns filled.
Proof.
  induction fuel as [| fuel IH]; intros seen cl filled Hrun.
  - cbn [fill_options] in *. destruct (length cl <? 4)%nat;
      [discriminate Hrun | assumption].
  - remember (S fuel) as fuel1. cbn [fill_options]. subst fuel1.
    cbn [fill_options] in Hrun.
    destruct (length cl <? 4)%nat; [| assumption].
    destruct (negb _); now apply IH.
Qed.

Lemma fill_options_no_raise (question answer : string) (fuel : nat) :
  forall seen cleaned_options e,
    fill_options fuel question answer seen cleaned_options <> Raises e.
Proof.
  induction fuel as [| fuel IH]; intros seen cl e; cbn [fill_options];
    destruct (length cl <? 4)%nat; try discriminate.
  destruct (negb _); apply IH.
Qed.

Lemma validate_mcq_more_fuel (fuel : nat) (mcq : json) :
  validate_mcq fuel mcq <> OutOfFuel ->
  validate_mcq (S fuel) mcq = validate_mcq fuel mcq.
Proof.
  unfold validate_mcq.
  destruct mcq as [| | | | | |fields]; try reflexivity.
  destruct fields as [| f fields]; try reflexivity.
  unfold bind.
  repeat match goal with
         | |- _ -> match ?x with _ => _ end = match ?x with _ => _ end =>
             destruct x; try reflexivity
         | |- _ -> (if ?b then _ else _) = (if ?b then _ else _) =>
             destruct b; try reflexivity
         end.
  match goal with
  | |- context [fill_options fuel ?q ?a ?s ?c] =>
      destruct (fill_options fuel q a s c) as [filled | e |] eqn:Hfill
  end.
  - now rewrite (fill_options_more_fuel _ _ _ _ _ _ Hfill).
  - now apply fill_options_no_raise in Hfill.
  - intros H. now destruct H.
Qed.

Lemma validate_mcq_add_fuel (k fuel : nat) (mcq : json) :
  validate_mcq fuel mcq <> OutOfFuel ->
  validate_mcq (k + fuel) mcq = validate_mcq fuel mcq.
Proof.
  intros H. induction k as [| k IH]; [reflexivity |].
  cbn [Nat.add]. rewrite validate_mcq_more_fuel; [exact IH | now rewrite IH].
Qed.

(** X9: the fuel only has to be enough.  A result obtained with some fuel
    is obtained with every larger fuel, and with every fuel from 4 on: the
    filler loop ends within four iterations or not at all. *)
Theorem validate_mcq_fuel_independent (fuel fuel' : nat) (mcq : json) :
  validate_mcq fuel mcq <> OutOfFuel ->
  fuel <= fuel' \/ 4 <= fuel' ->
  validate_mcq fuel' mcq = validate_mcq fuel mcq.
Proof.
  intros H [Hle | Hfour].
  - replace fuel' with ((fuel' - fuel) + fuel) by lia.
    now apply validate_mcq_add_fuel.
  - rewrite <- (validate_mcq_add_fuel fuel' fuel mcq H).
    rewrite (validate_mcq_fuel (fuel' + fuel)) by lia.
    now rewrite (validate_mcq_fuel fuel').
Qed.

Lemma validate_mcq_fuel_independent_witness :
  (validate_mcq 1 repaired_mcq <> OutOfFuel /\ (1 <= 7 \/ 4 <= 7))
  /\ validate_mcq 7 repaired_mcq = validate_mcq 1 repaired_mcq.
Proof.
  assert (H : validate_mcq 1 repaired_mcq <> OutOfFuel)
    by (vm_compute; discriminate).
  assert (Hle : 1 <= 7 \/ 4 <= 7) by (left; lia).
  split; [split; assumption |].
  exact (validate_mcq_fuel_independent 1 7 repaired_mcq H Hle).
Defined.

Lemma clean_options_seen (items : list json) :
  forall seen cleaned_options seen' cleaned',
    clean_options items seen cleaned_options = (seen', cleaned') ->
    forall x, In x seen' ->
              In x seen \/ In x (map (fun i => lower (strip (py_str i))) items).
Proof.
  induction items as [| opt rest IH]; cbn [clean_options map];
    intros seen cl seen' cl' Hrun x Hx.
  - inversion Hrun; subst. now left.
  - repeat match type of Hrun with
           | (if ?b then _ else _) = _ => destruct b
           end;
      destruct (IH _ _ _ _ Hrun x Hx) as [Hin | Hin];
      try (now left); try (right; now right).
    destruct Hin as [<- | Hin]; [right; now left | now left].
Qed.

(** The filler loop ends when no string in [seen] is the lowercase form of
    a member of the question's pool, the fillers already appended apart. *)
Lemma fill_options_returns (question answer : string) (fuel : nat) :
  forall seen cleaned_options,
    (forall x, In x seen ->
               ~ In x (map lower (pool_of question))
               \/ exists j, j < length cleaned_options
                            /\ x = lower (nth j (pool_of question) EmptyString)) ->
    4 - length cleaned_options <= fuel ->
    exists filled,
      fill_options fuel question answer seen cleaned_options = Returns filled.
Proof.
  destruct (pool_facts _ (pool_of_cases question)) as [Hlen Hnd].
  induction fuel as [| fuel IH]; intros seen cl Hseen Hfuel; cbn [fill_options];
    destruct (length cl <? 4)%nat eqn:Hcl; try (eexists; reflexivity).
  - apply Nat.ltb_lt in Hcl. lia.
  - apply Nat.ltb_lt in Hcl.
    assert (Hfiller : generate_meaningful_filler question answer (length cl)
                      = nth (length cl) (pool_of question) EmptyString).
    { rewrite filler_from_pool. unfold pick. rewrite Hlen.
      now rewrite Nat.mod_small. }
    rewrite Hfiller.
    assert (Hfresh : mem (lower (nth (length cl) (pool_of question) EmptyString)) seen
                     = false).
    { apply mem_false. intros Hin. destruct (Hseen _ Hin) as [Hout | (j & Hj & Heq)].
      - apply Hout. apply in_map, nth_In. lia.
      - change (lower (nth (length cl) (pool_of question) EmptyString))
          with ((fun s => lower s) (nth (length cl) (pool_of question) EmptyString)) in Heq.
        rewrite <- !(map_nth lower) in Heq.
        apply (proj1 (NoDup_nth _ _) Hnd) in Heq; rewrite ?length_map; lia. }
    rewrite Hfresh. cbn [negb]. apply IH.
    + intros x [<- | Hx].
      * right. exists (length cl). rewrite length_app. cbn [length]. split; [lia | reflexivity].
      * destruct (Hseen _ Hx) as [Hout | (j & Hj & Heq)]; [now left |].
        right. exists j. rewrite length_app. cbn [length]. split; [lia | exact Heq].
    + rewrite length_app. cbn [length]. lia.
Qed.

Lemma match_case_strings (answer_lower : string) (opts : list string) :
  match_case answer_lower (map JStr opts)
  = Returns (find (fun o => String.eqb (lower o) answer_lower) opts).
Proof.
  induction opts as [| o rest IH]; cbn [map match_case find]; [reflexivity |].
  destruct (String.eqb (lower o) answer_lower); [reflexivity | exact IH].
Qed.

Lemma str_in_strings (a : string) (opts : list string) :
  str_in a (JArr (map JStr opts)) = Returns (mem a opts).
Proof.
  cbn [str_in]. f_equal. unfold mem.
  induction opts as [| o rest IH]; cbn [map existsb is_str]; [reflexivity |].
  now rewrite IH, String.eqb_sym.
Qed.

(** X10: how the answer is matched against a list of string options.  The
    result is always one of the raw options: the answer itself when it is
    among them; else the first option equal to it up to case, the options
    being compared as they are, untrimmed; else the first option. *)
Theorem resolve_answer_strings (a : string) (opts : list string) :
  opts <> [] ->
  exists r,
    resolve_answer a (JArr (map JStr opts)) = Returns r
    /\ In r opts
    /\ (In a opts -> r = a)
    /\ (~ In a opts ->
        match find (fun o => String.eqb (lower o) (lower a)) opts with
        | Some o => r = o
        | None => r = hd EmptyString opts
        end).
Proof.
  intros Hne. unfold resolve_answer. rewrite str_in_strings. cbn [bind].
  destruct (mem a opts) eqn:Hmem.
  - apply mem_In in Hmem. exists a. repeat split; auto. intros Hn. now destruct Hn.
  - apply mem_false in Hmem. cbn [py_iter bind]. rewrite match_case_strings. cbn [bind].
    destruct (find (fun o => String.eqb (lower o) (lower a)) opts) as [o |] eqn:Hfind.
    + exists o. apply find_some in Hfind. repeat split; try tauto.
    + destruct opts as [| o1 rest]; [congruence |].
      exists o1. cbn [map first_item bind hd]. repeat split; auto.
      * now left.
      * intros Hin. now destruct Hmem.
Qed.

Lemma resolve_answer_strings_witness :
  [ "Venus"; " Mars " ] <> []
  /\ resolve_answer "mars" (JArr (map JStr [ "Venus"; " Mars " ])) = Returns "Venus".
Proof.
  assert (Hne : [ "Venus"; " Mars " ] <> []) by discriminate.
  split; [exact Hne |].
  destruct (resolve_answer_strings "mars" [ "Venus"; " Mars " ] Hne)
    as (r & Hrun & _ & _ & Helse).
  rewrite Hrun. f_equal. apply Helse.
  cbn. intros [H | [H | []]]; discriminate H.
Defined.

Lemma resolve_answer_returns (a : string) (opts : list string) :
  opts <> [] -> exists r, resolve_answer a (JArr (map JStr opts)) = Returns r.
Proof.
  intros Hne. unfold resolve_answer. rewrite str_in_strings. cbn [bind].
  destruct (mem a opts); [now exists a |].
  cbn [py_iter bind]. rewrite match_case_strings. cbn [bind].
  destruct (find _ opts) as [o |]; [now exists o |].
  destruct opts as [| o1 rest]; [congruence | now exists o1].
Qed.

(** X11: the validator returns, accepting or rejecting, on every raw MCQ
    with string fields none of whose options is, once stripped and
    lowercased, the lowercase form of a member of the question's filler
    pool. *)
Theorem validate_mcq_returns_without_collision (fuel : nat) (q a d : string)
    (opts : list string) :
  4 <= fuel ->
  (forall o p, In o opts -> In p (pool_of (strip q)) ->
               lower (strip o) <> lower p) ->
  exists r, validate_mcq fuel (raw_mcq q a opts d) = Returns r.
Proof.
  intros Hfuel Hfree. unfold validate_mcq, raw_mcq, get_stripped.
  cbn [lookup String.eqb Ascii.eqb Bool.eqb bind].
  destruct (is_empty (strip q) || is_empty (strip a)
            || negb (truthy (JArr (map JStr opts)))); [now eexists |].
  cbn [py_len bind].
  destruct (length (map JStr opts) <? 4)%nat eqn:Hlen; [now eexists |].
  assert (Hne : opts <> []).
  { intros ->. discriminate Hlen. }
  destruct (resolve_answer_returns (strip a) opts Hne) as [a1 ->].
  cbn [bind py_iter].
  destruct (clean_options (map JStr opts) [] []) as [seen cleaned] eqn:Hclean.
  destruct (fill_options_returns (strip q) a1 fuel seen cleaned) as [filled ->];
    [| lia | now eexists].
  intros x Hx. left.
  destruct (clean_options_seen _ _ _ _ _ Hclean x Hx) as [[] | Hin].
  rewrite map_map in Hin. cbn [py_str] in Hin.
  apply in_map_iff in Hin. destruct Hin as (o & <- & Ho).
  intros Hpool. apply in_map_iff in Hpool. destruct Hpool as (p & Heq & Hp).
  now apply (Hfree o p Ho Hp).
Qed.

Lemma validate_mcq_returns_without_collision_witness :
  (4 <= 4
   /\ forall o p, In o [ "Venus"; "MARS"; "Not this planet"; "Earth" ] ->
                  In p (pool_of (strip " Which planet is red? ")) ->
                  lower (strip o) <> lower p)
  /\ exists r, validate_mcq 4 repaired_mcq = Returns r.
Proof.
  assert (Hfree : forall o p,
             In o [ "Venus"; "MARS"; "Not this planet"; "Earth" ] ->
             In p (pool_of (strip " Which planet is red? ")) ->
             lower (strip o) <> lower p).
  { intros o p Ho Hp. cbv in Hp.
    destruct Ho as [<- | [<- | [<- | [<- | []]]]];
      destruct Hp as [<- | [<- | [<- | [<- | []]]]]; cbv; discriminate. }
  split; [split; [lia | exact Hfree] |].
  exact (validate_mcq_returns_without_collision 4 _ _ _ _ (le_n 4) Hfree).
Defined.

(* ------------------------------------------------------------------ *)
(** ** The fallback generator: what its MCQs look like *)

Lemma fallback_member (text : string) (n : Z) (m : MCQ) :
  In m (generate_fallback_mcqs text n) ->
  exists i, i < length (sentences_of text)
            /\ m = fallback_mcq (sentences_of text) i.
Proof.
  rewrite generate_fallback_mcqs_map. intros H.
  apply in_map_iff in H. destruct H as (i & <- & Hi).
  apply in_seq in Hi. exists i. split; [lia | reflexivity].
Qed.

Lemma sentences_of_member (text s : string) :
  In s (sentences_of text) -> trimmed s /\ 20 < String.length s.
Proof.
  unfold sentences_of. intros H. apply in_map_iff in H.
  destruct H as (piece & <- & Hpiece). apply filter_In in Hpiece.
  destruct Hpiece as [_ Hlen]. apply Nat.ltb_lt in Hlen.
  split; [apply strip_trimmed | exact Hlen].
Qed.

(** X12: every MCQ of the fallback generator carries the fixed option
    "A different concept from the text", whose lowercase form contains the
    denylisted phrase "different concept"; so the validator never returns a
    fallback MCQ as it is. *)
Theorem fallback_mcq_not_validator_clean (fuel : nat) (text : string) (n : Z)
    (m : MCQ) :
  In m (generate_fallback_mcqs text n) ->
  (exists o, In o (options m) /\ contains_any vague_terms (lower o) = true)
  /\ validate_mcq fuel (mcq_json m) <> Returns (Some m).
Proof.
  intros H. apply fallback_member in H. destruct H as (i & _ & ->).
  assert (Hvague : exists o,
             In o (options (fallback_mcq (sentences_of text) i))
             /\ contains_any vague_terms (lower o) = true).
  { exists "A different concept from the text". split.
    - cbn [fallback_mcq options]. right. left. reflexivity.
    - vm_compute. reflexivity. }
  split; [exact Hvague |].
  intros Hrun. apply validate_mcq_output in Hrun.
  destruct Hrun as (filled & Hopts & _ & _ & Hok & _).
  destruct Hvague as (o & Ho & Hv).
  rewrite Hopts in Ho.
  pose proof (Forall_firstn _ 4 _ Hok) as Hok'. rewrite Forall_forall in Hok'.
  destruct (Hok' _ Ho) as [_ Hclean]. congruence.
Qed.

Lemma fallback_mcq_not_validator_clean_witness :
  In (fallback_mcq (sentences_of turing_text) 0)
     (generate_fallback_mcqs turing_text 5)
  /\ validate_mcq 4 (mcq_json (fallback_mcq (sentences_of turing_text) 0))
     <> Returns (Some (fallback_mcq (sentences_of turing_text) 0)).
Proof.
  assert (Hin : In (fallback_mcq (sentences_of turing_text) 0)
                   (generate_fallback_mcqs turing_text 5))
    by (vm_compute; left; reflexivity).
  split; [exact Hin |].
  exact (proj2 (fallback_mcq_not_validator_clean 4 turing_text 5 _ Hin)).
Defined.

(** X13: in every MCQ of the fallback generator the answer is a trimmed
    sentence of more than 20 characters, the question has at most 132
    characters and quotes the answer in full when it has at most 100, the
    difficulty is "medium" and there are four options. *)
Theorem fallback_mcq_bounds (text : string) (n : Z) (m : MCQ) :
  In m (generate_fallback_mcqs text n) ->
  trimmed (answer m)
  /\ 20 < String.length (answer m)
  /\ String.length (question m) <= 132
  /\ (String.length (answer m) <= 100 ->
      question m = "What is the main idea of: '" ++ answer m ++ "'?")
  /\ difficulty m = "medium"
  /\ length (options m) = 4.
Proof.
  intros H. apply fallback_member in H. destruct H as (i & Hi & ->).
  cbn [fallback_mcq answer question difficulty options length].
  set (sentence := nth i (sentences_of text) EmptyString).
  destruct (sentences_of_member text sentence (nth_In _ _ Hi)) as [Htrim Hlen].
  repeat split; try assumption.
  - rewrite !length_append. cbn [String.length].
    destruct (100 <? String.length sentence)%nat eqn:Hlong.
    + rewrite length_append. pose proof (length_take 100 sentence). cbn [String.length]. lia.
    + apply Nat.ltb_ge in Hlong. lia.
  - intros Hshort. apply Nat.ltb_ge in Hshort. now rewrite Hshort.
Qed.

Lemma fallback_mcq_bounds_witness :
  In (fallback_mcq (sentences_of turing_text) 0)
     (generate_fallback_mcqs turing_text 5)
  /\ String.length (question (fallback_mcq (sentences_of turing_text) 0)) <= 132.
Proof.
  assert (Hin : In (fallback_mcq (sentences_of turing_text) 0)
                   (generate_fallback_mcqs turing_text 5))
    by (vm_compute; left; reflexivity).
  split; [exact Hin |].
  exact (proj1 (proj2 (proj2 (fallback_mcq_bounds turing_text 5 _ Hin)))).
Defined.

Lemma firstn_seq (k n : nat) : firstn k (seq 0 n) = seq 0 (Nat.min k n).
Proof.
  generalize 0 as start. revert n.
  induction k as [| k IH]; intros [| n] start; cbn; try reflexivity.
  now rewrite IH.
Qed.

(** X14: asking the fallback generator for fewer MCQs gives a prefix of
    what it gives for more: the count only cuts the list. *)
Theorem generate_fallback_mcqs_prefix (text : string) (n n' : Z) :
  (0 <= n <= n')%Z ->
  generate_fallback_mcqs text n
  = firstn (Z.to_nat n) (generate_fallback_mcqs text n').
Proof.
  intros Hn. rewrite !generate_fallback_mcqs_map, firstn_map, firstn_seq.
  do 2 f_equal. lia.
Qed.

Lemma generate_fallback_mcqs_prefix_witness :
  (0 <= 1 <= 5)%Z
  /\ generate_fallback_mcqs two_sentences 1
     = firstn 1 (generate_fallback_mcqs two_sentences 5).
Proof.
  assert (Hn : (0 <= 1 <= 5)%Z) by lia.
  split; [exact Hn |].
  exact (generate_fallback_mcqs_prefix two_sentences 1 5 Hn).
Defined.

(* ------------------------------------------------------------------ *)
(** ** The response sanitizer *)

Lemma append_nil_r (s : string) : s ++ EmptyString = s.
Proof. induction s as [| c s IH]; cbn; [reflexivity | now rewrite IH]. Qed.

Lemma append_assoc (s t u : string) : (s ++ t) ++ u = s ++ t ++ u.
Proof. induction s as [| c s IH]; cbn; [reflexivity | now rewrite IH]. Qed.

Lemma take_drop (n : nat) (s : string) : take n s ++ drop n s = s.
Proof.
  revert s. induction n as [| n IH]; intros [| c s]; cbn; try reflexivity.
  now rewrite IH.
Qed.

Lemma within_refl (s : string) : within s s.
Proof. exists EmptyString, EmptyString. cbn. now rewrite append_nil_r. Qed.

Lemma within_trans (a b c : string) : within a b -> within b c -> within a c.
Proof.
  intros (p1 & q1 & ->) (p2 & q2 & ->).
  exists (p2 ++ p1), (q1 ++ q2). now rewrite !append_assoc.
Qed.

Lemma within_prefix (s t : string) : within s (s ++ t).
Proof. now exists EmptyString, t. Qed.

Lemma within_suffix (s t : string) : within t (s ++ t).
Proof. exists s, EmptyString. now rewrite append_nil_r. Qed.

Lemma within_cons (c : ascii) (s t : string) : within s t -> within s (String c t).
Proof. intros (p & q & ->). now exists (String c p), q. Qed.

Lemma within_drop (n : nat) (s : string) : within (drop n s) s.
Proof. rewrite <- (take_drop n s) at 2. apply within_suffix. Qed.

Lemma within_take (n : nat) (s : string) : within (take n s) s.
Proof. rewrite <- (take_drop n s) at 2. apply within_prefix. Qed.

Lemma within_lstrip (s : string) : within (lstrip s) s.
Proof.
  induction s as [| c t IH]; cbn [lstrip]; [apply within_refl |].
  destruct (is_space c); [now apply within_cons | apply within_refl].
Qed.

Lemma rstrip_prefix (s : string) : exists post, s = rstrip s ++ post.
Proof.
  induction s as [| c t [post IH]]; [now exists EmptyString |].
  cbn [rstrip]. destruct (rstrip t) as [| c' r] eqn:Hr.
  - destruct (is_space c); [now exists (String c t) |].
    exists t. reflexivity.
  - exists post. rewrite IH at 1. reflexivity.
Qed.

Lemma within_strip (s : string) : within (strip s) s.
Proof.
  unfold strip. apply (within_trans _ (lstrip s)); [| apply within_lstrip].
  destruct (rstrip_prefix (lstrip s)) as [post Hpost].
  rewrite Hpost at 2. apply within_prefix.
Qed.

(** What a successful match consumes is a prefix of the text, ends with a
    bracket and has the expected shape. *)
Lemma match_close_spec (s m : string) :
  match_close s = Some m ->
  (exists post, s = m ++ post)
  /\ (exists ws, blank ws /\ m = ws ++ "]")
  /\ (rstrip m = m /\ m <> EmptyString).
Proof.
  revert m. induction s as [| c t IH]; cbn [match_close]; intros m H;
    [discriminate H |].
  destruct (Ascii.eqb c "]"%char) eqn:Hc.
  - apply Ascii.eqb_eq in Hc. subst c. inversion H; subst m.
    repeat split; [now exists t | now exists EmptyString | discriminate].
  - destruct (is_space c) eqn:Hsp; [| discriminate H].
    destruct (match_close t) as [m' |]; [| discriminate H].
    inversion H; subst m.
    destruct (IH m' eq_refl) as ((post & ->) & (ws & Hws & ->) & Hr & Hne).
    repeat split.
    + now exists post.
    + exists (String c ws). split; [| reflexivity].
      unfold blank. cbn [lstrip]. now rewrite Hsp.
    + cbn [rstrip]. rewrite Hr. destruct (ws ++ "]"); [now destruct Hne | reflexivity].
    + discriminate.
Qed.

Lemma match_body_spec (s m : string) :
  match_body s = Some m ->
  (exists post, s = m ++ post)
  /\ (exists body ws, blank ws /\ m = body ++ "}" ++ ws ++ "]")
  /\ (rstrip m = m /\ m <> EmptyString).
Proof.
  revert m. induction s as [| c t IH]; cbn [match_body]; intros m H;
    [discriminate H |].
  destruct (if Ascii.eqb c "}"%char then match_close t else None) as [m' |] eqn:Hclose.
  - destruct (Ascii.eqb c "}"%char) eqn:Hc; [| discriminate Hclose].
    apply Ascii.eqb_eq in Hc. subst c. inversion H; subst m.
    destruct (match_close_spec _ _ Hclose) as ((post & ->) & (ws & Hws & ->) & Hr & Hne).
    repeat split.
    + now exists post.
    + now exists EmptyString, ws.
    + cbn [rstrip]. rewrite Hr. destruct (ws ++ "]"); [now destruct Hne | reflexivity].
    + discriminate.
  - destruct (match_body t) as [m' |]; [| discriminate H].
    inversion H; subst m.
    destruct (IH m' eq_refl) as ((post & ->) & (body & ws & Hws & ->) & Hr & Hne).
    repeat split.
    + now exists post.
    + now exists (String c body), ws.
    + cbn [rstrip]. rewrite Hr.
      destruct (body ++ "}" ++ ws ++ "]"); [now destruct Hne | reflexivity].
    + discriminate.
Qed.

Lemma match_open_spec (s m : string) :
  match_open s = Some m ->
  (exists post, s = m ++ post)
  /\ (exists ws body ws',
        blank ws /\ blank ws' /\ m = ws ++ "{" ++ body ++ "}" ++ ws' ++ "]")
  /\ (rstrip m = m /\ m <> EmptyString).
Proof.
  revert m. induction s as [| c t IH]; cbn [match_open]; intros m H;
    [discriminate H |].
  destruct (Ascii.eqb c "{"%char) eqn:Hc.
  - apply Ascii.eqb_eq in Hc. subst c.
    destruct (match_body t) as [m' |] eqn:Hbody; [| discriminate H].
    inversion H; subst m.
    destruct (match_body_spec _ _ Hbody)
      as ((post & ->) & (body & ws & Hws & ->) & Hr & Hne).
    repeat split.
    + now exists post.
    + exists EmptyString, body, ws. repeat split; assumption.
    + cbn [rstrip]. rewrite Hr.
      destruct (body ++ "}" ++ ws ++ "]"); [now destruct Hne | reflexivity].
    + discriminate.
  - destruct (is_space c) eqn:Hsp; [| discriminate H].
    destruct (match_open t) as [m' |]; [| discriminate H].
    inversion H; subst m.
    destruct (IH m' eq_refl)
      as ((post & ->) & (ws & body & ws' & Hws & Hws' & ->) & Hr & Hne).
    repeat split.
    + now exists post.
    + exists (String c ws), body, ws'. repeat split; try assumption.
      unfold blank. cbn [lstrip]. now rewrite Hsp.
    + cbn [rstrip]. rewrite Hr.
      destruct (ws ++ "{" ++ body ++ "}" ++ ws' ++ "]"); [now destruct Hne | reflexivity].
    + discriminate.
Qed.

Lemma search_json_array_spec (s m : string) :
  search_json_array s = Some m ->
  within m s /\ array_shaped m /\ strip m = m.
Proof.
  revert m. induction s as [| c t IH]; cbn [search_json_array]; intros m H;
    [discriminate H |].
  destruct (if Ascii.eqb c "["%char then match_open t else None) as [m' |] eqn:Hopen.
  - destruct (Ascii.eqb c "["%char) eqn:Hc; [| discriminate Hopen].
    apply Ascii.eqb_eq in Hc. subst c. inversion H; subst m.
    destruct (match_open_spec _ _ Hopen)
      as ((post & ->) & (ws & body & ws' & Hws & Hws' & ->) & Hr & Hne).
    repeat split.
    + exists EmptyString, post. reflexivity.
    + exists ws, body, ws'. repeat split; assumption.
    + unfold strip. rewrite lstrip_fixed by reflexivity.
      rewrite rstrip_keeps by reflexivity. now rewrite Hr.
  - destruct (IH m H) as (Hin & Hshape & Hstrip).
    repeat split; [now apply within_cons | assumption | assumption].
Qed.

Lemma clean_json_response_unfold (raw : string) :
  clean_json_response raw
  = match search_json_array (strip (unfence raw)) with
    | Some json_match => json_match
    | None => strip (unfence raw)
    end.
Proof. reflexivity. Qed.

Lemma within_unfence (raw : string) : within (unfence raw) raw.
Proof.
  unfold unfence.
  set (r := if startswith "```json" raw then drop 7 raw
            else if startswith "```" raw then drop 3 raw else raw).
  assert (Hr : within r raw).
  { subst r. destruct (startswith "```json" raw); [apply within_drop |].
    destruct (startswith "```" raw); [apply within_drop | apply within_refl]. }
  destruct (endswith "```" r); [| exact Hr].
  apply (within_trans _ r); [apply within_take | exact Hr].
Qed.

(** X15: the sanitizer only cuts.  What [clean_json_response] returns
    occurs in the text it was given. *)
Theorem clean_json_response_within (raw : string) :
  within (clean_json_response raw) raw.
Proof.
  rewrite clean_json_response_unfold.
  assert (Hs : within (strip (unfence raw)) raw)
    by (apply (within_trans _ (unfence raw));
        [apply within_strip | apply within_unfence]).
  destruct (search_json_array (strip (unfence raw))) as [m |] eqn:Hm; [| exact Hs].
  apply (within_trans _ (strip (unfence raw))); [| exact Hs].
  now apply search_json_array_spec in Hm.
Qed.

(** X16: what [clean_json_response] returns has no whitespace at either
    end. *)
Theorem clean_json_response_trimmed (raw : string) :
  trimmed (clean_json_response raw).
Proof.
  rewrite clean_json_response_unfold.
  destruct (search_json_array (strip (unfence raw))) as [m |] eqn:Hm.
  - now apply search_json_array_spec in Hm.
  - apply strip_trimmed.
Qed.

Lemma blank_cons (c : ascii) (ws : string) :
  blank (String c ws) -> is_space c = true /\ blank ws.
Proof.
  unfold blank. cbn [lstrip]. destruct (is_space c); [auto | discriminate].
Qed.

Lemma space_is_not (c d : ascii) :
  is_space c = true -> is_space d = false -> Ascii.eqb c d = false.
Proof.
  intros Hc Hd. destruct (Ascii.eqb c d) eqn:Heq; [| reflexivity].
  apply Ascii.eqb_eq in Heq. congruence.
Qed.

Lemma match_close_complete (ws post : string) :
  blank ws -> match_close (ws ++ "]" ++ post) <> None.
Proof.
  induction ws as [| c ws IH]; intros Hws; [discriminate |].
  destruct (blank_cons _ _ Hws) as [Hc Hws'].
  change (String c ws ++ "]" ++ post) with (String c (ws ++ "]" ++ post)).
  cbn [match_close]. rewrite (space_is_not c "]" Hc eq_refl), Hc.
  destruct (match_close (ws ++ "]" ++ post)); [discriminate | now apply IH].
Qed.

Lemma match_body_complete (body ws post : string) :
  blank ws -> match_body (body ++ "}" ++ ws ++ "]" ++ post) <> None.
Proof.
  intros Hws. induction body as [| c body IH].
  - change (EmptyString ++ "}" ++ ws ++ "]" ++ post)
      with (String "}" (ws ++ "]" ++ post)).
    cbn [match_body]. rewrite Ascii.eqb_refl.
    destruct (match_close (ws ++ "]" ++ post)) eqn:Hclose; [discriminate |].
    now apply match_close_complete in Hclose.
  - change (String c body ++ "}" ++ ws ++ "]" ++ post)
      with (String c (body ++ "}" ++ ws ++ "]" ++ post)).
    cbn [match_body].
    destruct (if Ascii.eqb c "}"%char then _ else None); [discriminate |].
    destruct (match_body (body ++ "}" ++ ws ++ "]" ++ post)); [discriminate | exact IH].
Qed.

Lemma match_open_complete (ws body ws' post : string) :
  blank ws -> blank ws' ->
  match_open (ws ++ "{" ++ body ++ "}" ++ ws' ++ "]" ++ post) <> None.
Proof.
  intros Hws Hws'. induction ws as [| c ws IH].
  - change (EmptyString ++ "{" ++ body ++ "}" ++ ws' ++ "]" ++ post)
      with (String "{" (body ++ "}" ++ ws' ++ "]" ++ post)).
    cbn [match_open]. rewrite Ascii.eqb_refl.
    destruct (match_body (body ++ "}" ++ ws' ++ "]" ++ post)) eqn:Hbody; [discriminate |].
    now apply match_body_complete in Hbody.
  - destruct (blank_cons _ _ Hws) as [Hc Hws1].
    change (String c ws ++ "{" ++ body ++ "}" ++ ws' ++ "]" ++ post)
      with (String c (ws ++ "{" ++ body ++ "}" ++ ws' ++ "]" ++ post)).
    cbn [match_open]. rewrite (space_is_not c "{" Hc eq_refl), Hc.
    destruct (match_open (ws ++ "{" ++ body ++ "}" ++ ws' ++ "]" ++ post));
      [discriminate | now apply IH].
Qed.

Lemma search_json_array_complete (s m : string) :
  within m s -> array_shaped m -> search_json_array s <> None.
Proof.
  intros (pre & post & ->) (ws & body & ws' & Hws & Hws' & ->).
  induction pre as [| c pre IH].
  - cbn [append]. rewrite !append_assoc. cbn [append search_json_array].
    rewrite Ascii.eqb_refl.
    destruct (match_open _) eqn:Hopen; [discriminate |].
    rewrite !append_assoc in Hopen. cbn [append] in Hopen.
    rewrite !append_assoc in Hopen. cbn [append] in Hopen.
    now apply match_open_complete in Hopen.
  - change (String c pre ++ ?x) with (String c (pre ++ x)).
    cbn [append search_json_array].
    destruct (if Ascii.eqb c "["%char then _ else None); [discriminate | exact IH].
Qed.

(** X17: the pattern search of the sanitizer is exact.  Either the result
    has the shape bracket, whitespace, brace, text, brace, whitespace,
    bracket and occurs in the unfenced, stripped reply; or no text of that
    shape occurs there and the result is the unfenced, stripped reply. *)
Theorem clean_json_response_cases (raw : string) :
  (array_shaped (clean_json_response raw)
   /\ within (clean_json_response raw) (strip (unfence raw)))
  \/ (clean_json_response raw = strip (unfence raw)
      /\ forall m, within m (strip (unfence raw)) -> ~ array_shaped m).
Proof.
  rewrite clean_json_response_unfold.
  destruct (search_json_array (strip (unfence raw))) as [m |] eqn:Hm.
  - left. apply search_json_array_spec in Hm. tauto.
  - right. split; [reflexivity |]. intros m Hin Hshape.
    now apply (search_json_array_complete _ _ Hin Hshape).
Qed.

Example clean_json_response_examples :
  clean_json_response fenced_reply = "[ {x} , {y} ]"
  /\ clean_json_response prose_reply = "I cannot answer that.".
Proof. split; vm_compute; reflexivity. Qed.

(* ------------------------------------------------------------------ *)
(** ** The narration sanitizer *)

Lemma rstrip_tail (c : ascii) (t : string) :
  rstrip (String c t) = String c t -> t <> EmptyString -> rstrip t = t.
Proof.
  cbn [rstrip]. intros H Ht. destruct (rstrip t) as [| c' r] eqn:Hr.
  - destruct (is_space c); [discriminate H |].
    injection H as H. now subst t.
  - now injection H as H.
Qed.

Lemma rstrip_last (c : ascii) :
  rstrip (String c EmptyString) = String c EmptyString -> is_space c = false.
Proof. cbn [rstrip]. now destruct (is_space c). Qed.

Lemma collapse_from_space (b : bool) (c : ascii) (t : string) :
  is_space c = true ->
  collapse_from b (String c t)
  = if b then collapse_from true t else String " " (collapse_from true t).
Proof. intros Hc. cbn [collapse_from]. now rewrite Hc. Qed.

Lemma collapse_from_other (b : bool) (c : ascii) (t : string) :
  is_space c = false ->
  collapse_from b (String c t) = String c (collapse_from false t).
Proof. intros Hc. cbn [collapse_from]. now rewrite Hc. Qed.

Lemma spaced_from_other (b : bool) (c : ascii) (t : string) :
  is_space c = false -> spaced_from b (String c t) = spaced_from false t.
Proof. intros Hc. cbn [spaced_from]. now rewrite Hc. Qed.

Lemma spaced_from_space (t : string) :
  spaced_from false (String " " t) = spaced_from true t.
Proof. reflexivity. Qed.

Lemma collapse_spaced (t : string) :
  rstrip t = t -> t <> EmptyString ->
  forall b, spaced_from b (collapse_from b t) = true.
Proof.
  induction t as [| c t IH]; [congruence |]. intros Hr _ b.
  destruct t as [| c' t'].
  - apply rstrip_last in Hr.
    now rewrite (collapse_from_other _ _ _ Hr), (spaced_from_other _ _ _ Hr).
  - assert (Ht : rstrip (String c' t') = String c' t')
      by (apply (rstrip_tail c); [exact Hr | discriminate]).
    specialize (IH Ht ltac:(discriminate)).
    destruct (is_space c) eqn:Hc.
    + rewrite (collapse_from_space _ _ _ Hc).
      destruct b; [apply (IH true) |].
      rewrite spaced_from_space. apply (IH true).
    + rewrite (collapse_from_other _ _ _ Hc), (spaced_from_other _ _ _ Hc).
      apply (IH false).
Qed.

Lemma strip_head (x : string) (c : ascii) (t : string) :
  strip x = String c t -> is_space c = false.
Proof.
  unfold strip. intros Hs. pose proof (lstrip_head x) as Hh.
  destruct (lstrip x) as [| d u]; [discriminate Hs |].
  rewrite (rstrip_keeps _ _ Hh) in Hs. now injection Hs as <- _.
Qed.

Lemma collapse_strip_spaced (x : string) :
  single_spaced (collapse_spaces (strip x)) = true.
Proof.
  unfold single_spaced, collapse_spaces.
  destruct (strip x) as [| c t] eqn:Hs; [reflexivity |].
  assert (Hr : rstrip (String c t) = String c t)
    by (rewrite <- Hs; unfold strip; apply rstrip_idem).
  pose proof (strip_head _ _ _ Hs) as Hc.
  apply Bool.orb_true_iff. right.
  rewrite (collapse_from_other _ _ _ Hc), (spaced_from_other _ _ _ Hc).
  destruct t as [| c' t']; [reflexivity |].
  apply collapse_spaced; [| discriminate].
  apply (rstrip_tail c); [exact Hr | discriminate].
Qed.

(** X18: the narration sanitizer normalises whitespace.  In what
    [_sanitize_plain_text_script] returns every whitespace character is a
    single space standing between two other characters; a missing or blank
    reply gives the empty text. *)
Theorem sanitize_plain_text_script_spaced (raw_text : option string) :
  single_spaced (_sanitize_plain_text_script raw_text) = true
  /\ ((forall r, raw_text = Some r -> blank r) ->
      _sanitize_plain_text_script raw_text = EmptyString).
Proof.
  split.
  - destruct raw_text as [r |]; [| reflexivity].
    unfold _sanitize_plain_text_script.
    destruct (is_empty r); [reflexivity |].
    set (t1 := if startswith "```" (strip r) then _ else strip r).
    assert (H1 : exists x, t1 = strip x).
    { subst t1. destruct (startswith "```" (strip r)); [| now exists r].
      destruct (endswith "```" _); eexists; reflexivity. }
    destruct H1 as [x1 H1].
    destruct (quoted t1); [apply collapse_strip_spaced |].
    rewrite H1. apply collapse_strip_spaced.
  - intros Hblank. destruct raw_text as [r |]; [| reflexivity].
    specialize (Hblank r eq_refl).
    unfold _sanitize_plain_text_script.
    destruct (is_empty r); [reflexivity |].
    assert (Hs : strip r = EmptyString)
      by (unfold strip; unfold blank in Hblank; now rewrite Hblank).
    rewrite Hs. reflexivity.
Qed.

Lemma sanitize_plain_text_script_spaced_witness :
  single_spaced
    (_sanitize_plain_text_script (Some "``` text  Hello
	 world  ```")) = true
  /\ _sanitize_plain_text_script (Some "   ") = EmptyString.
Proof.
  split.
  - apply (sanitize_plain_text_script_spaced (Some _)).
  - apply (sanitize_plain_text_script_spaced (Some "   ")).
    intros r [= <-]. reflexivity.
Defined.

(* ------------------------------------------------------------------ *)
(** ** The pipeline *)

Lemma py_take_length {A : Type} (n : Z) (l : list A) :
  (0 <= n)%Z -> length (py_take n l) <= Z.to_nat n.
Proof.
  intros Hn. unfold py_take. apply Z.leb_le in Hn. rewrite Hn.
  rewrite length_firstn. lia.
Qed.

Lemma py_take_shorter {A : Type} (n : Z) (l : list A) :
  length (py_take n l) <= length l.
Proof. unfold py_take. destruct (0 <=? n)%Z; rewrite length_firstn; lia. Qed.

Lemma py_take_all {A : Type} (n : Z) (l : list A) :
  (0 <= n)%Z -> length l <= Z.to_nat n -> py_take n l = l.
Proof.
  intros Hn Hlen. unfold py_take. apply Z.leb_le in Hn. rewrite Hn.
  now apply firstn_all2.
Qed.

Lemma py_take_Forall {A : Type} (P : A -> Prop) (n : Z) (l : list A) :
  Forall P l -> Forall P (py_take n l).
Proof.
  intros H. unfold py_take. destruct (0 <=? n)%Z; now apply Forall_firstn.
Qed.

Lemma chars_length (s : string) : length (chars s) = String.length s.
Proof. induction s as [| c t IH]; cbn; [reflexivity | now rewrite IH]. Qed.

Lemma string_of_list_length (l : list ascii) :
  String.length (string_of_list_ascii l) = length l.
Proof. induction l as [| c t IH]; cbn; [reflexivity | now rewrite IH]. Qed.

Lemma validate_each_sound (fuel : nat) (items : list json) :
  forall validated_mcqs l,
    validate_each fuel items validated_mcqs = Returns l ->
    exists news,
      l = (validated_mcqs ++ news)%list
      /\ length news <= length items
      /\ Forall (validated fuel) news.
Proof.
  induction items as [| x rest IH]; intros acc l; cbn [validate_each].
  - intros [= <-]. exists []. rewrite app_nil_r. repeat split; [cbn; lia | constructor].
  - destruct (validate_mcq fuel x) as [[m |] | e |] eqn:Hv; cbn [bind];
      try discriminate; intros Hrun.
    + destruct (IH _ _ Hrun) as (news & -> & Hlen & Hall).
      exists (m :: news). rewrite <- app_assoc. cbn [app length].
      repeat split; [lia |]. constructor; [now exists x | assumption].
    + destruct (IH _ _ Hrun) as (news & -> & Hlen & Hall).
      exists news. cbn [length]. repeat split; [lia | assumption].
Qed.

Section PipelineProperties.

Context {R : Runtime}.

(** What a run of the English generator does to the state, and what it can
    return. *)
Lemma generate_english_mcqs_run (fuel : nat) (text : string) (n : Z)
    (api_key : string) (st st' : PState) (o : outcome (list MCQ)) :
  generate_english_mcqs fuel text n api_key st = (o, st') ->
  (issued st' = issued st
   \/ issued st' = (issued st ++ [ mcq_request text n ])%list)
  /\ forall l, o = Returns l ->
       Forall (validated fuel) l
       /\ ((0 <= n)%Z -> length l <= Z.to_nat n)
       /\ (l <> [] -> issued st' = (issued st ++ [ mcq_request text n ])%list).
Proof.
  unfold generate_english_mcqs, tryM, bindM, call_configure, call_generate, lift, ret.
  assert (Hnil : forall l : list MCQ,
             Returns (@nil MCQ) = Returns l ->
             Forall (validated fuel) l
             /\ ((0 <= n)%Z -> length l <= Z.to_nat n)
             /\ (l <> [] -> issued st' = (issued st ++ [ mcq_request text n ])%list)).
  { intros l [= <-]. repeat split; [constructor | cbn; lia | congruence]. }
  destruct (configure api_key (world st)) as [[u | e] w1];
    cbn [outcome_of world issued].
  2:{ intros [= <- <-]. cbn [issued]. split; [now left | exact Hnil]. }
  destruct (generate_content (mcq_request text n) w1) as [[[raw |] | e] w2];
    cbn [outcome_of text_strip world issued];
    try (intros [= <- <-]; cbn [issued]; split; [now right | exact Hnil]).
  destruct (json_loads (clean_json_response (strip raw))) as [parsed |];
    [| intros [= <- <-]; cbn [issued]; split; [now right | exact Hnil]].
  unfold bind.
  destruct (py_slice_to n parsed) as [head | e |] eqn:Hslice;
    [ | intros [= <- <-]; cbn [issued]; split; [now right | exact Hnil]
      | now apply py_slice_to_fuel in Hslice ].
  destruct (py_iter head) as [items | e |] eqn:Hiter;
    [ | intros [= <- <-]; cbn [issued]; split; [now right | exact Hnil]
      | destruct head; discriminate Hiter ].
  destruct (validate_each fuel items []) as [l0 | e |] eqn:Hrun;
    intros [= <- <-]; cbn [issued]; (split; [now right |]);
    try exact Hnil; try discriminate.
  intros l [= <-].
  destruct (validate_each_sound _ _ _ _ Hrun) as (news & -> & Hlen & Hall).
  cbn [app]. split; [exact Hall |]. split; [| reflexivity].
  intros Hn. enough (length items <= Z.to_nat n) by lia.
  destruct parsed; try discriminate Hslice; cbn [py_slice_to] in Hslice;
    injection Hslice as <-; cbn [py_iter] in Hiter; injection Hiter as <-.
  - rewrite chars_length. unfold slice_str.
    rewrite string_of_list_length. now apply py_take_length.
  - now apply py_take_length.
Qed.

(** X19: what the English generator returns and sends.  Every MCQ it
    returns is a record the validator returned for some raw MCQ; for a
    count that is not negative there are at most that many; at most one
    request is issued, the MCQ request for the given text and count, and a
    result that is not empty means that it was issued. *)
Theorem generate_english_mcqs_sound (fuel : nat) (text : string) (n : Z)
    (api_key : string) (st st' : PState) (l : list MCQ) :
  generate_english_mcqs fuel text n api_key st = (Returns l, st') ->
  Forall (validated fuel) l
  /\ ((0 <= n)%Z -> length l <= Z.to_nat n)
  /\ (issued st' = issued st
      \/ issued st' = (issued st ++ [ mcq_request text n ])%list)
  /\ (l <> [] -> issued st' = (issued st ++ [ mcq_request text n ])%list).
Proof.
  intros Hrun. destruct (generate_english_mcqs_run _ _ _ _ _ _ _ Hrun) as [Hst Hl].
  destruct (Hl l eq_refl) as (Hall & Hlen & Hsent). auto.
Qed.

End PipelineProperties.

Lemma generate_english_mcqs_sound_witness :
  let st := @mkPState demo_runtime 0 [] in
  let run := @generate_english_mcqs demo_runtime 4 "sums" 5 "key" st in
  Forall (validated 4) (match fst run with Returns l => l | _ => [] end)
  /\ issued (snd run) = [ mcq_request "sums" 5 ].
Proof.
  intros st run.
  destruct (@generate_english_mcqs_sound demo_runtime 4 "sums" 5 "key" st (snd run)
              (repeat tidy_mcq 4)) as (Hall & _ & _ & Hsent);
    [vm_compute; reflexivity |].
  split; [exact Hall | apply Hsent; discriminate].
Defined.

(* ------------------------------------------------------------------ *)
(** ** The translator on any input *)

Lemma mcq_json_shaped (m : MCQ) : mcq_shaped (mcq_json m).
Proof.
  exists [ ("question", JStr (question m)); ("answer", JStr (answer m));
           ("options", JArr (map JStr (options m)));
           ("difficulty", JStr (difficulty m)) ],
         (question m), (JStr (answer m)), (JArr (map JStr (options m))).
  repeat split.
Qed.

Lemma lookup_existsb (key : string) (fields : list (string * json)) :
  existsb (fun kv => String.eqb (fst kv) key) fields = true ->
  exists x, lookup key fields = Some x.
Proof.
  induction fields as [| [k x] rest IH]; cbn [existsb lookup fst]; [discriminate |].
  destruct (String.eqb k key); [now exists x | exact IH].
Qed.

Lemma all_in_object (keys : list string) (fields : list (string * json)) :
  all_in keys (JObj fields) = Returns true ->
  Forall (fun k => exists x, lookup k fields = Some x) keys.
Proof.
  induction keys as [| k rest IH]; cbn [all_in str_in bind]; [constructor |].
  destruct (existsb (fun kv => String.eqb (fst kv) k) fields) eqn:Hk;
    [| discriminate].
  intros H. constructor; [now apply lookup_existsb | now apply IH].
Qed.

Lemma taken_shaped (t : json) (q : string) :
  all_in [ "question"; "answer"; "options" ] t = Returns true ->
  subscript "question" t = Returns (JStr q) ->
  mcq_shaped t.
Proof.
  intros Hall Hq. destruct t as [| | | | | | fields]; try discriminate Hq.
  cbn [subscript] in Hq.
  destruct (lookup "question" fields) as [x |] eqn:Hx; [| discriminate Hq].
  injection Hq as ->.
  apply all_in_object in Hall.
  inversion Hall as [| ? ? _ Hrest]; subst.
  inversion Hrest as [| ? ? [a Ha] Hrest']; subst.
  inversion Hrest' as [| ? ? [o Ho] _]; subst.
  now exists fields, q, a, o.
Qed.

Section TranslatorAnyInput.

Context {R : Runtime}.

(** One pass of the translation loop on any value: it returns the value it
    was given or a dictionary with the three keys, and issues at most the
    request for that value. *)
Lemma translate_one_any (mcq : json) (target_lang : string) (st : PState) :
  exists o st',
    translate_one mcq target_lang st = (Returns o, st')
    /\ (o = mcq \/ mcq_shaped o)
    /\ (issued st' = issued st
        \/ issued st' = (issued st ++ [ translation_request mcq target_lang ])%list).
Proof.
  unfold translate_one, tryM, bindM, lift, ret, call_generate.
  destruct (q <- subscript "question" mcq ;; py_slice_to 60 q) as [head | e |] eqn:Hhead.
  2:{ exists mcq, st. repeat split; now left. }
  2:{ exfalso. revert Hhead. apply bind_fuel; [apply subscript_fuel |].
      intros q. apply py_slice_to_fuel. }
  destruct (generate_content (translation_request mcq target_lang) (world st))
    as [r w'].
  set (st1 := {| world := w';
                 issued := (issued st ++ [ translation_request mcq target_lang ])%list |}).
  assert (Hkeep : exists o st',
             (Returns mcq, st1) = (Returns o, st')
             /\ (o = mcq \/ mcq_shaped o)
             /\ (issued st' = issued st
                 \/ issued st'
                    = (issued st ++ [ translation_request mcq target_lang ])%list)).
  { exists mcq, st1. repeat split; [now left | now right]. }
  destruct r as [[text |] | e]; cbn [outcome_of text_strip]; try exact Hkeep.
  destruct (json_loads (clean_json_response (strip text))) as [t |];
    [| exact Hkeep].
  destruct (all_in [ "question"; "answer"; "options" ] t) as [[|] | e |] eqn:Hall;
    [ | exact Hkeep | exact Hkeep | now apply all_in_fuel in Hall ].
  destruct (q <- subscript "question" mcq ;; py_lower q) as [orig_q | e |] eqn:Horig;
    [ | exact Hkeep
      | exfalso; revert Horig; apply bind_fuel;
        [apply subscript_fuel | intros q; apply py_lower_fuel] ].
  unfold bind.
  destruct (subscript "question" t) as [x | e |] eqn:Hsub;
    [ | exact Hkeep | now apply subscript_fuel in Hsub ].
  destruct x as [| | | | q | |]; cbn [py_lower]; try exact Hkeep.
  destruct (negb (String.eqb orig_q (lower q))); [| exact Hkeep].
  exists t, st1. repeat split; [| now right].
  right. now apply (taken_shaped t q).
Qed.

Lemma translate_each_any (target_lang : string) (mcqs : list json) :
  forall translated_mcqs st,
    exists outs st' sent,
      translate_each mcqs target_lang translated_mcqs st
      = (Returns (translated_mcqs ++ outs)%list, st')
      /\ Forall2 (fun mcq o => o = mcq \/ mcq_shaped o) mcqs outs
      /\ issued st' = (issued st ++ sent)%list
      /\ length sent <= length mcqs
      /\ Forall (translation_of target_lang) sent.
Proof.
  induction mcqs as [| mcq rest IH]; intros acc st; cbn [translate_each].
  - exists [], st, []. rewrite !app_nil_r. repeat split; constructor.
  - destruct (translate_one_any mcq target_lang st) as (o & st1 & Hone & Ho & Hst1).
    unfold bindM. rewrite Hone.
    destruct (IH (acc ++ [ o ])%list st1) as (outs & st2 & sent & Hrun & Hall & Hst2 & Hlen & Hreq).
    rewrite Hrun, <- app_assoc. cbn [app].
    destruct Hst1 as [Hst1 | Hst1]; rewrite Hst1 in Hst2.
    + exists (o :: outs), st2, sent. repeat split; auto.
      cbn [length]. lia.
    + rewrite <- app_assoc in Hst2. cbn [app] in Hst2.
      exists (o :: outs), st2, (translation_request mcq target_lang :: sent).
      repeat split; auto; [cbn [length]; lia |].
      constructor; [now exists mcq | assumption].
Qed.

(** What a run of the translator gives on any list. *)
Lemma translate_mcqs_any (mcqs : list json) (target_lang api_key : string)
    (st : PState) :
  exists out st' sent,
    translate_mcqs_to_language mcqs target_lang api_key st = (Returns out, st')
    /\ Forall2 (fun mcq o => o = mcq \/ mcq_shaped o) mcqs out
    /\ issued st' = (issued st ++ sent)%list
    /\ length sent <= length mcqs
    /\ Forall (translation_of target_lang) sent
    /\ (lower target_lang = "english" -> out = mcqs /\ st' = st).
Proof.
  assert (Hsame : Forall2 (fun mcq o : json => o = mcq \/ mcq_shaped o) mcqs mcqs).
  { induction mcqs; constructor; auto. }
  unfold translate_mcqs_to_language.
  destruct (String.eqb (lower target_lang) "english") eqn:Hlang; cbn [orb].
  { exists mcqs, st, []. rewrite app_nil_r.
    repeat split; auto; cbn [length]; lia. }
  apply String.eqb_neq in Hlang.
  destruct (is_nil mcqs).
  { exists mcqs, st, []. rewrite app_nil_r.
    repeat split; auto; try (cbn [length]; lia); now intros. }
  unfold tryM, bindM at 1, call_configure.
  destruct (configure api_key (world st)) as [[[] | e] w]; cbn [outcome_of].
  2:{ exists mcqs, {| world := w; issued := issued st |}, [].
      cbn [issued]. rewrite app_nil_r.
      repeat split; auto; try (cbn [length]; lia); now intros. }
  destruct (translate_each_any target_lang mcqs [] {| world := w; issued := issued st |})
    as (outs & st1 & sent & Hrun & Hall & Hst1 & Hlen & Hreq).
  cbn [app issued] in Hrun, Hst1. unfold bindM at 1. rewrite Hrun.
  unfold bindM, lift, ret.
  assert (Hkeep : exists out st' sent0,
             (Returns mcqs, st1) = (Returns out, st')
             /\ Forall2 (fun mcq o => o = mcq \/ mcq_shaped o) mcqs out
             /\ issued st' = (issued st ++ sent0)%list
             /\ length sent0 <= length mcqs
             /\ Forall (translation_of target_lang) sent0
             /\ (lower target_lang = "english" -> out = mcqs /\ st' = st)).
  { exists mcqs, st1, sent. repeat split; auto; now intros. }
  destruct (m <- first_of mcqs ;; subscript "question" m) as [a | e |] eqn:Ha;
    [ | exact Hkeep
      | exfalso; revert Ha; apply bind_fuel;
        [apply first_of_fuel | intros m; apply subscript_fuel] ].
  destruct (m <- first_of outs ;; subscript "question" m) as [b | e |] eqn:Hb;
    [ | exact Hkeep
      | exfalso; revert Hb; apply bind_fuel;
        [apply first_of_fuel | intros m; apply subscript_fuel] ].
  destruct (py_lower a) as [a' | e |] eqn:Ha';
    [ | exact Hkeep | now apply py_lower_fuel in Ha' ].
  destruct (py_lower b) as [b' | e |] eqn:Hb';
    [ | exact Hkeep | now apply py_lower_fuel in Hb' ].
  exists outs, st1, sent. repeat split; auto; now intros.
Qed.

End TranslatorAnyInput.

(** X20: the translator on any list, typed or not.  It returns a list of
    the same length and never raises; each slot holds the value it was
    given or a dictionary with the keys question, answer and options whose
    question is a text; it issues at most one request per item, each of
    them a translation request for the target language. *)
Theorem translate_mcqs_total {R : Runtime} (mcqs : list json)
    (target_lang api_key : string) (st : PState) :
  exists out st' sent,
    translate_mcqs_to_language mcqs target_lang api_key st = (Returns out, st')
    /\ length out = length mcqs
    /\ Forall2 (fun mcq o => o = mcq \/ mcq_shaped o) mcqs out
    /\ issued st' = (issued st ++ sent)%list
    /\ length sent <= length mcqs
    /\ Forall (translation_of target_lang) sent.
Proof.
  destruct (translate_mcqs_any mcqs target_lang api_key st)
    as (out & st' & sent & Hrun & Hall & Hst & Hlen & Hreq & _).
  exists out, st', sent. repeat split; auto.
  symmetry. exact (Forall2_length Hall).
Qed.

(* ------------------------------------------------------------------ *)
(** ** The orchestrator and the flashcards *)

Lemma fallback_result_length (text : string) (n : Z) :
  length (fallback_result text n) <= Z.to_nat n.
Proof.
  unfold fallback_result. rewrite length_map, generate_fallback_mcqs_map.
  rewrite length_map, length_seq. lia.
Qed.

Lemma fallback_result_shaped (text : string) (n : Z) :
  Forall mcq_shaped (fallback_result text n).
Proof.
  unfold fallback_result. apply Forall_map, Forall_forall.
  intros m _. apply mcq_json_shaped.
Qed.

Lemma map_mcq_json_shaped (l : list MCQ) : Forall mcq_shaped (map mcq_json l).
Proof. apply Forall_map, Forall_forall. intros m _. apply mcq_json_shaped. Qed.

Lemma slots_shaped (mcqs out : list json) :
  Forall mcq_shaped mcqs ->
  Forall2 (fun mcq o => o = mcq \/ mcq_shaped o) mcqs out ->
  Forall mcq_shaped out.
Proof.
  intros Hin Hall. induction Hall as [| mcq o mcqs out Ho _ IH]; [constructor |].
  inversion Hin; subst. constructor; [| now apply IH].
  destruct Ho as [-> | Ho]; assumption.
Qed.

Lemma prepare_text_length (text : string) :
  String.length (prepare_text text) <= 6020.
Proof.
  assert (Hsum : 6020 = 6000 + 20) by (vm_compute; reflexivity).
  rewrite Hsum. unfold prepare_text.
  set (k := 6000). clearbody k.
  destruct (k <? String.length text)%nat eqn:Hlong.
  - rewrite length_append. pose proof (length_take k text). cbn [String.length]. lia.
  - apply Nat.ltb_ge in Hlong. lia.
Qed.

Section OrchestratorRuns.

Context {R : Runtime}.

Lemma make_mcqs_run (fuel : nat) (text language : string) (n : Z)
    (st st' : PState) (l : list json) :
  make_mcqs fuel text language n st = (Returns l, st') ->
  make_mcqs_facts text language n st st' l
  /\ (String.length (strip text) < 50 \/ configured_key = None -> st' = st).
Proof.
  unfold make_mcqs.
  destruct (String.length (strip text) <? 50)%nat eqn:Hshort.
  { intros [= <- <-]. split; [| reflexivity].
    split; [constructor |]. split; [cbn; lia |].
    exists []. rewrite app_nil_r. split; [reflexivity | now left]. }
  apply Nat.ltb_ge in Hshort.
  set (prepared := prepare_text (strip text)).
  destruct configured_key as [api_key |] eqn:Hkey.
  2:{ intros [= <- <-]. split; [| reflexivity].
      split; [apply fallback_result_shaped |].
      split; [intros _; apply fallback_result_length |].
      exists []. rewrite app_nil_r. split; [reflexivity | now left]. }
  intros Hrun. split; [| intros [Hlt | Hnone]; [lia | discriminate Hnone]].
  revert Hrun. unfold tryM, bindM at 1.
  destruct (generate_english_mcqs fuel prepared n api_key st)
    as [[english | e |] st1] eqn:Hgen;
    destruct (generate_english_mcqs_run _ _ _ _ _ _ _ Hgen) as [Hst1 Hgot].
  2:{ intros [= <- <-].
      split; [apply fallback_result_shaped |].
      split; [intros _; apply fallback_result_length |].
      destruct Hst1 as [Hst1 | Hst1].
      - exists []. rewrite app_nil_r. split; [exact Hst1 | now left].
      - exists [ mcq_request prepared n ]. split; [exact Hst1 |].
        right. exists []. repeat split; [constructor | cbn; lia]. }
  2:{ discriminate. }
  destruct (Hgot english eq_refl) as (Hvalid & Hcount & Hsent).
  destruct english as [| first rest].
  { intros [= <- <-].
    split; [apply fallback_result_shaped |].
    split; [intros _; apply fallback_result_length |].
    destruct Hst1 as [Hst1 | Hst1].
    - exists []. rewrite app_nil_r. split; [exact Hst1 | now left].
    - exists [ mcq_request prepared n ]. split; [exact Hst1 |].
      right. exists []. repeat split; [constructor | cbn; lia]. }
  specialize (Hsent ltac:(discriminate)).
  destruct (String.eqb (lower language) "english") eqn:Hlang.
  { intros [= <- <-].
    split; [apply py_take_Forall, (map_mcq_json_shaped (first :: rest)) |].
    split; [apply py_take_length |].
    exists [ mcq_request prepared n ]. split; [exact Hsent |].
    right. exists []. repeat split; [constructor | cbn; lia]. }
  apply String.eqb_neq in Hlang.
  unfold bindM at 1.
  destruct (translate_mcqs_any (map mcq_json (first :: rest)) language api_key st1)
    as (out & st2 & sent & Htr & Hslots & Hst2 & Hlen & Hreq & _).
  rewrite Htr.
  assert (Hshape : Forall mcq_shaped out)
    by (apply (slots_shaped _ _ (map_mcq_json_shaped _) Hslots)).
  assert (Hissued :
            exists sent0,
              issued st2 = (issued st ++ sent0)%list
              /\ (sent0 = []
                  \/ exists translations,
                       sent0 = mcq_request prepared n :: translations
                       /\ Forall (translation_of language) translations
                       /\ ((0 <= n)%Z -> length translations <= Z.to_nat n)
                       /\ (lower language = "english" -> translations = []))).
  { exists (mcq_request prepared n :: sent). rewrite Hst2, Hsent, <- app_assoc.
    split; [reflexivity |]. right. exists sent.
    repeat split; [assumption | | congruence].
    intros Hn. specialize (Hcount Hn). rewrite length_map in Hlen. lia. }
  destruct out as [| t0 out]; cbn [is_nil negb].
  { intros [= <- <-].
    split; [apply py_take_Forall, (map_mcq_json_shaped (first :: rest)) |].
    split; [apply py_take_length | exact Hissued]. }
  unfold bindM, lift, ret.
  destruct (m <- first_of (t0 :: out) ;;
            q <- subscript "question" m ;;
            (if negb (is_str (question first) q)
             then py_slice_to 60 q else Returns q)) as [x | e |];
    [ | | discriminate ]; intros [= <- <-].
  - split; [now apply py_take_Forall |].
    split; [apply py_take_length | exact Hissued].
  - split; [apply fallback_result_shaped |].
    split; [intros _; apply fallback_result_length | exact Hissued].
Qed.

End OrchestratorRuns.

(** X21: what [make_mcqs] returns.  Every element of the result is a
    dictionary with the keys question, answer and options whose question is
    a text, in every language; for a count that is not negative the result
    has at most that many elements. *)
Theorem make_mcqs_result_shape {R : Runtime} (fuel : nat)
    (text language : string) (n : Z) (st st' : PState) (l : list json) :
  make_mcqs fuel text language n st = (Returns l, st') ->
  Forall mcq_shaped l /\ ((0 <= n)%Z -> length l <= Z.to_nat n).
Proof.
  intros Hrun. apply make_mcqs_run in Hrun.
  destruct Hrun as [(Hshape & Hlen & _) _]. now split.
Qed.

Lemma make_mcqs_result_shape_witness :
  let run := @make_mcqs demo_runtime 4 choppy_text "Spanish" 5
               (@mkPState demo_runtime 0 []) in
  Forall mcq_shaped
    [ mcq_json tidy_mcq; demo_translation; mcq_json tidy_mcq; demo_translation ]
  /\ ((0 <= 5)%Z -> 4 <= Z.to_nat 5).
Proof.
  intros run.
  apply (@make_mcqs_result_shape demo_runtime 4 choppy_text "Spanish" 5
           (@mkPState demo_runtime 0 []) (snd run)).
  vm_compute; reflexivity.
Defined.

(** X22: what [make_mcqs] sends.  A run that returns has issued nothing, or
    the MCQ request for the prepared text (at most 6020 characters)
    followed by translation requests for the given language only: none for
    English in any casing, and for a count that is not negative at most
    that many.  With a trimmed text under 50 characters, or without a
    credential, the provider is left untouched. *)
Theorem make_mcqs_requests {R : Runtime} (fuel : nat)
    (text language : string) (n : Z) (st st' : PState) (l : list json) :
  make_mcqs fuel text language n st = (Returns l, st') ->
  (exists sent,
     issued st' = (issued st ++ sent)%list
     /\ (sent = []
         \/ exists translations,
              sent = mcq_request (prepare_text (strip text)) n :: translations
              /\ Forall (translation_of language) translations
              /\ ((0 <= n)%Z -> length translations <= Z.to_nat n)
              /\ (lower language = "english" -> translations = [])))
  /\ String.length (prepare_text (strip text)) <= 6020
  /\ (String.length (strip text) < 50 \/ configured_key = None -> st' = st).
Proof.
  intros Hrun. apply make_mcqs_run in Hrun.
  destruct Hrun as [(_ & _ & Hsent) Hsame].
  split; [exact Hsent |]. split; [apply prepare_text_length | exact Hsame].
Qed.

Lemma make_mcqs_requests_witness :
  let st := @mkPState demo_runtime 0 [] in
  let run := @make_mcqs demo_runtime 4 choppy_text "Spanish" 5 st in
  exists sent,
    issued (snd run) = (issued st ++ sent)%list
    /\ (sent = []
        \/ exists translations,
             sent = mcq_request (prepare_text (strip choppy_text)) 5 :: translations
             /\ Forall (translation_of "Spanish") translations
             /\ ((0 <= 5)%Z -> length translations <= Z.to_nat 5)
             /\ (lower "Spanish" = "english" -> translations = [])).
Proof.
  intros st run.
  refine (proj1 (@make_mcqs_requests demo_runtime 4 choppy_text "Spanish" 5 st
                   (snd run)
                   [ mcq_json tidy_mcq; demo_translation; mcq_json tidy_mcq;
                     demo_translation ] _)).
  vm_compute; reflexivity.
Defined.

Lemma flashcards_from_shaped (mcqs : list json) :
  Forall mcq_shaped mcqs ->
  forall flashcards,
    exists cards,
      flashcards_from mcqs flashcards = Returns (flashcards ++ cards)%list
      /\ Forall2 card_of mcqs cards.
Proof.
  induction 1 as [| mcq rest (fields & q & a & o & -> & Hq & Ha & _) _ IH];
    intros acc; cbn [flashcards_from].
  - exists []. rewrite app_nil_r. split; [reflexivity | constructor].
  - cbn [subscript]. rewrite Hq, Ha. cbn [bind].
    destruct (IH (acc ++ [ JObj [ ("question", JStr q); ("answer", a) ] ])%list)
      as (cards & Hrun & Hall).
    exists (JObj [ ("question", JStr q); ("answer", a) ] :: cards).
    rewrite Hrun, <- app_assoc. split; [reflexivity |].
    constructor; [| exact Hall].
    exists (JStr q), a. cbn [subscript]. now rewrite Hq, Ha.
Qed.

(** X23: the flashcards are the MCQs of [make_mcqs], projected.  Whenever
    [make_mcqs] returns, [make_flashcards] returns too, with the same
    provider state: no lookup of question or answer fails.  There is one
    card per MCQ, in order, holding that MCQ's question and answer and
    nothing else; the final cut by the count removes nothing when the count
    is not negative. *)
Theorem make_flashcards_projects {R : Runtime} (fuel : nat)
    (text lang : string) (n : Z) (st st' : PState) (l : list json) :
  make_mcqs fuel text lang n st = (Returns l, st') ->
  exists cards,
    Forall2 card_of l cards
    /\ make_flashcards fuel text lang n st = (Returns (py_take n cards), st')
    /\ ((0 <= n)%Z -> py_take n cards = cards).
Proof.
  intros Hrun. destruct (make_mcqs_run _ _ _ _ _ _ _ Hrun) as [(Hshape & Hlen & _) _].
  destruct (flashcards_from_shaped l Hshape []) as (cards & Hcards & Hall).
  exists cards. split; [exact Hall |]. split.
  - unfold make_flashcards, bindM, lift, ret. rewrite Hrun, Hcards. reflexivity.
  - intros Hn. apply py_take_all; [exact Hn |].
    rewrite <- (Forall2_length Hall). now apply Hlen.
Qed.

Lemma make_flashcards_projects_witness :
  let st := @mkPState demo_runtime 0 [] in
  exists cards,
    Forall2 card_of
      [ mcq_json tidy_mcq; demo_translation; mcq_json tidy_mcq; demo_translation ]
      cards
    /\ @make_flashcards demo_runtime 4 choppy_text "Spanish" 5 st
       = (Returns (py_take 5 cards),
          snd (@make_mcqs demo_runtime 4 choppy_text "Spanish" 5 st))
    /\ ((0 <= 5)%Z -> py_take 5 cards = cards).
Proof.
  intros st.
  apply (@make_flashcards_projects demo_runtime 4 choppy_text "Spanish" 5 st).
  vm_compute; reflexivity.
Defined.

(** X24: the short-script generator raises exactly on a blank topic.  For a
    topic that is empty or all whitespace it raises [ValueError] and leaves
    the provider untouched; for any other topic it does not raise. *)
Theorem generate_short_form_script_raises {R : Runtime} (topic : string)
    (st : PState) :
  (blank topic ->
   generate_short_form_script topic st = (Raises ValueError, st))
  /\ (forall e,
        fst (generate_short_form_script topic st) = Raises e -> blank topic).
Proof.
  assert (Hblank : blank topic <-> strip topic = EmptyString).
  { unfold blank, strip. split; [now intros -> |].
    intros H. pose proof (lstrip_head topic) as Hh.
    destruct (lstrip topic) as [| c t]; [reflexivity |].
    rewrite (rstrip_keeps _ _ Hh) in H. discriminate H. }
  unfold generate_short_form_script. split.
  - intros Hb. apply Hblank in Hb.
    destruct (is_empty topic); [reflexivity |]. now rewrite Hb.
  - intros e. destruct (is_empty topic) eqn:Hempty.
    + intros _. destruct topic; [reflexivity | discriminate Hempty].
    + destruct (is_empty (strip topic)) eqn:Hstrip.
      * intros _. apply Hblank. now destruct (strip topic).
      * destruct configured_key as [api_key |]; [| discriminate].
        intros H. now apply tryM_ret_no_raise in H.
Qed.

Lemma generate_short_form_script_raises_witness :
  @generate_short_form_script demo_runtime "  	 " (@mkPState demo_runtime 0 [])
  = (Raises ValueError, @mkPState demo_runtime 0 []).
Proof.
  apply (@generate_short_form_script_raises demo_runtime).
  reflexivity.
Defined.

(* ------------------------------------------------------------------ *)
(** ** The endpoints *)

Lemma make_mcqs_no_raise {R : Runtime} (fuel : nat) (text language : string)
    (n : Z) (st : PState) (e : exn) :
  fst (make_mcqs fuel text language n st) <> Raises e.
Proof.
  unfold make_mcqs.
  destruct (String.length (strip text) <? 50)%nat; [discriminate |].
  destruct configured_key; [apply tryM_ret_no_raise | discriminate].
Qed.

Lemma flashcard_of_shaped (m : json) :
  mcq_shaped m -> exists card, flashcard_of m = Returns card /\ card_of m card.
Proof.
  intros (fields & q & a & o & -> & Hq & Ha & _).
  exists (JObj [ ("question", JStr q); ("answer", a) ]).
  unfold flashcard_of, card_of. cbn [py_get subscript]. rewrite Hq, Ha.
  split; [reflexivity |]. now exists (JStr q), a.
Qed.

Lemma build_flashcards_shaped (mcqs : list json) :
  Forall mcq_shaped mcqs ->
  forall flashcards,
    exists cards,
      build_flashcards mcqs flashcards = Returns (flashcards ++ cards)%list
      /\ Forall2 card_of mcqs cards.
Proof.
  induction 1 as [| m rest Hm _ IH]; intros acc; cbn [build_flashcards].
  - exists []. rewrite app_nil_r. split; [reflexivity | constructor].
  - destruct (flashcard_of_shaped m Hm) as (card & Hcard & Hof).
    rewrite Hcard. cbn [try_except bind].
    destruct (IH (acc ++ [ card ])%list) as (cards & Hrun & Hall).
    exists (card :: cards). rewrite Hrun, <- app_assoc.
    split; [reflexivity | now constructor].
Qed.

Lemma first_question_shaped (m : json) (rest : list json) (k : Z) :
  mcq_shaped m ->
  exists v,
    (x <- first_of (m :: rest) ;; q <- subscript "question" x ;; py_slice_to k q)
    = Returns v.
Proof.
  intros (fields & q & a & o & -> & Hq & _).
  cbn [first_of bind subscript]. rewrite Hq. cbn [bind py_slice_to].
  eexists; reflexivity.
Qed.

Lemma text_preview_length (limit : nat) (text : string) :
  String.length (text_preview limit text) <= limit + 3.
Proof.
  unfold text_preview. destruct (limit <? String.length text)%nat eqn:Hlong.
  - rewrite length_append. pose proof (length_take limit text).
    cbn [String.length]. lia.
  - apply Nat.ltb_ge in Hlong. lia.
Qed.

Section EndpointProperties.

Context {R : Runtime}.

Variable extract_text_from_pdf : list Byte.byte -> reply (string * Z).
Variable Response : Type.
Variable ProcessResponse : string -> Z -> list json -> list json -> reply Response.

(** The two ways [process_pdf] can go: the upload fails a check, or the
    answer follows from what [make_mcqs] gives for the extracted text. *)
Lemma process_pdf_cases (fuel : nat) (file : UploadFile) (language : string)
    (n : Z) (st : PState) :
  ((forall text pages, ~ accepted_upload extract_text_from_pdf file n text pages)
   /\ exists status d,
        process_pdf extract_text_from_pdf Response ProcessResponse
          fuel file language n st = (HTTPException status d, st)
        /\ (status = 400 \/ (status = 500 /\ exists e, d = InternalServerError e)))
  \/ exists text pages o st',
       accepted_upload extract_text_from_pdf file n text pages
       /\ make_mcqs fuel text language n st = (o, st')
       /\ snd (process_pdf extract_text_from_pdf Response ProcessResponse
                 fuel file language n st) = st'
       /\ match o with
          | Returns [] =>
              fst (process_pdf extract_text_from_pdf Response ProcessResponse
                     fuel file language n st)
              = HTTPException 500
                  (Message "Failed to generate questions from the document. Please check if GEMINI_API_KEY is set.")
          | Returns mcqs =>
              exists cards,
                Forall2 card_of mcqs cards
                /\ fst (process_pdf extract_text_from_pdf Response ProcessResponse
                          fuel file language n st)
                   = match ProcessResponse (text_preview 500 text) pages mcqs cards with
                     | Ok response => Responds response
                     | Fail e => HTTPException 500 (InternalServerError e)
                     end
          | Raises _ => False
          | OutOfFuel =>
              fst (process_pdf extract_text_from_pdf Response ProcessResponse
                     fuel file language n st) = Unfinished
          end.
Proof.
  unfold process_pdf, process_pdf_body.
  destruct ((n <? 5) || (20 <? n))%Z eqn:Hcount.
  { left. split.
    - intros text pages (Hn & _). apply Bool.orb_true_iff in Hcount.
      destruct Hcount as [H | H]; apply Z.ltb_lt in H; lia.
    - eexists. eexists. split; [reflexivity | now left]. }
  apply Bool.orb_false_iff in Hcount. destruct Hcount as [Hlow Hhigh].
  apply Z.ltb_ge in Hlow, Hhigh.
  destruct (filename file) as [name |] eqn:Hname.
  2:{ left. split.
      - intros text pages (_ & (name & Hsome & _) & _). congruence.
      - eexists. eexists. split; [reflexivity |]. right. split; [reflexivity |].
        now eexists. }
  destruct (endswith ".pdf" name) eqn:Hpdf; cbn [negb].
  2:{ left. split.
      - intros text pages (_ & (name' & Hsome & Hends) & _). congruence.
      - eexists. eexists. split; [reflexivity | now left]. }
  cbv zeta.
  destruct (length (read file) =? 0)%nat eqn:Hempty.
  { left. split.
    - intros text pages (_ & _ & Hlen & _). apply Nat.eqb_eq in Hempty. lia.
    - eexists. eexists. split; [reflexivity | now left]. }
  apply Nat.eqb_neq in Hempty.
  destruct (10 * 1024 * 1024 <? Z.of_nat (length (read file)))%Z eqn:Hsize.
  { left. split.
    - intros text pages (_ & _ & _ & Hmax & _). apply Z.ltb_lt in Hsize. lia.
    - eexists. eexists. split; [reflexivity | now left]. }
  apply Z.ltb_ge in Hsize.
  destruct (extract_text_from_pdf (read file)) as [[text pages] | e] eqn:Hextract.
  2:{ left. split.
      - intros text pages (_ & _ & _ & _ & Hext & _). congruence.
      - eexists. eexists. split; [reflexivity |]. right. split; [reflexivity |].
        now eexists. }
  destruct (String.length text <? 100)%nat eqn:Hshort.
  { left. split.
    - intros text' pages' (_ & _ & _ & _ & Hext & Hlen).
      rewrite Hextract in Hext. injection Hext as <- <-.
      apply Nat.ltb_lt in Hshort. lia.
    - eexists. eexists. split; [reflexivity | now left]. }
  apply Nat.ltb_ge in Hshort.
  right.
  assert (Hok : accepted_upload extract_text_from_pdf file n text pages).
  { repeat split; try lia; try assumption. now exists name. }
  destruct (make_mcqs fuel text language n st) as [[mcqs | e |] st'] eqn:Hrun.
  - exists text, pages, (Returns mcqs), st'.
    split; [exact Hok |]. split; [exact Hrun |].
    destruct (make_mcqs_run _ _ _ _ _ _ _ Hrun) as [(Hshape & _) _].
    destruct mcqs as [| m rest]; cbn [is_nil negb bind].
    + split; reflexivity.
    + inversion Hshape as [| ? ? Hm _]; subst.
      destruct (first_question_shaped m rest 80 Hm) as [v Hv].
      destruct (build_flashcards_shaped (m :: rest) Hshape []) as (cards & Hcards & Hall).
      cbn [app] in Hcards. rewrite Hv, Hcards. cbn [bind].
      destruct (ProcessResponse (text_preview 500 text) pages (m :: rest) cards)
        as [response | e] eqn:Hresp.
      * split; [reflexivity |]. exists cards. split; [exact Hall |].
        now rewrite Hresp.
      * split; [reflexivity |]. exists cards. split; [exact Hall |].
        now rewrite Hresp.
  - exfalso. apply (make_mcqs_no_raise fuel text language n st e).
    now rewrite Hrun.
  - exists text, pages, OutOfFuel, st'.
    split; [exact Hok |]. split; [exact Hrun |]. split; reflexivity.
Qed.

(** X25: an upload that fails a check never reaches the pipeline.  When
    the count is outside 5..20, the file name is missing or does not end in
    [.pdf], the file is empty or larger than 10 MB, the extraction raises,
    or the text has fewer than 100 characters, [process_pdf] answers with
    an [HTTPException] of status 400, or of status 500 with the internal
    error detail, and the provider state is untouched. *)
Theorem process_pdf_rejects (fuel : nat) (file : UploadFile) (language : string)
    (n : Z) (st : PState) :
  (forall text pages, ~ accepted_upload extract_text_from_pdf file n text pages) ->
  exists status d,
    process_pdf extract_text_from_pdf Response ProcessResponse
      fuel file language n st = (HTTPException status d, st)
    /\ (status = 400 \/ (status = 500 /\ exists e, d = InternalServerError e)).
Proof.
  intros Hbad.
  destruct (process_pdf_cases fuel file language n st)
    as [[_ Hrej] | (text & pages & _ & _ & Hok & _)]; [exact Hrej |].
  now destruct (Hbad text pages).
Qed.

(** X26: for an upload that passes every check, the answer of
    [process_pdf] follows from what [make_mcqs] gives for the extracted
    text and the count, and the provider state is the one [make_mcqs]
    leaves.  An empty list gives status 500 with the fixed detail; a list
    that is not empty gives the response built from the preview, the page
    count, the MCQs and one flashcard per MCQ holding its question and
    answer, or status 500 when the response model raises; and the endpoint
    does not answer when [make_mcqs] does not return. *)
Theorem process_pdf_accepted (fuel : nat) (file : UploadFile) (language : string)
    (n : Z) (st : PState) (text : string) (pages : Z) :
  accepted_upload extract_text_from_pdf file n text pages ->
  let run := process_pdf extract_text_from_pdf Response ProcessResponse
               fuel file language n st in
  snd run = snd (make_mcqs fuel text language n st)
  /\ match fst (make_mcqs fuel text language n st) with
     | Returns [] =>
         fst run
         = HTTPException 500
             (Message "Failed to generate questions from the document. Please check if GEMINI_API_KEY is set.")
     | Returns mcqs =>
         exists cards,
           Forall2 card_of mcqs cards
           /\ fst run
              = match ProcessResponse (text_preview 500 text) pages mcqs cards with
                | Ok response => Responds response
                | Fail e => HTTPException 500 (InternalServerError e)
                end
     | Raises _ => False
     | OutOfFuel => fst run = Unfinished
     end.
Proof.
  intros Hok run. subst run.
  destruct (process_pdf_cases fuel file language n st)
    as [[Hbad _] | (text' & pages' & o & st' & Hok' & Hrun & Hst & Hans)];
    [now destruct (Hbad text pages) |].
  assert (Hsame : (text', pages') = (text, pages)).
  { destruct Hok as (_ & _ & _ & _ & Hext & _).
    destruct Hok' as (_ & _ & _ & _ & Hext' & _). congruence. }
  injection Hsame as -> ->. rewrite Hrun. cbn [fst snd]. now split.
Qed.

(** X27: what a response of [process_pdf] guarantees.  The upload passed
    every check; the MCQs are the list [make_mcqs] returned, which is not
    empty, has at most as many elements as the count (itself at most 20)
    and holds dictionaries with the keys question, answer and options;
    there is one flashcard per MCQ, holding its question and answer; and
    the text sent back has at most 503 characters. *)
Theorem process_pdf_response (fuel : nat) (file : UploadFile) (language : string)
    (n : Z) (st st' : PState) (response : Response) :
  process_pdf extract_text_from_pdf Response ProcessResponse
    fuel file language n st = (Responds response, st') ->
  exists text pages mcqs cards,
    accepted_upload extract_text_from_pdf file n text pages
    /\ make_mcqs fuel text language n st = (Returns mcqs, st')
    /\ mcqs <> []
    /\ length mcqs <= Z.to_nat n <= 20
    /\ Forall mcq_shaped mcqs
    /\ Forall2 card_of mcqs cards
    /\ ProcessResponse (text_preview 500 text) pages mcqs cards = Ok response
    /\ String.length (text_preview 500 text) <= 503.
Proof.
  intros Hresp.
  destruct (process_pdf_cases fuel file language n st)
    as [[_ (status & d & Hrej & _)]
       | (text & pages & o & st1 & Hok & Hrun & Hst & Hans)];
    [congruence |].
  rewrite Hresp in Hst, Hans. cbn [fst snd] in Hst, Hans. subst st1.
  destruct o as [[| m rest] | e |]; try discriminate Hans; try contradiction.
  destruct Hans as (cards & Hcards & Hans).
  destruct (ProcessResponse (text_preview 500 text) pages (m :: rest) cards)
    as [response' | e] eqn:Hbuilt; [| discriminate Hans].
  injection Hans as <-.
  destruct (make_mcqs_run _ _ _ _ _ _ _ Hrun) as [(Hshape & Hlen & _) _].
  exists text, pages, (m :: rest), cards.
  assert (Hn : (5 <= n <= 20)%Z) by apply Hok.
  split; [exact Hok |]. split; [exact Hrun |]. split; [discriminate |].
  split; [split; [apply Hlen |]; lia |].
  split; [exact Hshape |]. split; [exact Hcards |]. split; [exact Hbuilt |].
  apply (text_preview_length 500).
Qed.

End EndpointProperties.

Lemma process_pdf_rejects_witness :
  exists status d,
    @process_pdf demo_runtime extract_lecture _ plain_response
      4 notes_pdf "Spanish" 21 (@mkPState demo_runtime 0 [])
    = (HTTPException status d, @mkPState demo_runtime 0 [])
    /\ (status = 400 \/ (status = 500 /\ exists e, d = InternalServerError e)).
Proof.
  apply (@process_pdf_rejects demo_runtime extract_lecture _ plain_response).
  intros text pages (Hn & _). lia.
Defined.

Lemma notes_pdf_accepted :
  accepted_upload extract_lecture notes_pdf 5 lecture_text 1.
Proof.
  split; [lia |]. split; [now exists "notes.pdf" |].
  split; [cbn; lia |]. split; [cbn; lia |].
  split; [reflexivity |]. vm_compute. lia.
Qed.

Lemma process_pdf_accepted_witness :
  let st := @mkPState demo_runtime 0 [] in
  let run := @process_pdf demo_runtime extract_lecture _ plain_response
               4 notes_pdf "Spanish" 5 st in
  snd run = snd (@make_mcqs demo_runtime 4 lecture_text "Spanish" 5 st).
Proof.
  intros st run.
  exact (proj1 (@process_pdf_accepted demo_runtime extract_lecture _ plain_response
                  4 notes_pdf "Spanish" 5 st lecture_text 1 notes_pdf_accepted)).
Defined.

Lemma process_pdf_response_witness :
  let st := @mkPState demo_runtime 0 [] in
  exists text pages mcqs cards,
    accepted_upload extract_lecture notes_pdf 5 text pages
    /\ @make_mcqs demo_runtime 4 text "Spanish" 5 st
       = (Returns mcqs,
          snd (@make_mcqs demo_runtime 4 lecture_text "Spanish" 5 st))
    /\ mcqs <> []
    /\ length mcqs <= Z.to_nat 5 <= 20
    /\ Forall mcq_shaped mcqs
    /\ Forall2 card_of mcqs cards
    /\ plain_response (text_preview 500 text) pages mcqs cards
       = Ok (lecture_text, 1%Z,
             [ mcq_json tidy_mcq; demo_translation; mcq_json tidy_mcq;
               demo_translation ],
             map (fun m => JObj [ ("question", JStr (question m));
                                  ("answer", JStr (answer m)) ])
                 [ tidy_mcq;
                   {| question := "Cuanto es dos mas dos?"; answer := "4";
                      options := []; difficulty := "hard" |};
                   tidy_mcq;
                   {| question := "Cuanto es dos mas dos?"; answer := "4";
                      options := []; difficulty := "hard" |} ])
    /\ String.length (text_preview 500 text) <= 503.
Proof.
  intros st.
  apply (@process_pdf_response demo_runtime extract_lecture _ plain_response
           4 notes_pdf "Spanish" 5 st).
  vm_compute; reflexivity.
Defined.

(** X28: the test endpoint never answers with an error.  [make_mcqs] does
    not raise, so the handler of [test_mcq_generation] is never entered;
    when the endpoint answers, the count it reports is the number of MCQs
    it returns, which are those of [make_mcqs]: dictionaries with the keys
    question, answer and options, at most as many as the count asked for
    when that is not negative. *)
Theorem test_mcq_generation_answers {R : Runtime} (fuel : nat)
    (text language : string) (n : Z) (st : PState) :
  (forall status d,
     fst (test_mcq_generation fuel text language n st) <> HTTPException status d)
  /\ (forall body st',
        test_mcq_generation fuel text language n st = (Responds body, st') ->
        exists mcqs,
          make_mcqs fuel text language n st = (Returns mcqs, st')
          /\ subscript "question_count" body
             = Returns (JInt (Z.of_nat (length mcqs)))
          /\ subscript "mcqs" body = Returns (JArr mcqs)
          /\ Forall mcq_shaped mcqs
          /\ ((0 <= n)%Z -> length mcqs <= Z.to_nat n)).
Proof.
  unfold test_mcq_generation.
  destruct (make_mcqs fuel text language n st) as [[mcqs | e |] st1] eqn:Hrun.
  - split; [discriminate |]. intros body st' [= <- <-].
    destruct (make_mcqs_run _ _ _ _ _ _ _ Hrun) as [(Hshape & Hlen & _) _].
    exists mcqs. repeat split; assumption.
  - exfalso. apply (make_mcqs_no_raise fuel text language n st e).
    now rewrite Hrun.
  - split; discriminate.
Qed.

Lemma test_mcq_generation_answers_witness :
  let st := @mkPState demo_runtime 0 [] in
  let run := @test_mcq_generation demo_runtime 4 choppy_text "Spanish" 5 st in
  let body := match fst run with Responds b => b | _ => JNull end in
  exists mcqs,
    @make_mcqs demo_runtime 4 choppy_text "Spanish" 5 st = (Returns mcqs, snd run)
    /\ subscript "question_count" body = Returns (JInt (Z.of_nat (length mcqs)))
    /\ subscript "mcqs" body = Returns (JArr mcqs)
    /\ Forall mcq_shaped mcqs
    /\ ((0 <= 5)%Z -> length mcqs <= Z.to_nat 5).
Proof.
  intros st run body.
  apply (proj2 (@test_mcq_generation_answers demo_runtime 4 choppy_text "Spanish" 5 st)
           body (snd run)).
  vm_compute; reflexivity.
Defined.

(* ------------------------------------------------------------------ *)
(** ** The shape of an accepted MCQ *)

(** X29: every accepted MCQ has exactly four options, each of them without
    whitespace at either end, whatever the number and the form of the raw
    options. *)
Theorem validate_mcq_four_trimmed_options (fuel : nat) (mcq : json) (m : MCQ) :
  validate_mcq fuel mcq = Returns (Some m) ->
  length (options m) = 4 /\ Forall trimmed (options m).
Proof.
  intros H. apply validate_mcq_output in H.
  destruct H as (filled & -> & Hlen & _ & _ & Htrim & _).
  split; [rewrite length_firstn; lia | now apply Forall_firstn].
Qed.

Lemma validate_mcq_four_trimmed_options_witness :
  length (options repaired_result) = 4 /\ Forall trimmed (options repaired_result).
Proof.
  apply (validate_mcq_four_trimmed_options 4 repaired_mcq).
  vm_compute; reflexivity.
Defined.
